(** * TSE option market dashboard: pricing engine, chain and IV-history
      builders, staleness gate and pipeline scheduler

    A shallow embedding of [Scripts/chain_calculator.py],
    [Scripts/iv_calculator.py] and [server/data_updater.py].

    Numbers.  A Python/NumPy float is modelled as [option R]: [None] is NaN
    and [Some x] is the real number [x].  Arithmetic is exact; rounding,
    overflow and the IEEE infinities are not represented.  Every comparison
    with NaN is false, and every arithmetic operation on NaN yields NaN,
    as in IEEE 754. *)

From stdpp Require Import base option strings gmap.
From Stdlib Require Import Reals Lra Lia ZArith List Bool Ascii String.
From Stdlib Require Import Sorted Permutation DecimalString.
From Stdlib Require Import RiemannInt Ranalysis.
Import ListNotations.

Local Open Scope R_scope.

(** ** Floats with NaN *)

Module Float.

Definition float : Type := option R.

Definition nan : float := None.

Definition lift1 (f : R -> R) (x : float) : float :=
  match x with
  | Some a => Some (f a)
  | None => None
  end.

Definition lift2 (f : R -> R -> R) (x y : float) : float :=
  match x, y with
  | Some a, Some b => Some (f a b)
  | _, _ => None
  end.

Definition fadd : float -> float -> float := lift2 Rplus.
Definition fsub : float -> float -> float := lift2 Rminus.
Definition fmul : float -> float -> float := lift2 Rmult.
Definition fneg : float -> float := lift1 Ropp.

(** A quotient by zero is not a real number; it is reported as NaN. *)
Definition fdiv (x y : float) : float :=
  match x, y with
  | Some a, Some b => if Req_dec_T b 0 then None else Some (a / b)
  | _, _ => None
  end.

(** [x <= y] and [x < y] on floats: false as soon as one side is NaN. *)
Definition fle (x y : float) : bool :=
  match x, y with
  | Some a, Some b => if Rle_dec a b then true else false
  | _, _ => false
  end.

Definition flt (x y : float) : bool :=
  match x, y with
  | Some a, Some b => if Rlt_dec a b then true else false
  | _, _ => false
  end.

(** [pd.notna] / [pd.isna] on a scalar. *)
Definition notna (x : float) : bool :=
  match x with Some _ => true | None => false end.

Definition isna (x : float) : bool := negb (notna x).

Definition of_Z (n : Z) : float := Some (IZR n).

(** [np.log]: NaN outside the positive reals. *)
Definition flog (x : float) : float :=
  match x with
  | Some a => if Rlt_dec 0 a then Some (ln a) else None
  | None => None
  end.

(** [np.sqrt]: NaN on negative numbers. *)
Definition fsqrt (x : float) : float :=
  match x with
  | Some a => if Rle_dec 0 a then Some (sqrt a) else None
  | None => None
  end.

Definition fexp : float -> float := lift1 exp.

End Float.

Export Float.

Declare Scope float_scope.
Delimit Scope float_scope with fl.
Bind Scope float_scope with float.
Infix "+" := fadd : float_scope.
Infix "-" := fsub : float_scope.
Infix "*" := fmul : float_scope.
Infix "/" := fdiv : float_scope.
Notation "- x" := (fneg x) : float_scope.
Infix "<=?" := fle : float_scope.
Infix "<?" := flt : float_scope.

(** ** The standard normal distribution ([scipy.stats.norm])

    Library code, outside the repository. *)

Module Norm.

(** Modelled from the spec: [norm.pdf], which the spec names as the
    standard-normal PDF.  Density of the standard normal law. *)
Definition pdf_R (x : R) : R := exp (- (x * x) / 2) / sqrt (2 * PI).

Lemma pdf_R_continuity : continuity pdf_R.
Proof.
  unfold pdf_R.
  assert (Hs : sqrt (2 * PI) <> 0).
  { apply Rgt_not_eq, sqrt_lt_R0. pose proof PI_RGT_0. lra. }
  intros x. reg.
Qed.

Lemma pdf_R_integrable (a b : R) : Riemann_integrable pdf_R a b.
Proof.
  destruct (Rle_dec a b) as [Hab | Hab].
  - apply continuity_implies_RiemannInt; [exact Hab |].
    intros x _. apply pdf_R_continuity.
  - apply RiemannInt_P1, continuity_implies_RiemannInt; [lra |].
    intros x _. apply pdf_R_continuity.
Qed.

(** Modelled from the spec: [norm.cdf], which the spec names as the
    standard-normal CDF.  Distribution function: one half plus the mass
    between [0] and [x]. *)
Definition cdf_R (x : R) : R := 1 / 2 + RiemannInt (pdf_R_integrable 0 x).

Definition pdf : float -> float := lift1 pdf_R.
Definition cdf : float -> float := lift1 cdf_R.

Lemma pdf_R_pos x : 0 < pdf_R x.
Proof.
  unfold pdf_R. apply Rdiv_lt_0_compat; [apply exp_pos |].
  apply sqrt_lt_R0. pose proof PI_RGT_0. lra.
Qed.

Lemma cdf_R_0 : cdf_R 0 = 1 / 2.
Proof. unfold cdf_R. rewrite RiemannInt_P9. lra. Qed.

Lemma cdf_R_ge_half x : 0 <= x -> 1 / 2 <= cdf_R x.
Proof.
  intros Hx. unfold cdf_R.
  pose proof (RiemannInt_P19 (RiemannInt_P14 0 x 0) (pdf_R_integrable 0 x) Hx)
    as Hle.
  rewrite RiemannInt_P15 in Hle.
  assert (0 * (x - 0) <= RiemannInt (pdf_R_integrable 0 x)).
  { apply Hle. intros y _. unfold fct_cte. left. apply pdf_R_pos. }
  lra.
Qed.

End Norm.

Export Norm.

(** ** Python values, exceptions and a few builtins *)

Module Py.

Inductive exn : Type :=
| ValueError
| KeyError
| FileNotFoundError
| ZeroDivisionError
| OverflowError.

(** The outcome of a call that may raise. *)
Inductive result (A : Type) : Type :=
| Ok (a : A)
| Raise (e : exn).

Arguments Ok {A} a.
Arguments Raise {A} e.

Definition bind {A B : Type} (m : result A) (k : A -> result B) : result B :=
  match m with
  | Ok a => k a
  | Raise e => Raise e
  end.

(** [try: ... except: handler]. *)
Definition try_except {A : Type} (m : result A) (handler : A) : A :=
  match m with
  | Ok a => a
  | Raise _ => handler
  end.

(** A spreadsheet cell as pandas reads it: a number (possibly NaN, for an
    empty cell) or text.  Text that Python's [float]/[int] would parse is
    read as a number by the spreadsheet reader, so [Text] stands for text
    the conversions reject. *)
Inductive cell : Type :=
| Num (x : float)
| Text (s : string).

Definition cell_notna (c : cell) : bool :=
  match c with
  | Num x => notna x
  | Text _ => true
  end.

(** [float(c)]. *)
Definition to_float (c : cell) : result float :=
  match c with
  | Num x => Ok x
  | Text _ => Raise ValueError
  end.

(** Truncation towards zero. *)
Definition trunc (x : R) : Z :=
  if Rle_dec 0 x then Int_part x else (- Int_part (- x))%Z.

(** [int(x)] on a float: NaN cannot be converted. *)
Definition int_of_float (x : float) : result Z :=
  match x with
  | Some v => Ok (trunc v)
  | None => Raise ValueError
  end.

(** [int(c)]. *)
Definition to_int (c : cell) : result Z :=
  match c with
  | Num x => int_of_float x
  | Text _ => Raise ValueError
  end.

(** [round(x, ndigits)] on a float: to the nearest multiple of
    [10^-ndigits], ties to the even one; NaN stays NaN. *)
Definition round_half_even (x : R) : Z :=
  let n := Int_part x in
  let d := x - IZR n in
  if Rlt_dec d (1 / 2) then n
  else if Rlt_dec (1 / 2) d then (n + 1)%Z
  else if Z.even n then n else (n + 1)%Z.

Definition round (x : float) (ndigits : nat) : float :=
  match x with
  | Some v => Some (IZR (round_half_even (v * 10 ^ ndigits)) / 10 ^ ndigits)
  | None => None
  end.

(** [str.strip()].  A text is a list of characters with a code below 256;
    [is_space] is [str.isspace] on them: the ASCII blanks and separators,
    NEL (133) and the no-break space (160). *)
Definition is_space (a : ascii) : bool :=
  match N_of_ascii a with
  | 9%N | 10%N | 11%N | 12%N | 13%N
  | 28%N | 29%N | 30%N | 31%N | 32%N | 133%N | 160%N => true
  | _ => false
  end.

Fixpoint lstrip_list (l : list ascii) : list ascii :=
  match l with
  | a :: l' => if is_space a then lstrip_list l' else l
  | [] => []
  end.

Definition strip (s : string) : string :=
  string_of_list_ascii
    (rev (lstrip_list (rev (lstrip_list (list_ascii_of_string s))))).

(** [s in ['nan', '']]. *)
Definition is_nan_or_empty (s : string) : bool :=
  String.eqb s "nan" || String.eqb s EmptyString.

(** [l[-n:]]: the last [n] elements, all of [l] when it is shorter. *)
Definition last_n {A : Type} (n : nat) (l : list A) : list A :=
  skipn (List.length l - n) l.

End Py.

Export Py.

(** ** Doubles with their range

    [float] above reads a double as a real number, or as nothing for NaN.
    That leaves out the two ends of the range of doubles: a result that
    is too large is an infinity, a result that is too small is zero, and
    [inf * 0], [inf - inf], [0 / 0] and [inf / inf] are NaN.  [double]
    adds the infinities, and [of_real] the two ends of the range.  Inside
    the range a result is kept as the real number it is (no rounding), and
    the sign of a zero is not kept: a zero divisor is read as [+0]. *)

Module Double.

Inductive double : Type :=
| NaN
| Inf (negative : bool)
| Fin (x : R).

(** Rounding to nearest sends to an infinity what is at least
    [2^1024 - 2^970] in absolute value (the largest double plus half a
    unit in its last place), and to zero what is at most [2^-1075] (half
    the smallest positive double). *)
Definition overflow_threshold : R := 2 ^ 1024 - 2 ^ 970.
Definition underflow_threshold : R := / 2 ^ 1075.

Definition is_negative (x : R) : bool := if Rlt_dec x 0 then true else false.

Definition of_real (x : R) : double :=
  if Rle_dec overflow_threshold (Rabs x) then Inf (is_negative x)
  else if Rle_dec (Rabs x) underflow_threshold then Fin 0
  else Fin x.

Definition neg (x : double) : double :=
  match x with
  | NaN => NaN
  | Inf s => Inf (negb s)
  | Fin a => Fin (- a)
  end.

Definition add (x y : double) : double :=
  match x, y with
  | NaN, _ => NaN
  | _, NaN => NaN
  | Inf s, Inf t => if Bool.eqb s t then Inf s else NaN
  | Inf s, Fin _ => Inf s
  | Fin _, Inf t => Inf t
  | Fin a, Fin b => of_real (a + b)
  end.

Definition sub (x y : double) : double := add x (neg y).

Definition mul (x y : double) : double :=
  match x, y with
  | NaN, _ => NaN
  | _, NaN => NaN
  | Inf s, Inf t => Inf (xorb s t)
  | Inf s, Fin b => if Req_dec_T b 0 then NaN else Inf (xorb s (is_negative b))
  | Fin a, Inf t => if Req_dec_T a 0 then NaN else Inf (xorb (is_negative a) t)
  | Fin a, Fin b => of_real (a * b)
  end.

(** Division as NumPy does it: a zero divisor gives an infinity, or NaN
    for [0 / 0], and a warning. *)
Definition div (x y : double) : double :=
  match x, y with
  | NaN, _ => NaN
  | _, NaN => NaN
  | Inf _, Inf _ => NaN
  | Inf s, Fin b => Inf (xorb s (is_negative b))
  | Fin _, Inf _ => Fin 0
  | Fin a, Fin b =>
      if Req_dec_T b 0
      then (if Req_dec_T a 0 then NaN else Inf (is_negative a))
      else of_real (a / b)
  end.

(** [x <= y]: false as soon as one side is NaN. *)
Definition le (x y : double) : bool :=
  match x, y with
  | NaN, _ => false
  | _, NaN => false
  | Inf s, Inf t => s || negb t
  | Inf s, Fin _ => s
  | Fin _, Inf t => negb t
  | Fin a, Fin b => if Rle_dec a b then true else false
  end.

(** [x ** 2] on a Python float: a finite result out of range raises
    [OverflowError]; a result that is too small is zero. *)
Definition square (x : double) : result double :=
  match x with
  | NaN => Ok NaN
  | Inf _ => Ok (Inf false)
  | Fin a =>
      if Rle_dec overflow_threshold (a * a) then Raise OverflowError
      else Ok (of_real (a * a))
  end.

(** [np.log], [np.sqrt], [np.exp]. *)
Definition log (x : double) : double :=
  match x with
  | NaN => NaN
  | Inf s => if s then NaN else Inf false
  | Fin a =>
      if Rlt_dec 0 a then of_real (ln a)
      else if Req_dec_T a 0 then Inf true else NaN
  end.

Definition sqrt (x : double) : double :=
  match x with
  | NaN => NaN
  | Inf s => if s then NaN else Inf false
  | Fin a => if Rle_dec 0 a then of_real (R_sqrt.sqrt a) else NaN
  end.

Definition exp (x : double) : double :=
  match x with
  | NaN => NaN
  | Inf s => if s then Fin 0 else Inf false
  | Fin a => of_real (Rtrigo_def.exp a)
  end.

(** [norm.cdf], [norm.pdf]. *)
Definition cdf (x : double) : double :=
  match x with
  | NaN => NaN
  | Inf s => if s then Fin 0 else Fin 1
  | Fin a => of_real (cdf_R a)
  end.

Definition pdf (x : double) : double :=
  match x with
  | NaN => NaN
  | Inf _ => Fin 0
  | Fin a => of_real (pdf_R a)
  end.

End Double.

Declare Scope double_scope.
Delimit Scope double_scope with dbl.
Bind Scope double_scope with Double.double.
Infix "+" := Double.add : double_scope.
Infix "-" := Double.sub : double_scope.
Infix "*" := Double.mul : double_scope.
Infix "/" := Double.div : double_scope.
Notation "- x" := (Double.neg x) : double_scope.
Infix "<=?" := Double.le : double_scope.

(** ** Bracketed root finder ([scipy.optimize.brentq])

    The solver is library code: the repository only calls it.  It is
    modelled here after SciPy's routine (Brent's method in the
    Bus-Dekker-Brent formulation): the Python wrapper that validates the
    tolerances and turns solver status codes into exceptions, and the
    iteration that keeps a bracketing pair [xcur], [xblk] and the previous
    iterate [xpre].  The function being solved returns a float; a NaN
    value makes the wrapper raise. *)

Module Brentq.

(** How a call ends: a root, or one of the exceptions the wrapper raises. *)
Inductive outcome : Type :=
| Converged (x : R)
| SignError      (* ValueError: f(a) and f(b) must have different signs *)
| ConvError      (* RuntimeError: failed to converge after maxiter iterations *)
| NanError       (* ValueError: the function value is NaN *)
| TolError.      (* ValueError: xtol or rtol out of range *)

Record state : Type := State {
  xpre : R; xcur : R; xblk : R;
  fpre : R; fcur : R; fblk : R;
  spre : R; scur : R
}.

Inductive step_result : Type :=
| Continue (s : state)
| Stop (o : outcome).

Definition signbit (x : R) : bool := if Rlt_dec x 0 then true else false.
Definition Rltb (x y : R) : bool := if Rlt_dec x y then true else false.
Definition Reqb (x y : R) : bool := if Req_dec_T x y then true else false.

(** Default tolerances of the SciPy wrapper: [xtol = 2e-12] and
    [rtol = 4 * eps] with [eps = 2^-52]. *)
Definition default_xtol : R := 2 / 10 ^ 12.
Definition default_rtol : R := 4 / 2 ^ 52.

Section Solver.

Variable f : R -> float.
Variables xtol rtol : R.

(** Re-establish the bracket when the last two iterates straddle the root. *)
Definition rebracket (s : state) : state :=
  if negb (Reqb (fpre s) 0) && negb (Reqb (fcur s) 0)
     && negb (Bool.eqb (signbit (fpre s)) (signbit (fcur s)))
  then State (xpre s) (xcur s) (xpre s) (fpre s) (fcur s) (fpre s)
             (xcur s - xpre s) (xcur s - xpre s)
  else s.

(** Keep in [xcur] the end of the bracket with the smaller residual. *)
Definition swap (s : state) : state :=
  if Rltb (Rabs (fblk s)) (Rabs (fcur s))
  then State (xcur s) (xblk s) (xcur s) (fcur s) (fblk s) (fcur s)
             (spre s) (scur s)
  else s.

Definition delta_of (s : state) : R := (xtol + rtol * Rabs (xcur s)) / 2.
Definition sbis_of (s : state) : R := (xblk s - xcur s) / 2.

(** Secant step when only two points are known, inverse quadratic
    extrapolation otherwise. *)
Definition trial_step (s : state) : R :=
  if Reqb (xpre s) (xblk s)
  then - fcur s * (xcur s - xpre s) / (fcur s - fpre s)
  else
    let dpre := (fpre s - fcur s) / (xpre s - xcur s) in
    let dblk := (fblk s - fcur s) / (xblk s - xcur s) in
    - fcur s * (fblk s * dblk - fpre s * dpre)
      / (dblk * dpre * (fblk s - fpre s)).

(** The pair [(spre, scur)] after the step has been chosen. *)
Definition choose_step (s : state) : R * R :=
  let delta := delta_of s in
  let sbis := sbis_of s in
  if Rltb delta (Rabs (spre s)) && Rltb (Rabs (fcur s)) (Rabs (fpre s))
  then
    let stry := trial_step s in
    if Rltb (2 * Rabs stry) (Rmin (Rabs (spre s)) (3 * Rabs sbis - delta))
    then (scur s, stry)        (* good short step *)
    else (sbis, sbis)          (* bisect *)
  else (sbis, sbis).           (* bisect *)

Definition advance (s : state) : R :=
  let delta := delta_of s in
  let sbis := sbis_of s in
  let sc := snd (choose_step s) in
  if Rltb delta (Rabs sc)
  then xcur s + sc
  else xcur s + (if Rltb 0 sbis then delta else - delta).

(** One pass through the body of the solver's [for] loop. *)
Definition iteration (s0 : state) : step_result :=
  let s := swap (rebracket s0) in
  if Reqb (fcur s) 0 || Rltb (Rabs (sbis_of s)) (delta_of s)
  then Stop (Converged (xcur s))
  else
    let x' := advance s in
    match f x' with
    | None => Stop NanError
    | Some fx' =>
        Continue (State (xcur s) x' (xblk s) (fcur s) fx' (fblk s)
                        (fst (choose_step s)) (snd (choose_step s)))
    end.

Fixpoint iterate (iter : nat) (s : state) : outcome :=
  match iter with
  | O => ConvError
  | S iter' =>
      match iteration s with
      | Stop o => o
      | Continue s' => iterate iter' s'
      end
  end.

(** Modelled from the spec: [scipy.optimize.brentq] is not part of the
    repository.  The spec describes it as a bracketed root-finder
    (bisection/Brent-style) over a fixed bracket with a bounded iteration
    count, which fails when there is no sign change across the bracket or
    when it does not converge; the model follows SciPy's routine. *)
Definition brentq (a b : R) (maxiter : nat) : outcome :=
  if Rle_dec xtol 0 then TolError
  else if Rlt_dec rtol (default_rtol / 4) then TolError
  else
    match f a, f b with
    | Some fa, Some fb =>
        if Reqb fa 0 then Converged a
        else if Reqb fb 0 then Converged b
        else if Bool.eqb (signbit fa) (signbit fb) then SignError
        else iterate maxiter (State a b 0 fa fb 0 0 0)
    | _, _ => NanError
    end.

End Solver.

End Brentq.

(** ** Scripts/chain_calculator.py: pricing functions *)

Module ChainCalculator.

Definition RISK_FREE_RATE : float := Some 0.36.
Definition MIN_IV : float := Some 0.01.
Definition MAX_IV : float := Some 5.

Definition half : float := Some 0.5.

(** [bs_price].  No operation of the body raises in this model, so the
    [except] branch of the source (which returns [0.0]) is never taken. *)
Definition bs_price (S K T r sigma : float) (option_type : string) : float :=
  if (T <=? Some 0)%fl || (sigma <=? Some 0)%fl
     || (S <=? Some 0)%fl || (K <=? Some 0)%fl
  then Some 0
  else
    let d1 := ((flog (S / K) + (r + half * (sigma * sigma)) * T)
               / (sigma * fsqrt T))%fl in
    let d2 := (d1 - sigma * fsqrt T)%fl in
    if String.eqb option_type "CALL"
    then (S * cdf d1 - K * fexp (- r * T) * cdf d2)%fl
    else (K * fexp (- r * T) * cdf (- d2) - S * cdf (- d1))%fl.

(** What [brentq] hands back to a caller that wraps it in [try/except]:
    the root, or NaN for every exception. *)
Definition root_or_nan (o : Brentq.outcome) : float :=
  match o with
  | Brentq.Converged x => Some x
  | _ => nan
  end.

Definition implied_volatility (price S K T r : float) (option_type : string)
  : float :=
  if (price <=? Some 0)%fl || (T <=? Some 0)%fl
     || (S <=? Some 0)%fl || (K <=? Some 0)%fl
  then nan
  else
    root_or_nan
      (Brentq.brentq
         (fun sigma => (bs_price S K T r (Some sigma) option_type - price)%fl)
         Brentq.default_xtol Brentq.default_rtol 0.01 5 100).

Record greeks : Type := Greeks {
  delta : float; gamma : float; theta : float; vega : float; rho : float
}.

Definition nan_greeks : greeks := Greeks nan nan nan nan nan.

Definition calculate_greeks (S K T r sigma : float) (option_type : string)
  : greeks :=
  if (T <=? Some 0)%fl || (sigma <=? MIN_IV)%fl
     || (S <=? Some 0)%fl || (K <=? Some 0)%fl
  then nan_greeks
  else
    let d1 := ((flog (S / K) + (r + half * (sigma * sigma)) * T)
               / (sigma * fsqrt T))%fl in
    let d2 := (d1 - sigma * fsqrt T)%fl in
    let two := Some 2 in
    let '(delta, theta, rho) :=
      if String.eqb option_type "CALL"
      then (cdf d1,
            (- (S * pdf d1 * sigma) / (two * fsqrt T)
             - r * K * fexp (- r * T) * cdf d2)%fl,
            (K * T * fexp (- r * T) * cdf d2)%fl)
      else ((cdf d1 - Some 1)%fl,
            (- (S * pdf d1 * sigma) / (two * fsqrt T)
             + r * K * fexp (- r * T) * cdf (- d2))%fl,
            (- K * T * fexp (- r * T) * cdf (- d2))%fl) in
    let gamma := (pdf d1 / (S * sigma * fsqrt T))%fl in
    let vega := (S * pdf d1 * fsqrt T)%fl in
    Greeks delta gamma (theta / Some 365)%fl (vega / Some 100)%fl
           (rho / Some 100)%fl.


(** *** Files

    A file is represented by what the code observes of it.  The live
    options workbook is observed twice: through its SHA-256 hex digest
    ([file_hash]) and through its rows ([pd.read_excel]).  Text columns
    hold the value of [str(cell)], as the code reads them; the [type]
    column is used as it is read: a text, or nothing for an empty cell
    (NaN). *)

Record live_row : Type := LiveRow {
  lr_isin_put : string;
  lr_isin_call : string;
  lr_contract_size : cell;
  lr_underlying_isin : string;
  lr_ticker : string;
  lr_name : string;
  lr_count : cell;
  lr_volume : cell;
  lr_real_time_price : cell;
  lr_open_interest : cell;
  lr_last : cell;
  lr_underlying_ticker : string;
  lr_underlying_real_time_price : float;
  lr_begin_date : string;
  lr_end_date : string;
  lr_strike : cell;
  lr_remained_day : cell;
  lr_type : option string
}.

Record live_file : Type := LiveFile {
  lf_digest : string;
  lf_rows : list live_row
}.

(** A row of the underlying history.  [hr_date] is the date cell after
    removal of the slashes and conversion to an integer, [None] when the
    conversion fails; [hr_last] is [pd.to_numeric(last, errors='coerce')],
    NaN in every row when the table has no [last] column (the function
    then returns four NaN, as it does when no price is valid). *)
Record history_row : Type := HistoryRow {
  hr_isin : string;
  hr_date : option Z;
  hr_last : float
}.

Definition history_table : Type := list history_row.

Record underlying_live_row : Type := UnderlyingLiveRow {
  ul_isin : string;
  ul_real_time_price : float
}.

Record chain_row : Type := ChainRow {
  contract_isin : string;
  ticker : string;
  name : string;
  type : option string;
  strike : float;
  days_to_expiry : Z;
  begin_date : string;
  end_date : string;
  market_price : float;
  last_price : float;
  theoretical_price : float;
  price_diff_pct : float;
  iv : float;
  row_delta : float;
  row_gamma : float;
  theta_daily : float;
  vega_per_1pct : float;
  rho_per_1pct : float;
  hv_30d : float;
  hv_90d : float;
  hv_252d : float;
  hv_selected : float;
  trade_count : Z;
  volume : Z;
  open_interest : Z;
  underlying_price : float;
  underlying_isin : string;
  underlying_name : string;
  contract_size : Z
}.

Record filesystem : Type := FileSystem {
  fs_live : option live_file;                       (* LIVE_FILE *)
  fs_history : option history_table;                (* HISTORY_FILE *)
  fs_underlying_live : option (list underlying_live_row); (* UNDERLYING_LIVE_FILE *)
  fs_output : option (list chain_row);              (* OUTPUT_FILE *)
  fs_hash : option string                           (* HASH_FILE *)
}.

(** *** Hash system *)

Definition file_hash (f : option live_file) : option string :=
  match f with
  | None => None
  | Some lf => Some (lf_digest lf)
  end.

Definition should_rebuild (fs : filesystem) : bool :=
  match fs_output fs with
  | None => true
  | Some _ =>
      match fs_live fs with
      | None => false
      | Some _ =>
          match file_hash (fs_live fs) with
          | None => true
          | Some current_hash =>
              match fs_hash fs with
              | None => true
              | Some content =>
                  let saved_hash := strip content in
                  negb (String.eqb current_hash saved_hash)
              end
          end
      end
  end.

Definition save_hash (fs : filesystem) : filesystem :=
  match file_hash (fs_live fs) with
  | Some h =>
      if String.eqb h EmptyString then fs
      else FileSystem (fs_live fs) (fs_history fs) (fs_underlying_live fs)
                      (fs_output fs) (Some h)
  | None => fs
  end.

(** *** Historical volatility *)

Definition hv_tuple : Type := float * float * float * float.

Definition nan_hv : hv_tuple := (nan, nan, nan, nan).
Definition default_hv : hv_tuple := (nan, nan, nan, Some 0.3).

Definition sum_R (l : list R) : R := fold_right Rplus 0 l.

Definition mean_R (l : list R) : R := sum_R l / INR (List.length l).

(** [Series.std()]: the sample standard deviation (one degree of freedom
    removed), NaN on fewer than two observations. *)
Definition std (l : list R) : float :=
  if (List.length l <? 2)%nat then nan
  else
    let m := mean_R l in
    Some (sqrt (sum_R (map (fun x => (x - m) * (x - m)) l)
                / (INR (List.length l) - 1))).

(** [sort_values('date_int')] puts the rows in ascending order of the
    date.  pandas sorts a single column with NumPy's default sort, which
    is not stable: rows with the same date come out in an order that the
    source does not fix.  [sort_by_date] is the order in which such rows
    stay in their order of arrival; [calculate_hv_with] below takes the
    sorting function as an argument, for the statements that hold
    whichever order is taken. *)
Fixpoint insert_by_date (x : Z * float) (l : list (Z * float)) : list (Z * float) :=
  match l with
  | [] => [x]
  | y :: l' =>
      if (fst x <=? fst y)%Z then x :: l else y :: insert_by_date x l'
  end.

Definition sort_by_date (l : list (Z * float)) : list (Z * float) :=
  fold_right insert_by_date [] l.

(** [drop_duplicates('date_int')]: the first row of each date is kept. *)
Fixpoint drop_duplicates_seen (seen : list Z) (l : list (Z * float))
  : list (Z * float) :=
  match l with
  | [] => []
  | x :: l' =>
      if existsb (Z.eqb (fst x)) seen then drop_duplicates_seen seen l'
      else x :: drop_duplicates_seen (fst x :: seen) l'
  end.

Definition drop_duplicates (l : list (Z * float)) : list (Z * float) :=
  drop_duplicates_seen [] l.

(** The date column as integers; one cell that does not convert makes the
    final [astype(int)] raise. *)
Fixpoint dated (hist : list history_row) : result (list (Z * float)) :=
  match hist with
  | [] => Ok []
  | h :: hist' =>
      match hr_date h with
      | None => Raise ValueError
      | Some d => bind (dated hist') (fun l => Ok ((d, hr_last h) :: l))
      end
  end.

(** Prices that are numbers and positive. *)
Fixpoint valid_prices (l : list (Z * float)) : list R :=
  match l with
  | [] => []
  | (_, Some v) :: l' =>
      if Rlt_dec 0 v then v :: valid_prices l' else valid_prices l'
  | (_, None) :: l' => valid_prices l'
  end.

Fixpoint dropna (l : list float) : list R :=
  match l with
  | [] => []
  | Some v :: l' => v :: dropna l'
  | None :: l' => dropna l'
  end.

(** [np.log(price / price.shift(1))]: NaN in the first row. *)
Fixpoint log_ratio_from (prev : R) (prices : list R) : list float :=
  match prices with
  | [] => []
  | p :: prices' => flog (Some p / Some prev)%fl :: log_ratio_from p prices'
  end.

Definition ret_column (prices : list R) : list float :=
  match prices with
  | [] => []
  | p :: prices' => nan :: log_ratio_from p prices'
  end.

Definition annualized (v : float) : float := (v * fsqrt (Some 252))%fl.

(** The volatilities computed from the list of valid returns. *)
Definition hv_of_returns (rets : list R) : hv_tuple :=
  if (List.length rets =? 0)%nat then nan_hv
  else
    let v30 := if (30 <=? List.length rets)%nat
               then annualized (std (last_n 30 rets)) else nan in
    let v90 := if (90 <=? List.length rets)%nat
               then annualized (std (last_n 90 rets)) else nan in
    let v252 := annualized (std rets) in
    let valid_vols := dropna [v30; v90; v252] in
    let selected := match valid_vols with
                    | [] => Some 0.3
                    | _ => Some (mean_R valid_vols)
                    end in
    (v30, v90, v252, selected).

(** The valid returns [rets] that [calculate_hv] works on, when it gets
    that far. *)
Definition returns_of_with (sort : list (Z * float) -> list (Z * float))
  (hist : list (Z * float)) : list R :=
  dropna (ret_column (valid_prices (drop_duplicates (sort hist)))).

Definition returns_of (hist : list (Z * float)) : list R :=
  returns_of_with sort_by_date hist.

Definition same_isin (u_isin_str : string) (h : history_row) : bool :=
  String.eqb (strip (hr_isin h)) u_isin_str.

(** [calculate_hv], with [sort] for [sort_values('date_int')]. *)
Definition calculate_hv_with (sort : list (Z * float) -> list (Z * float))
  (df_hist : history_table) (u_isin : string) : result hv_tuple :=
  let u_isin_str := strip u_isin in
  let hist := filter (same_isin u_isin_str) df_hist in
  if (List.length hist <? 2)%nat then Ok nan_hv
  else
    bind (dated hist) (fun hist =>
    let hist := drop_duplicates (sort hist) in
    let prices := valid_prices hist in
    if (List.length prices <? 2)%nat then Ok nan_hv
    else Ok (hv_of_returns (dropna (ret_column prices)))).

Definition calculate_hv (df_hist : history_table) (u_isin : string)
  : result hv_tuple :=
  calculate_hv_with sort_by_date df_hist u_isin.

(** *** Main build function *)

(** Step 2: the volatility estimate of every underlying of the live
    table.  [unique()] only avoids recomputation: a repeated key is
    assigned the same value again. *)
Definition hv_entry (df_hist : history_table) (u_isin : string)
  (hv_cache : gmap string hv_tuple) : result (gmap string hv_tuple) :=
  let u_isin_str := strip u_isin in
  if is_nan_or_empty u_isin_str then Ok hv_cache
  else if existsb (same_isin u_isin_str) df_hist
  then bind (calculate_hv df_hist u_isin_str)
            (fun hv => Ok (<[u_isin_str := hv]> hv_cache))
  else Ok (<[u_isin_str := default_hv]> hv_cache).

Fixpoint hv_entries (df_hist : history_table) (underlyings : list string)
  (hv_cache : gmap string hv_tuple) : result (gmap string hv_tuple) :=
  match underlyings with
  | [] => Ok hv_cache
  | u :: underlyings' =>
      bind (hv_entry df_hist u hv_cache) (hv_entries df_hist underlyings')
  end.

Definition build_hv_cache (df_live : list live_row) (df_hist : history_table)
  : result (gmap string hv_tuple) :=
  match df_hist with
  | [] => Ok ∅
  | _ => hv_entries df_hist (map lr_underlying_isin df_live) ∅
  end.

(** Step 3: spot prices from the live underlying table, last row wins. *)
Definition price_entry (m : gmap string float) (row : underlying_live_row)
  : gmap string float :=
  let isin := strip (ul_isin row) in
  if is_nan_or_empty isin then m else <[isin := ul_real_time_price row]> m.

Definition build_price_map (df_underlying_live : list underlying_live_row)
  : gmap string float :=
  fold_left price_entry df_underlying_live ∅.

(** [typ == label] on the kind cell of a row: an empty cell (NaN) is
    equal to no text. *)
Definition kind_is (typ : option string) (label : string) : bool :=
  match typ with
  | Some s => String.eqb s label
  | None => false
  end.

(** The kind as [implied_volatility], [bs_price] and [calculate_greeks]
    receive it.  They only test it for equality with 'CALL'; an empty cell
    fails that test, as the text 'nan' does. *)
Definition kind_label (typ : option string) : string := default "nan" typ.

Definition int_or_zero (c : cell) : result Z :=
  if cell_notna c then to_int c else Ok 0%Z.

Definition round_if_notna (x : float) (ndigits : nat) : float :=
  if notna x then round x ndigits else nan.

(** Step 4, the body of the [try] for one live row: [Ok None] when the
    row is skipped by [continue], [Raise] when a conversion fails. *)
Definition contract_row (hv_cache : gmap string hv_tuple)
  (underlying_price_map : gmap string float) (r : live_row)
  : result (option chain_row) :=
  let u_isin := strip (lr_underlying_isin r) in
  if is_nan_or_empty u_isin then Ok None
  else
    let S := default (lr_underlying_real_time_price r)
                     (underlying_price_map !! u_isin) in
    if isna S || (S <=? Some 0)%fl then Ok None
    else
      bind (to_float (lr_strike r)) (fun K =>
      bind (to_float (lr_remained_day r)) (fun remained =>
      let T := (remained / Some 365)%fl in
      bind (to_float (lr_real_time_price r)) (fun price =>
      bind (if cell_notna (lr_last r) then to_float (lr_last r) else Ok price)
           (fun last =>
      let typ := lr_type r in
      let isin := strip (if kind_is typ "PUT" then lr_isin_put r
                         else lr_isin_call r) in
      if (T <=? Some 0)%fl || (price <=? Some 0)%fl then Ok None
      else
        let iv := implied_volatility price S K T RISK_FREE_RATE
                    (kind_label typ) in
        let hv_data := default default_hv (hv_cache !! u_isin) in
        let '(hv30, hv90, hv252, hv_sel) := hv_data in
        let sigma := if notna iv then iv else hv_sel in
        let theo := bs_price S K T RISK_FREE_RATE sigma (kind_label typ) in
        let diff_pct := if (Some 0 <? theo)%fl
                        then ((last - theo) / theo)%fl else nan in
        let greeks := calculate_greeks S K T RISK_FREE_RATE sigma
                        (kind_label typ) in
        bind (to_int (lr_remained_day r)) (fun days =>
        bind (int_or_zero (lr_count r)) (fun count =>
        bind (int_or_zero (lr_volume r)) (fun vol =>
        bind (int_or_zero (lr_open_interest r)) (fun oi =>
        bind (to_int (lr_contract_size r)) (fun size =>
        Ok (Some
          {| contract_isin := isin;
             ticker := lr_ticker r;
             name := lr_name r;
             type := typ;
             strike := K;
             days_to_expiry := days;
             begin_date := lr_begin_date r;
             end_date := lr_end_date r;
             market_price := round price 0;
             last_price := round last 0;
             theoretical_price := round theo 2;
             price_diff_pct := round diff_pct 4;
             iv := round_if_notna iv 4;
             row_delta := round (delta greeks) 4;
             row_gamma := round (gamma greeks) 4;
             theta_daily := round (theta greeks) 4;
             vega_per_1pct := round (vega greeks) 4;
             rho_per_1pct := round (rho greeks) 4;
             hv_30d := round_if_notna hv30 4;
             hv_90d := round_if_notna hv90 4;
             hv_252d := round hv252 4;
             hv_selected := round hv_sel 4;
             trade_count := count;
             volume := vol;
             open_interest := oi;
             underlying_price := round S 0;
             underlying_isin := u_isin;
             underlying_name := lr_underlying_ticker r;
             contract_size := size |})))))))))).

(** One pass of the loop: every exception counts the row as skipped. *)
Definition process_contract (hv_cache : gmap string hv_tuple)
  (underlying_price_map : gmap string float) (r : live_row) : option chain_row :=
  try_except (contract_row hv_cache underlying_price_map r) None.

(** Step 5: [sort_values(['days_to_expiry', 'type', 'strike'],
    ascending=[True, False, True])].  Keys are compared in turn: days
    ascending, type label descending in string order with a missing label
    (NaN) after every text, strike ascending with NaN after every number;
    rows that agree on all three keys keep their order. *)
Definition strike_leb (x y : float) : bool :=
  match x, y with
  | _, None => true
  | None, Some _ => false
  | Some a, Some b => if Rle_dec a b then true else false
  end.

(** [x] sorts strictly before [y] in the type column. *)
Definition kind_before (x y : option string) : bool :=
  match x, y with
  | Some u, Some v => String.ltb v u
  | Some _, None => true
  | None, _ => false
  end.

Definition row_leb (a b : chain_row) : bool :=
  if (days_to_expiry a <? days_to_expiry b)%Z then true
  else if (days_to_expiry b <? days_to_expiry a)%Z then false
  else if kind_before (type a) (type b) then true
  else if kind_before (type b) (type a) then false
  else strike_leb (strike a) (strike b).

Fixpoint insert_row (x : chain_row) (l : list chain_row) : list chain_row :=
  match l with
  | [] => [x]
  | y :: l' => if row_leb x y then x :: l else y :: insert_row x l'
  end.

Definition sort_values (rows : list chain_row) : list chain_row :=
  fold_right insert_row [] rows.

Definition read_or_empty {A : Type} (f : option (list A)) : list A :=
  match f with
  | Some rows => rows
  | None => []
  end.

(** [build_chain]: the table returned and the files left behind.  An
    empty list is the empty [DataFrame]. *)
Definition build_chain (fs : filesystem) : result (list chain_row) * filesystem :=
  if negb (should_rebuild fs) then
    match fs_output fs with
    | Some artifact => (Ok artifact, fs)
    | None => (Raise FileNotFoundError, fs)
    end
  else
    match fs_live fs with
    | None => (Ok [], fs)
    | Some live =>
        let df_live := lf_rows live in
        let df_hist := read_or_empty (fs_history fs) in
        let df_underlying_live := read_or_empty (fs_underlying_live fs) in
        match build_hv_cache df_live df_hist with
        | Raise e => (Raise e, fs)
        | Ok hv_cache =>
            let underlying_price_map := build_price_map df_underlying_live in
            let rows := omap (process_contract hv_cache underlying_price_map)
                             df_live in
            match rows with
            | [] => (Ok [], fs)
            | _ =>
                let df := sort_values rows in
                let fs' := FileSystem (fs_live fs) (fs_history fs)
                             (fs_underlying_live fs) (Some df) (fs_hash fs) in
                (Ok df, save_hash fs')
            end
        end
    end.

End ChainCalculator.

(** ** Scripts/chain_calculator.py: the pricing functions on doubles with
    their range

    The same two functions, with the operations of [Double]: what they
    return when an intermediate result leaves the range of doubles.  The
    arguments are Python floats, as [build_chain] passes them. *)

Module ChainCalculatorDouble.

Import Double.

Definition MIN_IV : double := Fin 0.01.

Definition half : double := Fin 0.5.

(** [bs_price]: [sigma**2] may raise, and the [except] branch returns
    [0.0]. *)
Definition bs_price (S K T r sigma : double) (option_type : string) : double :=
  if (T <=? Fin 0)%dbl || (sigma <=? Fin 0)%dbl
     || (S <=? Fin 0)%dbl || (K <=? Fin 0)%dbl
  then Fin 0
  else
    try_except
      (bind (square sigma) (fun sigma2 =>
         let d1 := ((log (S / K) + (r + half * sigma2) * T)
                    / (sigma * sqrt T))%dbl in
         let d2 := (d1 - sigma * sqrt T)%dbl in
         Ok (if String.eqb option_type "CALL"
             then (S * cdf d1 - K * exp (- r * T) * cdf d2)%dbl
             else (K * exp (- r * T) * cdf (- d2) - S * cdf (- d1))%dbl)))
      (Fin 0).

Record greeks : Type := Greeks {
  delta : double; gamma : double; theta : double; vega : double; rho : double
}.

Definition nan_greeks : greeks := Greeks NaN NaN NaN NaN NaN.

(** [calculate_greeks]: [sigma**2] may raise, and the [except] branch
    returns five NaN. *)
Definition calculate_greeks (S K T r sigma : double) (option_type : string)
  : greeks :=
  if (T <=? Fin 0)%dbl || (sigma <=? MIN_IV)%dbl
     || (S <=? Fin 0)%dbl || (K <=? Fin 0)%dbl
  then nan_greeks
  else
    try_except
      (bind (square sigma) (fun sigma2 =>
         let d1 := ((log (S / K) + (r + half * sigma2) * T)
                    / (sigma * sqrt T))%dbl in
         let d2 := (d1 - sigma * sqrt T)%dbl in
         let two := Fin 2 in
         let '(delta, theta, rho) :=
           if String.eqb option_type "CALL"
           then (cdf d1,
                 (- (S * pdf d1 * sigma) / (two * sqrt T)
                  - r * K * exp (- r * T) * cdf d2)%dbl,
                 (K * T * exp (- r * T) * cdf d2)%dbl)
           else ((cdf d1 - Fin 1)%dbl,
                 (- (S * pdf d1 * sigma) / (two * sqrt T)
                  + r * K * exp (- r * T) * cdf (- d2))%dbl,
                 (- K * T * exp (- r * T) * cdf (- d2))%dbl) in
         let gamma := (pdf d1 / (S * sigma * sqrt T))%dbl in
         let vega := (S * pdf d1 * sqrt T)%dbl in
         Ok (Greeks delta gamma (theta / Fin 365)%dbl (vega / Fin 100)%dbl
                    (rho / Fin 100)%dbl)))
      nan_greeks.

End ChainCalculatorDouble.

(** ** Scripts/iv_calculator.py: pricing functions *)

Module IvCalculator.

Definition RISK_FREE_RATE : float := Some 0.36.
Definition MIN_IV : float := Some 1e-6.
Definition MAX_IV : float := Some 5.

Definition half : float := Some 0.5.

Definition bs_price (S K T r sigma : float) (typ : string) : float :=
  if (T <=? Some 0)%fl || (sigma <=? Some 0)%fl
     || (S <=? Some 0)%fl || (K <=? Some 0)%fl
  then Some 0
  else
    let d1 := ((flog (S / K) + (r + half * (sigma * sigma)) * T)
               / (sigma * fsqrt T))%fl in
    let d2 := (d1 - sigma * fsqrt T)%fl in
    if String.eqb typ "CALL"
    then (S * cdf d1 - K * fexp (- r * T) * cdf d2)%fl
    else (K * fexp (- r * T) * cdf (- d2) - S * cdf (- d1))%fl.

Definition root_or_nan (o : Brentq.outcome) : float :=
  match o with
  | Brentq.Converged x => Some x
  | _ => nan
  end.

Definition implied_volatility (price S K T r : float) (typ : string) : float :=
  if (price <=? Some 0)%fl || (T <=? Some 0)%fl
     || (S <=? Some 0)%fl || (K <=? Some 0)%fl
  then nan
  else
    root_or_nan
      (Brentq.brentq
         (fun sigma => (bs_price S K T r (Some sigma) typ - price)%fl)
         Brentq.default_xtol Brentq.default_rtol 1e-6 5 100).


(** *** Files

    [date_int] columns hold the value of [jalali_to_int] on the date
    cell: an integer for an eight-character date, [None] (NaN)
    otherwise.  Text columns hold [str(cell)]. *)

Record live_row : Type := LiveRow {
  lr_strike : cell;
  lr_end_date_int : option Z;
  lr_underlying_isin : string;
  lr_isin_put : string;
  lr_isin_call : string
}.

(** A row of the option history; [ho_source_isin] is [None] for an empty
    cell. *)
Record hist_option_row : Type := HistOptionRow {
  ho_source_isin : option string;
  ho_date : string;
  ho_date_int : option Z;
  ho_last : cell
}.

Record hist_underlying_row : Type := HistUnderlyingRow {
  hu_isin : option string;
  hu_date_int : option Z;
  hu_last : cell
}.

Record iv_record : Type := IvRecord {
  option_isin : string;
  date : string;
  option_price : float;
  underlying_price : float;
  strike : float;
  days_to_expiry : Z;
  type : string;
  rec_implied_volatility : float;
  rec_bs_price : float
}.

Record filesystem : Type := FileSystem {
  fs_live_options : option (list live_row);               (* LIVE_OPTIONS *)
  fs_hist_options : option (list hist_option_row);        (* HIST_OPTIONS *)
  fs_hist_underlying : option (list hist_underlying_row); (* HIST_UNDERLYING *)
  fs_output : option (list iv_record)                     (* OUTPUT_FILE *)
}.

(** [pd.read_excel] on a path that may not exist. *)
Definition read_excel {A : Type} (f : option (list A)) : result (list A) :=
  match f with
  | Some rows => Ok rows
  | None => Raise FileNotFoundError
  end.

(** *** Update check

    [read_excel(..., usecols=['date']).apply(jalali_to_int, axis=1).max()]:
    with [axis=1] each row reaches [jalali_to_int] as a Series, and
    [if pd.isna(s)] on a Series raises [ValueError]; a table without rows
    has no maximum (NaN). *)
Definition max_date_int {A : Type} (rows : list A) : result float :=
  match rows with
  | [] => Ok nan
  | _ :: _ => Raise ValueError
  end.

Definition should_rebuild (fs : filesystem) : bool :=
  match fs_output fs with
  | None => true
  | Some out =>
      match fs_hist_options fs with
      | None => true
      | Some hist =>
          try_except
            (bind (max_date_int hist) (fun current =>
             bind (max_date_int out) (fun saved =>
             Ok (isna saved || (saved <? current)%fl))))
            true
      end
  end.

(** *** Main *)

Record contract_info : Type := ContractInfo {
  ci_strike : float;
  ci_end_int : Z;
  ci_type : string
}.

(** [s not in ['nan', '', '<NA>']]. *)
Definition usable_isin (s : string) : bool :=
  negb (String.eqb s "nan" || String.eqb s EmptyString || String.eqb s "<NA>").

(** Step 3, one live row: both maps after the row (unchanged when the
    strike does not convert or the expiry is NaN). *)
Definition map_live_row
  (maps : gmap string contract_info * gmap string string) (row : live_row)
  : gmap string contract_info * gmap string string :=
  match to_float (lr_strike row), lr_end_date_int row with
  | Ok strike, Some end_int =>
      let u_isin := strip (lr_underlying_isin row) in
      let isin_put := strip (lr_isin_put row) in
      let maps :=
        if usable_isin isin_put
        then (<[isin_put := ContractInfo strike end_int "PUT"]> (fst maps),
              <[isin_put := u_isin]> (snd maps))
        else maps in
      let isin_call := strip (lr_isin_call row) in
      if usable_isin isin_call
      then (<[isin_call := ContractInfo strike end_int "CALL"]> (fst maps),
            <[isin_call := u_isin]> (snd maps))
      else maps
  | _, _ => maps
  end.

Definition build_contract_map (df_live : list live_row)
  : gmap string contract_info * gmap string string :=
  fold_left map_live_row df_live (∅, ∅).

(** Step 4: history rows with an identity and a date, whose stripped
    identity is a key of the contract map. *)
Definition keep_hist_option (contract_map : gmap string contract_info)
  (opt : hist_option_row) : option hist_option_row :=
  match ho_source_isin opt, ho_date_int opt with
  | Some isin, Some _ =>
      let isin := strip isin in
      match contract_map !! isin with
      | Some _ => Some (HistOptionRow (Some isin) (ho_date opt)
                                      (ho_date_int opt) (ho_last opt))
      | None => None
      end
  | _, _ => None
  end.

(** Step 5: the rows of the underlying history stored under the index
    entry [(date_int, isin)]. *)
Definition und_lookup (df_hist_und : list hist_underlying_row)
  (date_int : Z) (u_isin : string) : list hist_underlying_row :=
  filter (fun u =>
            match hu_date_int u, hu_isin u with
            | Some d, Some i => (d =? date_int)%Z && String.eqb (strip i) u_isin
            | _, _ => false
            end) df_hist_und.

(** The [try] block that reads the underlying price: [Ok None] for the
    [continue] on a non-positive price, [Raise] for a missing index entry,
    an ambiguous one, or a price that does not convert. *)
Definition underlying_price_at (df_hist_und : list hist_underlying_row)
  (date_int : Z) (u_isin : string) : result (option float) :=
  match und_lookup df_hist_und date_int u_isin with
  | [] => Raise KeyError
  | [S_row] =>
      bind (if cell_notna (hu_last S_row) then to_float (hu_last S_row)
            else Ok (Some 0))
           (fun S => if (S <=? Some 0)%fl then Ok None else Ok (Some S))
  | _ :: _ :: _ => Raise ValueError
  end.

(** Step 6, the body of the loop for one history row: [Ok None] when the
    row is passed over, [Raise] when the option price does not convert
    (that conversion is outside any [try]). *)
Definition iv_record_of (contract_map : gmap string contract_info)
  (isin_to_underlying : gmap string string)
  (df_hist_und : list hist_underlying_row) (opt : hist_option_row)
  : result (option iv_record) :=
  match ho_source_isin opt, ho_date_int opt with
  | Some isin_opt, Some date_int =>
      match contract_map !! isin_opt with
      | None => Ok None
      | Some info =>
          let end_int := ci_end_int info in
          if (end_int <=? date_int)%Z then Ok None
          else
            let T := (of_Z (end_int - date_int) / Some 365)%fl in
            bind (if cell_notna (ho_last opt) then to_float (ho_last opt)
                  else Ok (Some 0))
                 (fun price =>
            if (price <=? Some 0)%fl then Ok None
            else
              match isin_to_underlying !! isin_opt with
              | None => Ok None
              | Some u_isin =>
                  if String.eqb u_isin EmptyString then Ok None
                  else
                    match try_except
                            (underlying_price_at df_hist_und date_int u_isin)
                            None
                    with
                    | None => Ok None
                    | Some spot =>
                        let S := spot in
                        let iv := implied_volatility price S (ci_strike info) T
                                    RISK_FREE_RATE (ci_type info) in
                        let bs := if notna iv
                                  then bs_price S (ci_strike info) T
                                         RISK_FREE_RATE iv (ci_type info)
                                  else nan in
                        Ok (Some
                          {| option_isin := isin_opt;
                             date := ho_date opt;
                             option_price := round price 2;
                             underlying_price := round S 2;
                             strike := ci_strike info;
                             days_to_expiry := (end_int - date_int)%Z;
                             type := ci_type info;
                             rec_implied_volatility :=
                               if notna iv then round iv 4 else nan;
                             rec_bs_price :=
                               if notna bs then round bs 2 else nan |})
                    end
              end)
      end
  | _, _ => Ok None
  end.

(** The loop: the records in row order, or the first exception. *)
Fixpoint iv_records (contract_map : gmap string contract_info)
  (isin_to_underlying : gmap string string)
  (df_hist_und : list hist_underlying_row) (df_hist_opt : list hist_option_row)
  : result (list iv_record) :=
  match df_hist_opt with
  | [] => Ok []
  | opt :: rest =>
      bind (iv_record_of contract_map isin_to_underlying df_hist_und opt)
           (fun r =>
      bind (iv_records contract_map isin_to_underlying df_hist_und rest)
           (fun rs =>
      Ok (match r with Some rec => rec :: rs | None => rs end)))
  end.

(** [sort_values(['option_isin', 'date'])]. *)
Definition record_leb (a b : iv_record) : bool :=
  if String.ltb (option_isin a) (option_isin b) then true
  else if String.ltb (option_isin b) (option_isin a) then false
  else negb (String.ltb (date b) (date a)).

Fixpoint insert_record (x : iv_record) (l : list iv_record) : list iv_record :=
  match l with
  | [] => [x]
  | y :: l' => if record_leb x y then x :: l else y :: insert_record x l'
  end.

Definition sort_records (records : list iv_record) : list iv_record :=
  fold_right insert_record [] records.

Definition with_output (fs : filesystem) (out : list iv_record) : filesystem :=
  FileSystem (fs_live_options fs) (fs_hist_options fs) (fs_hist_underlying fs)
             (Some out).

(** The build proper, once the update check has asked for it.  The
    progress line computes [idx % step] with [step = total // 10]: with
    fewer than ten retained rows [step] is [0] and the first pass of the
    loop raises [ZeroDivisionError]. *)
Definition rebuild (fs : filesystem) : result (list iv_record) * filesystem :=
  match read_excel (fs_live_options fs) with
  | Raise e => (Raise e, fs)
  | Ok df_live =>
  match read_excel (fs_hist_options fs) with
  | Raise e => (Raise e, fs)
  | Ok df_hist_opt =>
  match read_excel (fs_hist_underlying fs) with
  | Raise e => (Raise e, fs)
  | Ok df_hist_und =>
      let '(contract_map, isin_to_underlying) := build_contract_map df_live in
      let df_hist_opt := omap (keep_hist_option contract_map) df_hist_opt in
      let total := List.length df_hist_opt in
      if (total =? 0)%nat then (Ok [], fs)
      else if (total / 10 =? 0)%nat then (Raise ZeroDivisionError, fs)
      else
        match iv_records contract_map isin_to_underlying df_hist_und
                df_hist_opt with
        | Raise e => (Raise e, fs)
        | Ok [] => (Ok [], with_output fs [])
        | Ok records =>
            let df_out := sort_records records in
            (Ok df_out, with_output fs df_out)
        end
  end end end.

Definition build_iv_history (fs : filesystem)
  : result (list iv_record) * filesystem :=
  if negb (should_rebuild fs) then (read_excel (fs_output fs), fs)
  else rebuild fs.

End IvCalculator.

(** ** server/data_updater.py *)

Module DataUpdater.

(** What the pipeline scripts act on: the wall clock ([time.time()]) and
    the files of the two builders. *)
Record env : Type := Env {
  clock : R;
  chain_files : ChainCalculator.filesystem;
  iv_files : IvCalculator.filesystem
}.

(** What [_load_module] finds at a path. *)
Inductive script : Type :=
| NotFound                                   (* FileNotFoundError *)
| ImportFails                                (* ImportError *)
| NoMain                                     (* loads, has no [main] *)
| Main (main : env -> result unit * env).

Record updater : Type := Updater {
  interval : Z;
  running : bool;
  last_run_start : R;
  last_update : option string;
  status : string;
  _next_run_time : R;
  steps : list (string * string)
}.

(** [__init__]. *)
Definition init (interval : Z) : updater :=
  Updater interval false 0 None "Idle" 0
    [ ("data_fetcher", "Scripts/data_fetcher.py");
      ("date_processor", "Scripts/date_processor.py");
      ("chain_calculator", "Scripts/chain_calculator.py");
      ("iv_calculator", "Scripts/iv_calculator.py") ].

(** [str(n)] for a count. *)
Definition str_of_nat (n : nat) : string :=
  NilEmpty.string_of_uint (Nat.to_uint n).

Section Pipeline.

(** [datetime.now().strftime(...)] as a function of the clock, and the
    scripts found on disk, by relative path. *)
Variable strftime : R -> string.
Variable scripts : string -> script.

(** [_run_step]: success of the step and the environment it leaves.  Every
    [Exception] is caught. *)
Definition _run_step (name path : string) (e : env) : bool * env :=
  match scripts path with
  | NotFound => (false, e)
  | ImportFails => (false, e)
  | NoMain => (true, e)
  | Main main =>
      match main e with
      | (Ok _, e') => (true, e')
      | (Raise _, e') => (false, e')
      end
  end.

(** The [for] loop of [_run_pipeline]: the count of successes, the
    environment after the last step, and the log of the steps run, each
    with its outcome. *)
Fixpoint run_steps (steps : list (string * string)) (success_count : nat)
  (e : env) : nat * env * list (string * bool) :=
  match steps with
  | [] => (success_count, e, [])
  | (name, path) :: steps' =>
      let '(ok, e') := _run_step name path e in
      let success_count := if ok then S success_count else success_count in
      let '(n, e'', log) := run_steps steps' success_count e' in
      (n, e'', (name, ok) :: log)
  end.

Definition final_status (success_count total : nat) : string :=
  if (success_count =? total)%nat
  then "Success (" ++ str_of_nat success_count ++ "/" ++ str_of_nat total ++ ")"
  else "Failed (" ++ str_of_nat success_count ++ "/" ++ str_of_nat total ++ ")".

Definition _run_pipeline (self : updater) (e : env)
  : updater * env * list (string * bool) :=
  let start_time := clock e in
  let self := Updater (interval self) (running self) start_time
                (last_update self) "Running..." (_next_run_time self)
                (steps self) in
  let total := List.length (steps self) in
  let '(success_count, e', log) := run_steps (steps self) 0 e in
  let end_time := clock e' in
  let now := strftime (clock e') in
  (Updater (interval self) (running self) (last_run_start self) (Some now)
     (final_status success_count total) (end_time + IZR (interval self))
     (steps self),
   e', log).

(** [start]: a no-op when already running, else the first run is due at
    once. *)
Definition start (self : updater) (e : env) : updater :=
  if running self then self
  else Updater (interval self) true (last_run_start self) (last_update self)
         (status self) (clock e) (steps self).

(** [stop]. *)
Definition stop (self : updater) : updater :=
  if negb (running self) then self
  else Updater (interval self) false (last_run_start self) (last_update self)
         (status self) (_next_run_time self) (steps self).

(** One turn of the [while] loop of [_updater_loop]: a pipeline run when
    it is due, a sleep otherwise. *)
Definition _updater_loop_turn (self : updater) (e : env)
  : updater * env * list (string * bool) :=
  let current_time := clock e in
  if Rle_dec (_next_run_time self) current_time
  then
    let '(self', e', log) := _run_pipeline self e in
    (Updater (interval self') (running self') (last_run_start self')
       (last_update self') (status self') (clock e' + IZR (interval self'))
       (steps self'),
     e', log)
  else
    let sleep_time := Rmax 1 (_next_run_time self - current_time) in
    (self, Env (clock e + sleep_time) (chain_files e) (iv_files e), []).

End Pipeline.

(** The dictionary returned by [get_status]. *)
Record status_report : Type := StatusReport {
  report_status : string;
  report_last_update : string;
  next_update_in_seconds : Z;
  interval_seconds : Z
}.

(** [get_status], called when the clock reads [clock e].  [x or "Never"]
    yields "Never" for [None] and for the empty string. *)
Definition get_status (self : updater) (e : env) : status_report :=
  let now := clock e in
  let next_in :=
    if Rlt_dec 0 (_next_run_time self)
    then Z.max 0 (trunc (_next_run_time self - now))
    else interval self in
  StatusReport (status self)
    (match last_update self with
     | Some s => if String.eqb s EmptyString then "Never" else s
     | None => "Never"
     end)
    next_in (interval self).

(** [main()] of the two builder scripts: the table returned is dropped,
    an exception propagates. *)
Definition chain_calculator_main (e : env) : result unit * env :=
  let '(r, fs) := ChainCalculator.build_chain (chain_files e) in
  (bind r (fun _ => Ok tt), Env (clock e) fs (iv_files e)).

Definition iv_calculator_main (e : env) : result unit * env :=
  let '(r, fs) := IvCalculator.build_iv_history (iv_files e) in
  (bind r (fun _ => Ok tt), Env (clock e) (chain_files e) fs).

(** The scripts of the repository; the two fetch/normalise scripts are
    external and left open. *)
Definition repository_scripts (data_fetcher date_processor : script)
  (path : string) : script :=
  if String.eqb path "Scripts/data_fetcher.py" then data_fetcher
  else if String.eqb path "Scripts/date_processor.py" then date_processor
  else if String.eqb path "Scripts/chain_calculator.py"
  then Main chain_calculator_main
  else if String.eqb path "Scripts/iv_calculator.py"
  then Main iv_calculator_main
  else NotFound.

End DataUpdater.

(* ================================================================== *)
(** * Properties *)
(* ================================================================== *)

(** ** Helper facts on floats *)

Lemma fle_nonpos (v : R) : v <= 0 -> fle (Some v) (Some 0) = true.
Proof. intros H. unfold fle. destruct (Rle_dec v 0); [reflexivity | lra]. Qed.

Lemma fle_pos (v : R) : 0 < v -> fle (Some v) (Some 0) = false.
Proof. intros H. unfold fle. destruct (Rle_dec v 0); [lra | reflexivity]. Qed.

Lemma fle_true (a b : R) : a <= b -> fle (Some a) (Some b) = true.
Proof. intros H. unfold fle. destruct (Rle_dec a b); [reflexivity | lra]. Qed.

Lemma fle_false (a b : R) : b < a -> fle (Some a) (Some b) = false.
Proof. intros H. unfold fle. destruct (Rle_dec a b); [lra | reflexivity]. Qed.

Lemma fdiv_Some (a b : R) : b <> 0 -> fdiv (Some a) (Some b) = Some (a / b).
Proof. intros H. unfold fdiv. destruct (Req_dec_T b 0); [contradiction | reflexivity]. Qed.

Lemma flog_Some (a : R) : 0 < a -> flog (Some a) = Some (ln a).
Proof. intros H. unfold flog. destruct (Rlt_dec 0 a); [reflexivity | contradiction]. Qed.

Lemma fsqrt_Some (a : R) : 0 <= a -> fsqrt (Some a) = Some (sqrt a).
Proof. intros H. unfold fsqrt. destruct (Rle_dec 0 a); [reflexivity | contradiction]. Qed.

(** A float that is a real number at most zero. *)
Definition non_positive (x : float) : Prop := exists v, x = Some v /\ v <= 0.

Lemma non_positive_fle x : non_positive x -> fle x (Some 0) = true.
Proof. intros (v & -> & Hv). now apply fle_nonpos. Qed.

(** ** The iterates of the root finder never leave the bracket *)

Module BrentqBracket.

Import Brentq.

Lemma Rltb_true x y : Rltb x y = true <-> x < y.
Proof. unfold Rltb. destruct (Rlt_dec x y); split; intros; (lra || congruence). Qed.

Lemma Rltb_false x y : Rltb x y = false <-> y <= x.
Proof. unfold Rltb. destruct (Rlt_dec x y); split; intros; (lra || congruence). Qed.

Lemma Reqb_true x y : Reqb x y = true <-> x = y.
Proof. unfold Reqb. destruct (Req_dec_T x y); split; intros; (lra || congruence). Qed.

Lemma Reqb_false x y : Reqb x y = false <-> x <> y.
Proof. unfold Reqb. destruct (Req_dec_T x y); split; intros; (lra || congruence). Qed.

Lemma signbit_differ x y : x * y < 0 -> Bool.eqb (signbit x) (signbit y) = false.
Proof.
  intros H. unfold signbit.
  destruct (Rlt_dec x 0), (Rlt_dec y 0); simpl; try reflexivity; nra.
Qed.

Lemma signbit_agree x y : 0 < x * y -> Bool.eqb (signbit x) (signbit y) = true.
Proof.
  intros H. unfold signbit.
  destruct (Rlt_dec x 0), (Rlt_dec y 0); simpl; try reflexivity; nra.
Qed.

Lemma signbit_differ_inv x y :
  x <> 0 -> y <> 0 -> Bool.eqb (signbit x) (signbit y) = false -> x * y < 0.
Proof.
  unfold signbit. intros Hx Hy.
  destruct (Rlt_dec x 0), (Rlt_dec y 0); simpl; intros H; try discriminate; nra.
Qed.

(** The secant step from [xc] points towards the other end of the bracket. *)
Lemma secant_direction (xc xp fc fp : R) :
  fc * fp < 0 -> xp <> xc ->
  0 < (- fc * (xc - xp) / (fc - fp)) * (xp - xc).
Proof.
  intros Hs Hx.
  assert (Hd : fc - fp <> 0) by nra.
  replace (- fc * (xc - xp) / (fc - fp) * (xp - xc))
    with (fc / (fc - fp) * ((xp - xc) * (xp - xc))) by (field; exact Hd).
  apply Rmult_lt_0_compat; [| nra].
  destruct (Rlt_dec 0 fc) as [Hc | Hc].
  - apply Rdiv_lt_0_compat; nra.
  - replace (fc / (fc - fp)) with ((- fc) / (fp - fc)) by (field; lra).
    apply Rdiv_lt_0_compat; nra.
Qed.

(** So does the inverse quadratic step, when the previous iterate lies on
    the far side of [xc] and has the larger residual of the same sign. *)
Lemma extrapolation_direction (xc xp xb fc fp fb : R) :
  fb * fc < 0 -> 0 < fp * fc -> Rabs fc < Rabs fp ->
  (xp - xc) * (xb - xc) < 0 ->
  let dpre := (fp - fc) / (xp - xc) in
  let dblk := (fb - fc) / (xb - xc) in
  0 < (- fc * (fb * dblk - fp * dpre) / (dblk * dpre * (fb - fp))) * (xb - xc).
Proof.
  intros Hbc Hpc Habs Hx dpre dblk. subst dpre dblk.
  assert (Hu : xp - xc <> 0) by nra.
  assert (Hv : xb - xc <> 0) by nra.
  assert (Hfc : fc <> 0) by nra.
  assert (Hpc' : fp - fc <> 0).
  { intros E. assert (fp = fc) by lra. subst fp. lra. }
  assert (Hbc' : fb - fc <> 0) by nra.
  assert (Hbp : fb - fp <> 0) by nra.
  set (u := xp - xc) in *. set (v := xb - xc) in *.
  replace (- fc * (fb * ((fb - fc) / v) - fp * ((fp - fc) / u))
           / ((fb - fc) / v * ((fp - fc) / u) * (fb - fp)) * v)
    with ((- fc * (fb * (fb - fc) * (u * v) - fp * (fp - fc) * (v * v)))
          / ((fb - fc) * (fp - fc) * (fb - fp)))
    by (field; repeat split; assumption).
  assert (Hvv : 0 < v * v) by nra.
  destruct (Rlt_dec 0 fc) as [Hc | Hc].
  - assert (fb < 0) by nra. assert (0 < fp) by nra.
    assert (fc < fp).
    { rewrite (Rabs_pos_eq fc), (Rabs_pos_eq fp) in Habs; lra. }
    assert (0 < fb * (fb - fc)) by nra.
    assert (0 < fp * (fp - fc)) by nra.
    assert (T1 : fb * (fb - fc) * (u * v) < 0) by nra.
    assert (T2 : 0 < fp * (fp - fc) * (v * v)) by nra.
    apply Rdiv_lt_0_compat; [nra |].
    assert (0 < (fb - fc) * (fb - fp)) by nra. nra.
  - assert (Hc' : fc < 0) by lra.
    assert (0 < fb) by nra. assert (fp < 0) by nra.
    assert (fp < fc).
    { rewrite (Rabs_left fc), (Rabs_left fp) in Habs; lra. }
    assert (0 < fb * (fb - fc)) by nra.
    assert (0 < fp * (fp - fc)) by nra.
    assert (T1 : fb * (fb - fc) * (u * v) < 0) by nra.
    assert (T2 : 0 < fp * (fp - fc) * (v * v)) by nra.
    replace ((- fc * (fb * (fb - fc) * (u * v) - fp * (fp - fc) * (v * v)))
             / ((fb - fc) * (fp - fc) * (fb - fp)))
      with ((fc * (fb * (fb - fc) * (u * v) - fp * (fp - fc) * (v * v)))
            / ((fb - fc) * (fc - fp) * (fb - fp)))
      by (field; repeat split; lra).
    apply Rdiv_lt_0_compat; [nra |].
    assert (0 < (fb - fc) * (fb - fp)) by nra. nra.
Qed.

Section Bracket.

Variable f : R -> float.
Variables xtol rtol lo hi : R.
Hypothesis xtol_pos : 0 < xtol.
Hypothesis rtol_nonneg : 0 <= rtol.

Definition within (x : R) : Prop := lo <= x <= hi.

(** What holds at the top of the loop: the previous residual is not zero,
    and either the last two iterates straddle the root, or the current one
    is a root, or the current one lies strictly between the previous one
    and the far end [xblk] of the bracket. *)
Definition loop_inv (s : state) : Prop :=
  fpre s <> 0 /\ within (xpre s) /\ within (xcur s) /\
  (fpre s * fcur s < 0 \/ fcur s = 0 \/
   (0 < fpre s * fcur s /\ fblk s * fpre s < 0 /\ within (xblk s) /\
    (xpre s - xcur s) * (xblk s - xcur s) < 0)).

(** What holds once the bracket has been re-established and ordered. *)
Definition mid_inv (s : state) : Prop :=
  within (xcur s) /\
  (fcur s = 0 \/
   (within (xblk s) /\
    ((xpre s = xblk s /\ fpre s = fblk s /\ fcur s * fblk s < 0) \/
     (xpre s <> xblk s /\ 0 < fpre s * fcur s /\ fblk s * fcur s < 0 /\
      (xpre s - xcur s) * (xblk s - xcur s) < 0)))).

Lemma delta_pos s : 0 < delta_of xtol rtol s.
Proof.
  unfold delta_of. pose proof (Rabs_pos (xcur s)).
  assert (0 <= rtol * Rabs (xcur s)) by (apply Rmult_le_pos; assumption).
  lra.
Qed.

Lemma rebracket_swap_mid s : loop_inv s -> mid_inv (swap (rebracket s)).
Proof.
  intros (Hfp & Hxp & Hxc & [HA | [HB | (HC1 & HC2 & HC3 & HC4)]]).
  - (* the iterates straddle the root *)
    assert (Hfc : fcur s <> 0) by nra.
    unfold rebracket.
    apply Reqb_false in Hfp as ->. apply Reqb_false in Hfc as ->.
    rewrite (signbit_differ _ _ HA). simpl.
    unfold swap, mid_inv; simpl.
    destruct (Rltb (Rabs (fpre s)) (Rabs (fcur s))); simpl.
    + split; [exact Hxp | right; split; [exact Hxc |]].
      left. repeat split; lra.
    + split; [exact Hxc | right; split; [exact Hxp |]].
      left. repeat split; lra.
  - (* the current iterate is a root *)
    unfold rebracket. apply Reqb_true in HB as HB'. rewrite HB'.
    rewrite andb_false_r. simpl.
    unfold swap. rewrite HB, Rabs_R0.
    assert (Hn : Rltb (Rabs (fblk s)) 0 = false).
    { apply Rltb_false, Rabs_pos. }
    rewrite Hn. unfold mid_inv. split; [exact Hxc | left; exact HB].
  - (* same sign: the old bracket end is kept *)
    unfold rebracket. rewrite (signbit_agree _ _ HC1).
    rewrite andb_false_r.
    assert (Hbc : fblk s * fcur s < 0) by nra.
    unfold swap, mid_inv.
    destruct (Rltb (Rabs (fblk s)) (Rabs (fcur s))); simpl.
    + split; [exact HC3 | right; split; [exact Hxc |]].
      left. repeat split; lra.
    + split; [exact Hxc | right; split; [exact HC3 |]].
      right. split; [| repeat split; assumption].
      intros E. rewrite E in HC4.
      pose proof (Rle_0_sqr (xblk s - xcur s)) as Hsq. unfold Rsqr in Hsq. lra.
Qed.

(** The step that is taken has the sign of the bisection step and is
    shorter than the bracket. *)
Lemma choose_step_shape s :
  mid_inv s -> fcur s <> 0 -> xblk s <> xcur s ->
  let sc := snd (choose_step xtol rtol s) in
  sc = sbis_of s \/
  (0 < sc * (xblk s - xcur s) /\
   2 * Rabs sc < 3 * Rabs (sbis_of s) - delta_of xtol rtol s).
Proof.
  intros (Hxc & [H0 | (Hxb & HM)]) Hfc Hne; [contradiction |].
  unfold choose_step. simpl.
  destruct (Rltb (delta_of xtol rtol s) (Rabs (spre s))); simpl; [| now left].
  destruct (Rltb (Rabs (fcur s)) (Rabs (fpre s))) eqn:Hres; simpl; [| now left].
  destruct (Rltb (2 * Rabs (trial_step s)) _) eqn:Hacc; simpl; [| now left].
  right. apply Rltb_true in Hacc. apply Rltb_true in Hres.
  split.
  - unfold trial_step.
    destruct HM as [(Ex & Ef & Hs) | (Nx & Hs1 & Hs2 & Hord)].
    + apply Reqb_true in Ex as Ex'. rewrite Ex'.
      rewrite Ex. apply secant_direction; [rewrite Ef; exact Hs | exact Hne].
    + apply Reqb_false in Nx as ->.
      apply extrapolation_direction; assumption.
  - eapply Rlt_le_trans; [exact Hacc | apply Rmin_r].
Qed.

Lemma advance_between s :
  mid_inv s -> fcur s <> 0 ->
  delta_of xtol rtol s <= Rabs (sbis_of s) ->
  (xcur s - advance xtol rtol s) * (xblk s - advance xtol rtol s) < 0.
Proof.
  intros Hm Hfc Hbig.
  pose proof (delta_pos s) as Hd.
  assert (Hne : xblk s <> xcur s).
  { intros E. unfold sbis_of in Hbig. rewrite E in Hbig.
    replace ((xcur s - xcur s) / 2) with 0 in Hbig by lra.
    rewrite Rabs_R0 in Hbig. lra. }
  pose proof (choose_step_shape s Hm Hfc Hne) as Hshape. simpl in Hshape.
  unfold advance.
  set (sc := snd (choose_step xtol rtol s)) in *.
  set (d := delta_of xtol rtol s) in *.
  unfold sbis_of in *.
  set (w := xblk s - xcur s) in *.
  replace (xblk s) with (xcur s + w) by (unfold w; lra).
  assert (Hw : w <> 0) by (unfold w; lra).
  destruct (Rltb d (Rabs sc)) eqn:Hlong.
  - apply Rltb_true in Hlong.
    destruct Hshape as [-> | (Hdir & Hlen)].
    + nra.
    + destruct (Rlt_dec 0 w) as [Hp | Hp].
      * assert (0 < sc) by nra.
        rewrite (Rabs_pos_eq sc) in Hlen by lra.
        rewrite (Rabs_pos_eq (w / 2)) in Hlen by lra. nra.
      * assert (sc < 0) by nra.
        rewrite (Rabs_left sc) in Hlen by lra.
        rewrite (Rabs_left (w / 2)) in Hlen by lra. nra.
  - destruct (Rltb 0 (w / 2)) eqn:Hsgn.
    + apply Rltb_true in Hsgn.
      rewrite (Rabs_pos_eq (w / 2)) in Hbig by lra. nra.
    + apply Rltb_false in Hsgn.
      assert (w < 0) by lra.
      rewrite (Rabs_left (w / 2)) in Hbig by lra. nra.
Qed.

Lemma iteration_inv s :
  loop_inv s ->
  match iteration f xtol rtol s with
  | Continue s' => loop_inv s'
  | Stop (Converged x) => within x
  | Stop _ => True
  end.
Proof.
  intros Hinv. apply rebracket_swap_mid in Hinv.
  unfold iteration. set (m := swap (rebracket s)) in *.
  destruct (Reqb (fcur m) 0) eqn:Hz; simpl.
  { apply Hinv. }
  destruct (Rltb (Rabs (sbis_of m)) (delta_of xtol rtol m)) eqn:Hconv.
  { apply Hinv. }
  apply Reqb_false in Hz. apply Rltb_false in Hconv.
  pose proof (advance_between m Hinv Hz Hconv) as Hbetw.
  destruct Hinv as (Hxc & [H0 | (Hxb & HM)]); [contradiction |].
  assert (Hbc : fblk m * fcur m < 0).
  { destruct HM as [(_ & _ & H) | (_ & _ & H & _)]; lra. }
  set (x' := advance xtol rtol m) in *.
  assert (Hx' : within x').
  { unfold within in *. nra. }
  destruct (f x') as [fx' |]; [| exact I].
  unfold loop_inv; simpl.
  split; [exact Hz | split; [exact Hxc | split; [exact Hx' |]]].
  destruct (Rtotal_order (fcur m * fx') 0) as [Hn | [He | Hp]].
  - left; exact Hn.
  - right; left. nra.
  - right; right. repeat split; try assumption; try apply Hxb; nra.
Qed.

Lemma iterate_within iter : forall s x,
  loop_inv s -> iterate f xtol rtol iter s = Converged x -> within x.
Proof.
  induction iter as [| iter IH]; intros s x Hinv Hrun; simpl in Hrun.
  - discriminate.
  - pose proof (iteration_inv s Hinv) as Hstep.
    destruct (iteration f xtol rtol s) as [s' | o].
    + eapply IH; eassumption.
    + subst o. exact Hstep.
Qed.

End Bracket.

(** Every root returned by [brentq] lies between the two end points. *)
Lemma brentq_within (f : R -> float) (xtol rtol a b : R) (maxiter : nat) (x : R) :
  a <= b -> brentq f xtol rtol a b maxiter = Converged x -> a <= x <= b.
Proof.
  intros Hab. unfold brentq.
  destruct (Rle_dec xtol 0) as [| Hxtol]; [discriminate |].
  destruct (Rlt_dec rtol (default_rtol / 4)) as [| Hrtol]; [discriminate |].
  destruct (f a) as [fa |]; [| discriminate].
  destruct (f b) as [fb |]; [| discriminate].
  destruct (Reqb fa 0) eqn:Ha; [intros [= <-]; lra |].
  destruct (Reqb fb 0) eqn:Hb; [intros [= <-]; lra |].
  destruct (Bool.eqb (signbit fa) (signbit fb)) eqn:Hs; [discriminate |].
  apply Reqb_false in Ha. apply Reqb_false in Hb.
  intros Hrun.
  assert (Hr : 0 <= rtol).
  { unfold default_rtol in Hrtol.
    assert (0 < 4 / 2 ^ 52 / 4) by (apply Rdiv_lt_0_compat; [apply Rdiv_lt_0_compat; [lra | apply pow_lt; lra] | lra]).
    lra. }
  apply (iterate_within f xtol rtol a b ltac:(lra) Hr maxiter _ _) in Hrun;
    [exact Hrun |].
  unfold loop_inv, within; simpl.
  repeat split; try lra. left. apply signbit_differ_inv; assumption.
Qed.

End BrentqBracket.

(** ** Degenerate inputs *)

(** C3.  Whenever one of S, K, T, sigma is non-positive, [bs_price] (both
    copies) returns exactly 0 and [calculate_greeks] returns NaN in all
    five fields; whenever one of S, K, T is non-positive,
    [implied_volatility] (both copies) returns NaN.  None of them raises:
    each is a total function whose value is given here. *)
Theorem C3_degenerate_inputs
  (price S K T r sigma : float) (option_type : string) :
  (non_positive S \/ non_positive K \/ non_positive T \/ non_positive sigma ->
   ChainCalculator.bs_price S K T r sigma option_type = Some 0 /\
   IvCalculator.bs_price S K T r sigma option_type = Some 0 /\
   ChainCalculator.calculate_greeks S K T r sigma option_type
     = ChainCalculator.nan_greeks) /\
  (non_positive S \/ non_positive K \/ non_positive T ->
   ChainCalculator.implied_volatility price S K T r option_type = nan /\
   IvCalculator.implied_volatility price S K T r option_type = nan).
Proof.
  split.
  - intros H.
    assert (Hg : (T <=? Some 0)%fl || (sigma <=? Some 0)%fl
                 || (S <=? Some 0)%fl || (K <=? Some 0)%fl = true).
    { destruct H as [H | [H | [H | H]]]; apply non_positive_fle in H;
        rewrite H; repeat rewrite orb_true_r; reflexivity. }
    assert (Hg' : (T <=? Some 0)%fl || (sigma <=? ChainCalculator.MIN_IV)%fl
                  || (S <=? Some 0)%fl || (K <=? Some 0)%fl = true).
    { destruct H as [H | [H | [H | H]]].
      - apply non_positive_fle in H.
        rewrite H; repeat rewrite orb_true_r; reflexivity.
      - apply non_positive_fle in H.
        rewrite H; repeat rewrite orb_true_r; reflexivity.
      - apply non_positive_fle in H.
        rewrite H; repeat rewrite orb_true_r; reflexivity.
      - destruct H as (v & -> & Hv). unfold ChainCalculator.MIN_IV.
        rewrite (fle_true v 0.01) by lra.
        repeat rewrite orb_true_r; reflexivity. }
    unfold ChainCalculator.bs_price, IvCalculator.bs_price,
      ChainCalculator.calculate_greeks.
    rewrite Hg, Hg'. repeat split; reflexivity.
  - intros H.
    assert (Hg : (price <=? Some 0)%fl || (T <=? Some 0)%fl
                 || (S <=? Some 0)%fl || (K <=? Some 0)%fl = true).
    { destruct H as [H | [H | H]]; apply non_positive_fle in H;
        rewrite H; repeat rewrite orb_true_r; reflexivity. }
    unfold ChainCalculator.implied_volatility, IvCalculator.implied_volatility.
    rewrite Hg. split; reflexivity.
Qed.

Lemma C3_degenerate_inputs_witness :
  (ChainCalculator.bs_price (Some 0) (Some 100) (Some 1) (Some 0.36) (Some 0.5) "CALL" = Some 0 /\
   IvCalculator.bs_price (Some 0) (Some 100) (Some 1) (Some 0.36) (Some 0.5) "CALL" = Some 0 /\
   ChainCalculator.calculate_greeks (Some 0) (Some 100) (Some 1) (Some 0.36) (Some 0.5) "CALL"
     = ChainCalculator.nan_greeks) /\
  (ChainCalculator.implied_volatility (Some 50) (Some 0) (Some 100) (Some 1) (Some 0.36) "CALL" = nan /\
   IvCalculator.implied_volatility (Some 50) (Some 0) (Some 100) (Some 1) (Some 0.36) "CALL" = nan).
Proof.
  assert (H0 : non_positive (Some 0)) by (exists 0; split; [reflexivity | lra]).
  split.
  - apply (C3_degenerate_inputs (Some 50) (Some 0) (Some 100) (Some 1)
             (Some 0.36) (Some 0.5) "CALL").
    left; exact H0.
  - apply (C3_degenerate_inputs (Some 50) (Some 0) (Some 100) (Some 1)
             (Some 0.36) (Some 0.5) "CALL").
    left; exact H0.
Defined.

(** ** Greeks *)

(** Reference formulas of the Black-Scholes sensitivities over the reals,
    per unit of time (a year), volatility and rate: the quantities the
    reported Greeks are scaled from. *)
Module BlackScholes.

Definition d1 (S K T r sigma : R) : R :=
  (ln (S / K) + (r + sigma * sigma / 2) * T) / (sigma * sqrt T).

Definition d2 (S K T r sigma : R) : R :=
  d1 S K T r sigma - sigma * sqrt T.

Definition is_call (option_type : string) : bool := String.eqb option_type "CALL".

Definition delta (S K T r sigma : R) (option_type : string) : R :=
  if is_call option_type then cdf_R (d1 S K T r sigma)
  else cdf_R (d1 S K T r sigma) - 1.

Definition gamma (S K T r sigma : R) : R :=
  pdf_R (d1 S K T r sigma) / (S * sigma * sqrt T).

(** Theta per year. *)
Definition theta_annual (S K T r sigma : R) (option_type : string) : R :=
  if is_call option_type
  then - (S * pdf_R (d1 S K T r sigma) * sigma) / (2 * sqrt T)
       - r * K * exp (- r * T) * cdf_R (d2 S K T r sigma)
  else - (S * pdf_R (d1 S K T r sigma) * sigma) / (2 * sqrt T)
       + r * K * exp (- r * T) * cdf_R (- d2 S K T r sigma).

(** Vega per unit of volatility. *)
Definition vega_unit (S K T r sigma : R) : R :=
  S * pdf_R (d1 S K T r sigma) * sqrt T.

(** Rho per unit of rate. *)
Definition rho_unit (S K T r sigma : R) (option_type : string) : R :=
  if is_call option_type
  then K * T * exp (- r * T) * cdf_R (d2 S K T r sigma)
  else - K * T * exp (- r * T) * cdf_R (- d2 S K T r sigma).

End BlackScholes.

(** All five Greeks are numbers. *)
Definition greeks_defined (g : ChainCalculator.greeks) : Prop :=
  notna (ChainCalculator.delta g) = true /\
  notna (ChainCalculator.gamma g) = true /\
  notna (ChainCalculator.theta g) = true /\
  notna (ChainCalculator.vega g) = true /\
  notna (ChainCalculator.rho g) = true.

(** The guard of [calculate_greeks]. *)
Definition greeks_guard (S K T sigma : float) : bool :=
  (T <=? Some 0)%fl || (sigma <=? ChainCalculator.MIN_IV)%fl
  || (S <=? Some 0)%fl || (K <=? Some 0)%fl.

Lemma greeks_guard_false_reals (S K T sigma : R) :
  greeks_guard (Some S) (Some K) (Some T) (Some sigma) = false ->
  0 < T /\ 0.01 < sigma /\ 0 < S /\ 0 < K.
Proof.
  unfold greeks_guard, ChainCalculator.MIN_IV, fle.
  destruct (Rle_dec T 0), (Rle_dec sigma 0.01), (Rle_dec S 0), (Rle_dec K 0);
    simpl; intros H; try discriminate.
  repeat split; lra.
Qed.

(** On real inputs that pass the guard, the code computes the reference
    values, with theta divided by 365 and vega and rho divided by 100. *)
Lemma calculate_greeks_reals (S K T r sigma : R) (option_type : string) :
  0 < T -> 0.01 < sigma -> 0 < S -> 0 < K ->
  ChainCalculator.calculate_greeks (Some S) (Some K) (Some T) (Some r)
    (Some sigma) option_type
  = ChainCalculator.Greeks
      (Some (BlackScholes.delta S K T r sigma option_type))
      (Some (BlackScholes.gamma S K T r sigma))
      (Some (BlackScholes.theta_annual S K T r sigma option_type / 365))
      (Some (BlackScholes.vega_unit S K T r sigma / 100))
      (Some (BlackScholes.rho_unit S K T r sigma option_type / 100)).
Proof.
  intros HT Hsig HS HK.
  assert (HsT : 0 < sqrt T) by (apply sqrt_lt_R0; exact HT).
  assert (Hden : sigma * sqrt T <> 0) by nra.
  assert (Hden2 : 2 * sqrt T <> 0) by lra.
  assert (Hden3 : S * sigma * sqrt T <> 0).
  { apply Rgt_not_eq. apply Rmult_lt_0_compat; [nra | exact HsT]. }
  assert (HSK : 0 < S / K) by (apply Rdiv_lt_0_compat; assumption).
  unfold ChainCalculator.calculate_greeks, ChainCalculator.MIN_IV,
    ChainCalculator.half.
  rewrite (fle_pos T HT), (fle_false sigma 0.01 Hsig), (fle_pos S HS),
    (fle_pos K HK). cbn [orb].
  rewrite (fdiv_Some S K) by lra.
  rewrite (flog_Some _ HSK), (fsqrt_Some T) by lra.
  cbn [fadd fsub fmul fneg lift1 lift2 cdf pdf fexp].
  rewrite (fdiv_Some _ _ Hden).
  cbn [fadd fsub fmul fneg lift1 lift2 cdf pdf fexp].
  assert (Ed1 : (ln (S / K) + (r + 0.5 * (sigma * sigma)) * T) / (sigma * sqrt T)
                = BlackScholes.d1 S K T r sigma).
  { unfold BlackScholes.d1. f_equal. lra. }
  rewrite Ed1.
  assert (Ed2 : BlackScholes.d1 S K T r sigma - sigma * sqrt T
                = BlackScholes.d2 S K T r sigma) by reflexivity.
  rewrite Ed2.
  unfold BlackScholes.delta, BlackScholes.gamma, BlackScholes.theta_annual,
    BlackScholes.vega_unit, BlackScholes.rho_unit, BlackScholes.is_call.
  destruct (String.eqb option_type "CALL");
    cbn [fadd fsub fmul fneg lift1 lift2 cdf pdf fexp];
    rewrite ?(fdiv_Some _ _ Hden2), ?(fdiv_Some _ _ Hden3);
    cbn [fadd fsub fmul fneg lift1 lift2 cdf pdf fexp];
    rewrite !fdiv_Some by lra; reflexivity.
Qed.

(** A NaN among the numeric inputs makes every field NaN. *)
Lemma calculate_greeks_nan_input (S K T r sigma : float) (option_type : string) :
  S = nan \/ K = nan \/ T = nan \/ r = nan \/ sigma = nan ->
  ChainCalculator.calculate_greeks S K T r sigma option_type
  = ChainCalculator.nan_greeks.
Proof.
  intros H. unfold ChainCalculator.calculate_greeks.
  destruct (_ || _ || _ || _); [reflexivity |].
  destruct S as [s |], K as [k |], T as [t |], r as [r' |], sigma as [sg |];
    try (exfalso; destruct H as [H | [H | [H | [H | H]]]]; discriminate H);
    unfold ChainCalculator.half, fdiv, flog, fsqrt; simpl;
    repeat (match goal with
            | |- context [match ?d with left _ => _ | right _ => _ end] =>
                destruct d; simpl
            end);
    destruct (String.eqb option_type "CALL"); reflexivity.
Qed.

(** C4 (in exact arithmetic: doubles read as real numbers, so that no
    intermediate result overflows or underflows).  [calculate_greeks]
    returns either five numbers or five NaN, never a mixture; it returns
    five NaN whenever T <= 0, sigma <= MIN_IV, S <= 0 or K <= 0, and five
    numbers, the reference values, when none of these holds and every
    input is a number; and when the result is defined, the inputs are
    real numbers, theta is the annual theta divided by 365, and vega and
    rho are the per-unit values divided by 100. *)
Theorem C4_greeks_all_or_nothing
  (S K T r sigma : float) (option_type : string) :
  let g := ChainCalculator.calculate_greeks S K T r sigma option_type in
  (greeks_defined g \/ g = ChainCalculator.nan_greeks) /\
  (greeks_guard S K T sigma = true -> g = ChainCalculator.nan_greeks) /\
  (greeks_guard S K T sigma = false ->
   forall s k t r' sg,
     S = Some s -> K = Some k -> T = Some t -> r = Some r' ->
     sigma = Some sg ->
     greeks_defined g /\
     g = ChainCalculator.Greeks
           (Some (BlackScholes.delta s k t r' sg option_type))
           (Some (BlackScholes.gamma s k t r' sg))
           (Some (BlackScholes.theta_annual s k t r' sg option_type / 365))
           (Some (BlackScholes.vega_unit s k t r' sg / 100))
           (Some (BlackScholes.rho_unit s k t r' sg option_type / 100))) /\
  (greeks_defined g ->
   exists s k t r' sg,
     S = Some s /\ K = Some k /\ T = Some t /\ r = Some r' /\ sigma = Some sg /\
     ChainCalculator.theta g
       = Some (BlackScholes.theta_annual s k t r' sg option_type / 365) /\
     ChainCalculator.vega g = Some (BlackScholes.vega_unit s k t r' sg / 100) /\
     ChainCalculator.rho g
       = Some (BlackScholes.rho_unit s k t r' sg option_type / 100)).
Proof.
  intros g.
  assert (Hguard : greeks_guard S K T sigma = true -> g = ChainCalculator.nan_greeks).
  { intros Hg. unfold g, ChainCalculator.calculate_greeks.
    unfold greeks_guard in Hg. rewrite Hg. reflexivity. }
  assert (Hcases :
    g = ChainCalculator.nan_greeks \/
    exists s k t r' sg,
      S = Some s /\ K = Some k /\ T = Some t /\ r = Some r' /\ sigma = Some sg /\
      0 < t /\ 0.01 < sg /\ 0 < s /\ 0 < k).
  { destruct (greeks_guard S K T sigma) eqn:Hg; [left; now apply Hguard |].
    destruct S as [s |];
      [| left; apply calculate_greeks_nan_input; now left].
    destruct K as [k |];
      [| left; apply calculate_greeks_nan_input; right; now left].
    destruct T as [t |];
      [| left; apply calculate_greeks_nan_input; right; right; now left].
    destruct r as [r' |];
      [| left; apply calculate_greeks_nan_input; right; right; right; now left].
    destruct sigma as [sg |];
      [| left; apply calculate_greeks_nan_input; right; right; right; now right].
    right. exists s, k, t, r', sg.
    apply greeks_guard_false_reals in Hg. intuition. }
  split; [| split; [exact Hguard | split]].
  - destruct Hcases as [Hn | (s & k & t & r' & sg & -> & -> & -> & -> & -> & Ht & Hsg & Hs & Hk)];
      [right; exact Hn | left].
    unfold g. rewrite calculate_greeks_reals by assumption.
    repeat split.
  - intros Hg s k t r' sg ES EK ET Er Esg. subst S K T r sigma.
    apply greeks_guard_false_reals in Hg.
    destruct Hg as (Ht & Hsg & Hs & Hk).
    unfold g. rewrite calculate_greeks_reals by assumption.
    repeat split.
  - intros Hdef.
    destruct Hcases as [Hn | (s & k & t & r' & sg & -> & -> & -> & -> & -> & Ht & Hsg & Hs & Hk)].
    + rewrite Hn in Hdef. destruct Hdef as (Hd & _). discriminate.
    + exists s, k, t, r', sg. unfold g.
      rewrite calculate_greeks_reals by assumption. simpl.
      repeat split; reflexivity.
Qed.

(** A contract in the money (S = 100, K = 90, one year, sigma = 0.5) has
    five Greeks that are numbers; a contract at expiry has five NaN. *)
Lemma C4_greeks_all_or_nothing_witness :
  greeks_defined
    (ChainCalculator.calculate_greeks (Some 100) (Some 90) (Some 1) (Some 0.36)
       (Some 0.5) "CALL") /\
  ChainCalculator.calculate_greeks (Some 1000) (Some 1000) (Some 0) (Some 0.36)
    (Some 0.5) "CALL" = ChainCalculator.nan_greeks.
Proof.
  split.
  - assert (Hguard : greeks_guard (Some 100) (Some 90) (Some 1) (Some 0.5)
                     = false).
    { unfold greeks_guard, ChainCalculator.MIN_IV.
      rewrite (fle_pos 1), (fle_false 0.5 0.01), (fle_pos 100), (fle_pos 90)
        by lra.
      reflexivity. }
    exact (proj1 (proj1 (proj2 (proj2 (C4_greeks_all_or_nothing
             (Some 100) (Some 90) (Some 1) (Some 0.36) (Some 0.5) "CALL")))
             Hguard 100 90 1 0.36 0.5 eq_refl eq_refl eq_refl eq_refl eq_refl)).
  - apply (C4_greeks_all_or_nothing (Some 1000) (Some 1000) (Some 0)
             (Some 0.36) (Some 0.5) "CALL").
    unfold greeks_guard. rewrite (fle_nonpos 0) by lra. reflexivity.
Defined.

(** *** The range of doubles *)

Module DoubleRange.


Lemma pow2_IZR (n : nat) : 2 ^ n = IZR (2 ^ Z.of_nat n).
Proof. rewrite <- pow_IZR. reflexivity. Qed.

Lemma overflow_threshold_IZR :
  Double.overflow_threshold = IZR (2 ^ 1024 - 2 ^ 970).
Proof. unfold Double.overflow_threshold. rewrite !pow2_IZR, <- minus_IZR. reflexivity. Qed.

Lemma overflow_threshold_large : 1000000 < Double.overflow_threshold.
Proof. rewrite overflow_threshold_IZR. apply IZR_lt. reflexivity. Qed.

Lemma underflow_threshold_small : 0 < Double.underflow_threshold < / 1000000.
Proof.
  unfold Double.underflow_threshold. split.
  - apply Rinv_0_lt_compat, pow_lt. lra.
  - apply Rinv_lt_contravar.
    + apply Rmult_lt_0_compat; [lra | apply pow_lt; lra].
    + rewrite pow2_IZR. apply IZR_lt. reflexivity.
Qed.

Lemma of_real_in_range (x : R) :
  / 1000000 <= Rabs x <= 1000000 -> Double.of_real x = Double.Fin x.
Proof.
  intros Hx. unfold Double.of_real.
  pose proof overflow_threshold_large. pose proof underflow_threshold_small.
  destruct (Rle_dec Double.overflow_threshold (Rabs x)); [lra |].
  destruct (Rle_dec (Rabs x) Double.underflow_threshold); [lra | reflexivity].
Qed.

Lemma of_real_zero : Double.of_real 0 = Double.Fin 0.
Proof.
  unfold Double.of_real. rewrite Rabs_R0.
  pose proof overflow_threshold_large. pose proof underflow_threshold_small.
  destruct (Rle_dec Double.overflow_threshold 0); [lra |].
  destruct (Rle_dec 0 Double.underflow_threshold); [reflexivity | lra].
Qed.

Lemma of_real_overflow (x : R) :
  Double.overflow_threshold <= x -> Double.of_real x = Double.Inf false.
Proof.
  intros Hx. unfold Double.of_real, Double.is_negative.
  pose proof overflow_threshold_large.
  rewrite Rabs_pos_eq by lra.
  destruct (Rle_dec Double.overflow_threshold x); [| lra].
  destruct (Rlt_dec x 0); [lra | reflexivity].
Qed.

Lemma of_real_underflow (x : R) :
  Rabs x <= Double.underflow_threshold -> Double.of_real x = Double.Fin 0.
Proof.
  intros Hx. unfold Double.of_real.
  pose proof overflow_threshold_large. pose proof underflow_threshold_small.
  destruct (Rle_dec Double.overflow_threshold (Rabs x)); [lra |].
  destruct (Rle_dec (Rabs x) Double.underflow_threshold); [reflexivity | lra].
Qed.

Lemma of_real_number (x : R) : Double.of_real x <> Double.NaN.
Proof.
  unfold Double.of_real.
  destruct (Rle_dec Double.overflow_threshold (Rabs x)); [discriminate |].
  destruct (Rle_dec (Rabs x) Double.underflow_threshold); discriminate.
Qed.

Lemma exp_1_gt_2 : 2 < exp 1.
Proof. pose proof (exp_ineq1 1 ltac:(lra)). lra. Qed.

Lemma pow2_le_exp (n : nat) : 2 ^ n <= exp (INR n).
Proof.
  induction n as [| n IH].
  - simpl. rewrite exp_0. lra.
  - rewrite S_INR, exp_plus. simpl pow.
    pose proof exp_1_gt_2. pose proof (exp_pos (INR n)).
    assert (0 < 2 ^ n) by (apply pow_lt; lra). nra.
Qed.

(** [exp (-x)] underflows to zero from [x = 1075] on. *)
Lemma exp_underflow (x : R) : 1075 <= x -> Rabs (exp (- x)) <= Double.underflow_threshold.
Proof.
  intros Hx. rewrite Rabs_pos_eq by (left; apply exp_pos).
  unfold Double.underflow_threshold. rewrite exp_Ropp.
  apply Rinv_le_contravar; [apply pow_lt; lra |].
  apply Rle_trans with (exp (INR 1075)); [apply pow2_le_exp |].
  replace (INR 1075) with 1075 by (rewrite INR_IZR_INZ; reflexivity).
  destruct Hx as [Hx | <-]; [left; apply exp_increasing; exact Hx | right; reflexivity].
Qed.

Lemma add_in_range (a b : R) :
  / 1000000 <= Rabs (a + b) <= 1000000 ->
  Double.add (Double.Fin a) (Double.Fin b) = Double.Fin (a + b).
Proof. apply of_real_in_range. Qed.

Lemma mul_in_range (a b : R) :
  / 1000000 <= Rabs (a * b) <= 1000000 ->
  Double.mul (Double.Fin a) (Double.Fin b) = Double.Fin (a * b).
Proof. apply of_real_in_range. Qed.

Lemma div_in_range (a b : R) :
  b <> 0 -> / 1000000 <= Rabs (a / b) <= 1000000 ->
  Double.div (Double.Fin a) (Double.Fin b) = Double.Fin (a / b).
Proof.
  intros Hb Hr. unfold Double.div.
  destruct (Req_dec_T b 0); [contradiction |].
  apply of_real_in_range. exact Hr.
Qed.

Lemma of_real_finite (x : R) :
  Rabs x < Double.overflow_threshold ->
  exists c : R, Double.of_real x = Double.Fin c /\ Rabs c <= Rabs x.
Proof.
  intros Hx. unfold Double.of_real.
  destruct (Rle_dec Double.overflow_threshold (Rabs x)); [lra |].
  destruct (Rle_dec (Rabs x) Double.underflow_threshold).
  - exists 0. split; [reflexivity |]. rewrite Rabs_R0. apply Rabs_pos.
  - exists x. split; [reflexivity | lra].
Qed.

Lemma pdf_R_le_half (x : R) : pdf_R x <= 1 / 2.
Proof.
  unfold pdf_R.
  assert (Hs : 2 <= sqrt (2 * PI)).
  { replace 2 with (sqrt (2 * 2)) at 1 by (apply sqrt_square; lra).
    apply sqrt_le_1_alt. pose proof PI2_1. lra. }
  assert (He : exp (- (x * x) / 2) <= 1).
  { rewrite <- exp_0. destruct (Req_dec x 0) as [-> | Hx].
    - right. f_equal. lra.
    - left. apply exp_increasing. nra. }
  pose proof (exp_pos (- (x * x) / 2)) as Hp.
  apply Rle_trans with (1 / sqrt (2 * PI)).
  - unfold Rdiv. apply Rmult_le_compat_r; [| exact He].
    left. apply Rinv_0_lt_compat. lra.
  - unfold Rdiv. rewrite !Rmult_1_l. apply Rinv_le_contravar; lra.
Qed.

Lemma cdf_R_upper (x : R) : 0 <= x -> cdf_R x <= 1 / 2 + x / 2.
Proof.
  intros Hx. unfold cdf_R.
  pose proof (RiemannInt_P19 (pdf_R_integrable 0 x)
                (RiemannInt_P14 0 x (1 / 2)) Hx) as Hle.
  rewrite RiemannInt_P15 in Hle.
  assert (RiemannInt (pdf_R_integrable 0 x) <= 1 / 2 * (x - 0)).
  { apply Hle. intros y _. unfold fct_cte. apply pdf_R_le_half. }
  lra.
Qed.

End DoubleRange.


(** Against "all five defined or all five NaN": a strike of 1e305 and a
    maturity of 10000 years.  [K * T] is beyond the largest double and
    [exp (- r * T)] below the smallest one, so that [rho] is
    [inf * 0 = NaN], while [delta = norm.cdf (d1)] is a number. *)
Lemma C4_overflow_counterexample :
  let g := ChainCalculatorDouble.calculate_greeks
             (Double.Fin 1e305) (Double.Fin 1e305) (Double.Fin 10000)
             (Double.Fin 0.36) (Double.Fin 1) "CALL" in
  ChainCalculatorDouble.delta g <> Double.NaN /\
  ChainCalculatorDouble.rho g = Double.NaN.
Proof.
  assert (Hbig : 1e305 = IZR (10 ^ 305)).
  { rewrite Rmult_1_l. reflexivity. }
  assert (Hpos : 0 < 1e305).
  { rewrite Hbig. apply IZR_lt. reflexivity. }
  pose proof DoubleRange.overflow_threshold_large as Hot.
  unfold ChainCalculatorDouble.calculate_greeks, ChainCalculatorDouble.MIN_IV,
    ChainCalculatorDouble.half.
  unfold Double.le.
  destruct (Rle_dec 10000 0); [lra |].
  destruct (Rle_dec 1 0.01); [lra |].
  destruct (Rle_dec 1e305 0); [lra |].
  cbn [orb]. unfold Double.square.
  destruct (Rle_dec Double.overflow_threshold (1 * 1)); [lra |].
  change ("CALL" =? "CALL")%string with true.
  cbn [bind try_except ChainCalculatorDouble.delta ChainCalculatorDouble.rho].
  split.
  - assert (Ediv : Double.div (Double.Fin 1e305) (Double.Fin 1e305)
                   = Double.Fin 1).
    { unfold Double.div. destruct (Req_dec_T 1e305 0); [lra |].
      replace (1e305 / 1e305) with 1 by (field; lra).
      apply DoubleRange.of_real_in_range. rewrite Rabs_pos_eq; lra. }
    rewrite Ediv.
    assert (Elog : Double.log (Double.Fin 1) = Double.Fin 0).
    { unfold Double.log. destruct (Rlt_dec 0 1); [| lra].
      rewrite ln_1. apply DoubleRange.of_real_zero. }
    rewrite Elog.
    assert (Esqrt : Double.sqrt (Double.Fin 10000) = Double.Fin 100).
    { unfold Double.sqrt. destruct (Rle_dec 0 10000); [| lra].
      replace 10000 with (100 * 100) by lra. rewrite sqrt_square by lra.
      apply DoubleRange.of_real_in_range. rewrite Rabs_pos_eq; lra. }
    rewrite Esqrt.
    rewrite (DoubleRange.of_real_in_range (1 * 1))
      by (rewrite Rabs_pos_eq; lra).
    rewrite (DoubleRange.mul_in_range 0.5) by (rewrite Rabs_pos_eq; lra).
    rewrite (DoubleRange.add_in_range 0.36) by (rewrite Rabs_pos_eq; lra).
    rewrite (DoubleRange.mul_in_range _ 10000) by (rewrite Rabs_pos_eq; lra).
    rewrite (DoubleRange.add_in_range 0) by (rewrite Rabs_pos_eq; lra).
    rewrite (DoubleRange.mul_in_range 1 100) by (rewrite Rabs_pos_eq; lra).
    rewrite DoubleRange.div_in_range by (try rewrite Rabs_pos_eq; lra).
    apply DoubleRange.of_real_number.
  - assert (EKT : Double.mul (Double.Fin 1e305) (Double.Fin 10000)
                  = Double.Inf false).
    { apply DoubleRange.of_real_overflow.
      rewrite DoubleRange.overflow_threshold_IZR, Hbig, <- mult_IZR.
      apply IZR_le, Z.leb_le. vm_compute. reflexivity. }
    rewrite EKT.
    assert (Eexp : Double.exp (Double.mul (Double.neg (Double.Fin 0.36))
                                 (Double.Fin 10000)) = Double.Fin 0).
    { cbn [Double.neg].
      rewrite DoubleRange.mul_in_range by (rewrite Rabs_left; lra).
      apply DoubleRange.of_real_underflow.
      replace (- (0.36) * 10000) with (- (3600)) by lra.
      apply (DoubleRange.exp_underflow 3600). lra. }
    rewrite Eexp.
    unfold Double.mul at 2. destruct (Req_dec_T 0 0); [| lra].
    reflexivity.
Qed.

(** ** Implied volatility stays in the bracket *)

Module BlackScholesPrice.

(** Closed-form option value over the reals. *)
Definition price (S K T r sigma : R) (option_type : string) : R :=
  if BlackScholes.is_call option_type
  then S * cdf_R (BlackScholes.d1 S K T r sigma)
       - K * exp (- r * T) * cdf_R (BlackScholes.d2 S K T r sigma)
  else K * exp (- r * T) * cdf_R (- BlackScholes.d2 S K T r sigma)
       - S * cdf_R (- BlackScholes.d1 S K T r sigma).

End BlackScholesPrice.

Lemma chain_bs_price_reals (S K T r sigma : R) (option_type : string) :
  0 < T -> 0 < sigma -> 0 < S -> 0 < K ->
  ChainCalculator.bs_price (Some S) (Some K) (Some T) (Some r) (Some sigma)
    option_type
  = Some (BlackScholesPrice.price S K T r sigma option_type).
Proof.
  intros HT Hsig HS HK.
  assert (HsT : 0 < sqrt T) by (apply sqrt_lt_R0; exact HT).
  assert (Hden : sigma * sqrt T <> 0) by nra.
  assert (HSK : 0 < S / K) by (apply Rdiv_lt_0_compat; assumption).
  unfold ChainCalculator.bs_price, ChainCalculator.half.
  rewrite (fle_pos T HT), (fle_pos sigma Hsig), (fle_pos S HS), (fle_pos K HK).
  cbn [orb].
  rewrite (fdiv_Some S K) by lra.
  rewrite (flog_Some _ HSK), (fsqrt_Some T) by lra.
  cbn [fadd fsub fmul fneg lift1 lift2 cdf pdf fexp].
  rewrite (fdiv_Some _ _ Hden).
  cbn [fadd fsub fmul fneg lift1 lift2 cdf pdf fexp].
  assert (Ed1 : (ln (S / K) + (r + 0.5 * (sigma * sigma)) * T) / (sigma * sqrt T)
                = BlackScholes.d1 S K T r sigma).
  { unfold BlackScholes.d1. f_equal. lra. }
  rewrite Ed1.
  unfold BlackScholesPrice.price, BlackScholes.is_call, BlackScholes.d2.
  destruct (String.eqb option_type "CALL"); reflexivity.
Qed.

Lemma hist_bs_price_eq (S K T r sigma : float) (typ : string) :
  IvCalculator.bs_price S K T r sigma typ
  = ChainCalculator.bs_price S K T r sigma typ.
Proof. reflexivity. Qed.

(** With S = K = 1, T = 1 and r = sigma^2 / 2 the call is worth
    [cdf sigma - exp (-r) / 2], which is positive. *)
Lemma unit_call_price_pos (sigma : R) :
  0 < sigma ->
  0 < BlackScholesPrice.price 1 1 1 (sigma * sigma / 2) sigma "CALL".
Proof.
  intros Hs.
  unfold BlackScholesPrice.price, BlackScholes.is_call. simpl String.eqb.
  cbv iota.
  assert (E1 : BlackScholes.d1 1 1 1 (sigma * sigma / 2) sigma = sigma).
  { unfold BlackScholes.d1.
    replace (1 / 1) with 1 by lra. rewrite ln_1, sqrt_1. field. lra. }
  assert (E2 : BlackScholes.d2 1 1 1 (sigma * sigma / 2) sigma = 0).
  { unfold BlackScholes.d2. rewrite E1, sqrt_1. lra. }
  rewrite E1, E2, cdf_R_0.
  pose proof (cdf_R_ge_half sigma ltac:(lra)) as Hc.
  assert (Hexp : exp (- (sigma * sigma / 2) * 1) < 1).
  { apply Rlt_le_trans with (exp 0); [apply exp_increasing; nra |].
    rewrite exp_0. lra. }
  lra.
Qed.

Lemma default_tolerances_accepted :
  ~ Brentq.default_xtol <= 0 /\
  ~ Brentq.default_rtol < Brentq.default_rtol / 4.
Proof.
  unfold Brentq.default_xtol, Brentq.default_rtol.
  assert (0 < 10 ^ 12) by (apply pow_lt; lra).
  assert (0 < 2 ^ 52) by (apply pow_lt; lra).
  assert (0 < 2 / 10 ^ 12) by (apply Rdiv_lt_0_compat; lra).
  assert (0 < 4 / 2 ^ 52) by (apply Rdiv_lt_0_compat; lra).
  split; lra.
Qed.

(** When the quoted price is exactly the model price at the lower end of
    the bracket, the solver returns that end at once. *)
Lemma brentq_root_at_lower_end (f : R -> float) (a b fb : R) (maxiter : nat) :
  f a = Some 0 -> f b = Some fb ->
  Brentq.brentq f Brentq.default_xtol Brentq.default_rtol a b maxiter
  = Brentq.Converged a.
Proof.
  intros Ha Hb. unfold Brentq.brentq.
  destruct default_tolerances_accepted as (Hx & Hr).
  destruct (Rle_dec Brentq.default_xtol 0); [contradiction |].
  destruct (Rlt_dec Brentq.default_rtol (Brentq.default_rtol / 4));
    [contradiction |].
  rewrite Ha, Hb.
  assert (E : Brentq.Reqb 0 0 = true) by (apply BrentqBracket.Reqb_true; reflexivity).
  rewrite E. reflexivity.
Qed.

Lemma chain_iv_at_lower_end :
  let sigma0 := 0.01 in
  let r := Some (sigma0 * sigma0 / 2) in
  let price :=
    ChainCalculator.bs_price (Some 1) (Some 1) (Some 1) r (Some sigma0) "CALL" in
  ChainCalculator.implied_volatility price (Some 1) (Some 1) (Some 1) r "CALL"
  = Some 0.01.
Proof.
  intros sigma0 r price.
  assert (Hp : price = Some (BlackScholesPrice.price 1 1 1 (sigma0 * sigma0 / 2)
                               sigma0 "CALL")).
  { unfold price, r. apply chain_bs_price_reals; unfold sigma0; lra. }
  pose proof (unit_call_price_pos sigma0 ltac:(unfold sigma0; lra)) as Hpos.
  unfold ChainCalculator.implied_volatility.
  rewrite Hp at 1. rewrite (fle_pos _ Hpos), (fle_pos 1) by lra. cbn [orb].
  erewrite brentq_root_at_lower_end; [reflexivity | |].
  - fold sigma0. fold r. fold price. rewrite Hp. simpl. f_equal. lra.
  - unfold r. rewrite Hp, chain_bs_price_reals by (unfold sigma0; lra).
    simpl. reflexivity.
Qed.

Lemma hist_iv_at_lower_end :
  let sigma0 := 1e-6 in
  let r := Some (sigma0 * sigma0 / 2) in
  let price :=
    IvCalculator.bs_price (Some 1) (Some 1) (Some 1) r (Some sigma0) "CALL" in
  IvCalculator.implied_volatility price (Some 1) (Some 1) (Some 1) r "CALL"
  = Some 1e-6.
Proof.
  intros sigma0 r price.
  assert (Hp : price = Some (BlackScholesPrice.price 1 1 1 (sigma0 * sigma0 / 2)
                               sigma0 "CALL")).
  { unfold price, r. rewrite hist_bs_price_eq.
    apply chain_bs_price_reals; unfold sigma0; lra. }
  pose proof (unit_call_price_pos sigma0 ltac:(unfold sigma0; lra)) as Hpos.
  unfold IvCalculator.implied_volatility.
  rewrite Hp at 1. rewrite (fle_pos _ Hpos), (fle_pos 1) by lra. cbn [orb].
  erewrite brentq_root_at_lower_end; [reflexivity | |].
  - fold sigma0. fold r. fold price. rewrite Hp. simpl. f_equal. lra.
  - unfold r. rewrite Hp, hist_bs_price_eq,
      chain_bs_price_reals by (unfold sigma0; lra).
    simpl. reflexivity.
Qed.

(** C9.  A defined result of [implied_volatility] lies in the closed
    bracket of its module: [0.01, 5] in chain_calculator.py and
    [1e-6, 5] in iv_calculator.py. *)
Theorem C9_implied_volatility_in_bracket
  (price S K T r : float) (option_type : string) (v : R) :
  (ChainCalculator.implied_volatility price S K T r option_type = Some v ->
   0.01 <= v <= 5) /\
  (IvCalculator.implied_volatility price S K T r option_type = Some v ->
   1e-6 <= v <= 5).
Proof.
  split.
  - unfold ChainCalculator.implied_volatility.
    destruct (_ || _ || _ || _); [discriminate |].
    destruct (Brentq.brentq _ _ _ _ _ _) eqn:Hrun; simpl; try discriminate.
    intros [= <-]. eapply BrentqBracket.brentq_within; [| exact Hrun]. lra.
  - unfold IvCalculator.implied_volatility.
    destruct (_ || _ || _ || _); [discriminate |].
    destruct (Brentq.brentq _ _ _ _ _ _) eqn:Hrun; simpl; try discriminate.
    intros [= <-]. eapply BrentqBracket.brentq_within; [| exact Hrun]. lra.
Qed.

Lemma C9_implied_volatility_in_bracket_witness :
  0.01 <= 0.01 <= 5 /\ 1e-6 <= 1e-6 <= 5.
Proof.
  split.
  - exact (proj1 (C9_implied_volatility_in_bracket _ _ _ _ _ _ _)
             chain_iv_at_lower_end).
  - exact (proj2 (C9_implied_volatility_in_bracket _ _ _ _ _ _ _)
             hist_iv_at_lower_end).
Defined.

(** ** Historical volatility *)

Module HV.

Import ChainCalculator.

Lemma std_short (l : list R) : (List.length l < 2)%nat -> std l = nan.
Proof.
  intros H. unfold std.
  destruct (Nat.ltb_spec (List.length l) 2); [reflexivity | lia].
Qed.

Lemma std_defined (l : list R) :
  (2 <= List.length l)%nat -> exists v, std l = Some v /\ 0 <= v.
Proof.
  intros H. unfold std.
  destruct (Nat.ltb_spec (List.length l) 2); [lia |].
  eexists; split; [reflexivity | apply sqrt_pos].
Qed.

Lemma annualized_defined (x : float) :
  (exists v, x = Some v /\ 0 <= v) ->
  exists v, annualized x = Some v /\ 0 <= v.
Proof.
  intros (v & -> & Hv). unfold annualized.
  rewrite fsqrt_Some by lra. simpl.
  eexists; split; [reflexivity |].
  apply Rmult_le_pos; [exact Hv | apply sqrt_pos].
Qed.

Lemma last_n_length {A : Type} (n : nat) (l : list A) :
  (n <= List.length l)%nat -> List.length (last_n n l) = n.
Proof. intros H. unfold last_n. rewrite length_skipn. lia. Qed.

Lemma valid_prices_pos (l : list (Z * float)) :
  Forall (fun p => 0 < p) (valid_prices l).
Proof.
  induction l as [| [d [v |]] l IH]; simpl; auto.
  destruct (Rlt_dec 0 v); auto.
Qed.

Lemma log_ratio_defined (prev : R) (prices : list R) :
  0 < prev -> Forall (fun p => 0 < p) prices ->
  List.length (dropna (log_ratio_from prev prices)) = List.length prices.
Proof.
  revert prev. induction prices as [| p prices IH]; intros prev Hprev Hall.
  - reflexivity.
  - inversion Hall as [| ? ? Hp Hrest]; subst. cbn [log_ratio_from].
    rewrite fdiv_Some by lra.
    rewrite flog_Some by (apply Rdiv_lt_0_compat; assumption).
    cbn [dropna List.length]. f_equal. apply IH; assumption.
Qed.

(** One return for every valid price after the first. *)
Lemma returns_length (prices : list R) :
  Forall (fun p => 0 < p) prices ->
  List.length (dropna (ret_column prices)) = pred (List.length prices).
Proof.
  destruct prices as [| p prices]; [reflexivity |].
  intros Hall. inversion Hall; subst.
  cbn [ret_column dropna List.length pred].
  apply log_ratio_defined; assumption.
Qed.

Lemma valid_prices_length (l : list (Z * float)) :
  (List.length (valid_prices l) <= List.length l)%nat.
Proof.
  induction l as [| [d [v |]] l IH]; simpl; try lia.
  destruct (Rlt_dec 0 v); simpl; lia.
Qed.

Lemma drop_duplicates_seen_length seen (l : list (Z * float)) :
  (List.length (drop_duplicates_seen seen l) <= List.length l)%nat.
Proof.
  revert seen. induction l as [| x l IH]; intros seen; simpl; [lia |].
  destruct (existsb _ seen); simpl.
  - specialize (IH seen). lia.
  - specialize (IH (fst x :: seen)). lia.
Qed.

Lemma insert_by_date_length x (l : list (Z * float)) :
  List.length (insert_by_date x l) = S (List.length l).
Proof.
  induction l as [| y l IH]; simpl; [reflexivity |].
  destruct (fst x <=? fst y)%Z; simpl; lia.
Qed.

Lemma sort_by_date_length (l : list (Z * float)) :
  List.length (sort_by_date l) = List.length l.
Proof.
  induction l as [| x l IH]; [reflexivity |].
  change (sort_by_date (x :: l)) with (insert_by_date x (sort_by_date l)).
  rewrite insert_by_date_length, IH. reflexivity.
Qed.

Lemma dated_length (rows : list history_row) (hist : list (Z * float)) :
  dated rows = Ok hist -> List.length hist = List.length rows.
Proof.
  revert hist. induction rows as [| h rows IH]; intros hist; simpl.
  - intros [= <-]. reflexivity.
  - destruct (hr_date h); [| discriminate].
    destruct (dated rows) as [l |]; simpl; [| discriminate].
    intros [= <-]. simpl. f_equal. apply IH. reflexivity.
Qed.

Lemma returns_of_length (hist : list (Z * float)) :
  List.length (returns_of hist)
  = pred (List.length (valid_prices (drop_duplicates (sort_by_date hist)))).
Proof. unfold returns_of, returns_of_with. apply returns_length, valid_prices_pos. Qed.

Lemma returns_of_short (hist : list (Z * float)) :
  (List.length hist < 2)%nat -> List.length (returns_of hist) = 0%nat.
Proof.
  intros H. rewrite returns_of_length.
  pose proof (valid_prices_length (drop_duplicates (sort_by_date hist))).
  pose proof (drop_duplicates_seen_length [] (sort_by_date hist)) as Hd.
  fold (drop_duplicates (sort_by_date hist)) in Hd.
  rewrite sort_by_date_length in Hd. lia.
Qed.

(** What [sort_values('date_int')] guarantees of its result: the same
    rows, in ascending order of the date.  The order among the rows of one
    date is left open. *)
Definition orders_by_date (sort : list (Z * float) -> list (Z * float)) : Prop :=
  forall l : list (Z * float),
    Permutation l (sort l) /\
    Sorted (fun a b : Z * float => (fst a <= fst b)%Z) (sort l).

Lemma insert_by_date_permutation x (l : list (Z * float)) :
  Permutation (x :: l) (insert_by_date x l).
Proof.
  induction l as [| y l IH]; cbn [insert_by_date]; [reflexivity |].
  destruct (fst x <=? fst y)%Z; [reflexivity |].
  rewrite perm_swap. apply perm_skip. exact IH.
Qed.

Lemma insert_by_date_sorted x (l : list (Z * float)) :
  Sorted (fun a b : Z * float => (fst a <= fst b)%Z) l ->
  Sorted (fun a b : Z * float => (fst a <= fst b)%Z) (insert_by_date x l).
Proof.
  induction l as [| y l IH]; intros Hs; cbn [insert_by_date].
  - repeat constructor.
  - destruct (Z.leb_spec (fst x) (fst y)) as [Hle | Hgt].
    + constructor; [exact Hs | constructor; exact Hle].
    + inversion Hs as [| ? ? Hs' Hhd]; subst.
      constructor; [apply IH; exact Hs' |].
      destruct l as [| z l]; cbn [insert_by_date].
      * constructor. lia.
      * destruct (fst x <=? fst z)%Z; constructor; [lia |].
        inversion Hhd; subst. assumption.
Qed.

Lemma sort_by_date_orders : orders_by_date sort_by_date.
Proof.
  intros l. induction l as [| x l [IHp IHs]].
  - split; [reflexivity | constructor].
  - change (sort_by_date (x :: l)) with (insert_by_date x (sort_by_date l)).
    split.
    + rewrite <- insert_by_date_permutation. apply perm_skip. exact IHp.
    + apply insert_by_date_sorted. exact IHs.
Qed.

Lemma returns_of_with_length (sort : list (Z * float) -> list (Z * float))
  (hist : list (Z * float)) :
  List.length (returns_of_with sort hist)
  = pred (List.length (valid_prices (drop_duplicates (sort hist)))).
Proof. unfold returns_of_with. apply returns_length, valid_prices_pos. Qed.

Lemma returns_of_with_short (sort : list (Z * float) -> list (Z * float))
  (hist : list (Z * float)) :
  orders_by_date sort ->
  (List.length hist < 2)%nat -> List.length (returns_of_with sort hist) = 0%nat.
Proof.
  intros Hsort H. rewrite returns_of_with_length.
  pose proof (valid_prices_length (drop_duplicates (sort hist))).
  pose proof (drop_duplicates_seen_length [] (sort hist)) as Hd.
  fold (drop_duplicates (sort hist)) in Hd.
  rewrite <- (Permutation_length (proj1 (Hsort hist))) in Hd. lia.
Qed.

(** The three windows, as functions of the number of valid returns. *)
Lemma hv_of_returns_spec (rets : list R) :
  let n := List.length rets in
  let '(v30, v90, v252, selected) := hv_of_returns rets in
  ((n < 30)%nat -> v30 = nan) /\
  ((30 <= n)%nat -> exists v, v30 = Some v /\ 0 <= v) /\
  ((2 <= n)%nat -> exists v, v252 = Some v /\ 0 <= v) /\
  ((n < 2)%nat -> v252 = nan).
Proof.
  unfold hv_of_returns.
  destruct (Nat.eqb_spec (List.length rets) 0) as [E | E].
  - cbv zeta. unfold nan_hv. rewrite E.
    repeat split; intros; try reflexivity; lia.
  - cbv zeta. split; [| split; [| split]].
    + intros H. destruct (Nat.leb_spec 30 (List.length rets)); [lia | reflexivity].
    + intros H. destruct (Nat.leb_spec 30 (List.length rets)); [| lia].
      apply annualized_defined, std_defined. rewrite last_n_length; lia.
    + intros H. apply annualized_defined, std_defined. exact H.
    + intros H. rewrite std_short by exact H. reflexivity.
Qed.

End HV.


(** A series of two valid prices: one valid return. *)
Definition two_price_history : ChainCalculator.history_table :=
  [ ChainCalculator.HistoryRow "IRO1FOLD0001" (Some 14030101%Z) (Some 100);
    ChainCalculator.HistoryRow "IRO1FOLD0001" (Some 14030102%Z) (Some 110) ].

Definition two_price_dated : list (Z * float) :=
  [ (14030101%Z, Some 100); (14030102%Z, Some 110) ].

Lemma two_price_history_dated :
  ChainCalculator.dated
    (filter (ChainCalculator.same_isin (strip "IRO1FOLD0001")) two_price_history)
  = Ok two_price_dated.
Proof. reflexivity. Qed.

Lemma two_price_valid_prices :
  ChainCalculator.valid_prices
    (ChainCalculator.drop_duplicates (ChainCalculator.sort_by_date two_price_dated))
  = [100; 110].
Proof.
  change (ChainCalculator.drop_duplicates
            (ChainCalculator.sort_by_date two_price_dated)) with two_price_dated.
  unfold two_price_dated. cbn [ChainCalculator.valid_prices].
  destruct (Rlt_dec 0 100); [| lra].
  destruct (Rlt_dec 0 110); [| lra].
  reflexivity.
Qed.



(** ** Order of the chain table *)

Module ChainOrder.

Import ChainCalculator.

(** *** String order *)

Lemma ascii_compare_refl (a : ascii) : Ascii.compare a a = Eq.
Proof. unfold Ascii.compare. apply N.compare_refl. Qed.

Lemma ascii_compare_lt_trans (a b c : ascii) :
  Ascii.compare a b = Lt -> Ascii.compare b c = Lt -> Ascii.compare a c = Lt.
Proof.
  unfold Ascii.compare. rewrite !N.compare_lt_iff. apply N.lt_trans.
Qed.

Lemma string_compare_lt_trans (a : string) : forall b c,
  String.compare a b = Lt -> String.compare b c = Lt -> String.compare a c = Lt.
Proof.
  induction a as [| x a IH]; intros [| y b] [| z c]; simpl;
    try discriminate; try reflexivity.
  destruct (Ascii.compare x y) eqn:Hxy; try discriminate;
    destruct (Ascii.compare y z) eqn:Hyz; try discriminate; intros Hab Hbc.
  - apply Ascii.compare_eq_iff in Hxy, Hyz. subst.
    rewrite ascii_compare_refl. eapply IH; eassumption.
  - apply Ascii.compare_eq_iff in Hxy. subst. rewrite Hyz. reflexivity.
  - apply Ascii.compare_eq_iff in Hyz. subst. rewrite Hxy. reflexivity.
  - rewrite (ascii_compare_lt_trans _ _ _ Hxy Hyz). reflexivity.
Qed.

Lemma ltb_trans (a b c : string) :
  String.ltb a b = true -> String.ltb b c = true -> String.ltb a c = true.
Proof.
  unfold String.ltb.
  destruct (String.compare a b) eqn:Hab; try discriminate.
  destruct (String.compare b c) eqn:Hbc; try discriminate.
  rewrite (string_compare_lt_trans _ _ _ Hab Hbc). reflexivity.
Qed.

Lemma ltb_trichotomy (a b : string) :
  String.ltb a b = false -> String.ltb b a = false -> a = b.
Proof.
  unfold String.ltb. rewrite (String.compare_antisym b a).
  destruct (String.compare a b) eqn:Hab; simpl; try discriminate.
  intros _ _. apply String.compare_eq_iff. exact Hab.
Qed.

Lemma ltb_irrefl (a : string) : String.ltb a a = false.
Proof.
  unfold String.ltb. pose proof (String.compare_antisym a a) as H.
  destruct (String.compare a a); simpl in H; try discriminate; reflexivity.
Qed.

(** *** The three-key order *)

(** Strikes in ascending order, NaN after every number. *)
Definition strike_order (x y : float) : Prop :=
  match x, y with
  | Some u, Some v => u <= v
  | _, None => True
  | None, Some _ => False
  end.

(** Type labels in descending string order, a missing label after every
    text: [y] does not sort strictly before [x]. *)
Definition kind_order (x y : option string) : Prop := kind_before y x = false.

Lemma kind_before_irrefl (x : option string) : kind_before x x = false.
Proof. destruct x as [u |]; [apply ltb_irrefl | reflexivity]. Qed.

Lemma kind_before_trans (x y z : option string) :
  kind_before x y = true -> kind_before y z = true -> kind_before x z = true.
Proof.
  destruct x as [u |], y as [v |], z as [w |]; simpl;
    try discriminate; try reflexivity.
  intros Hvu Hwv. exact (ltb_trans _ _ _ Hwv Hvu).
Qed.

Lemma kind_before_trichotomy (x y : option string) :
  kind_before x y = false -> kind_before y x = false -> x = y.
Proof.
  destruct x as [u |], y as [v |]; simpl; try discriminate; try reflexivity.
  intros Hvu Huv. f_equal. apply ltb_trichotomy; assumption.
Qed.

(** What the sort guarantees of a row [a] placed before a row [b]. *)
Definition key_order (a b : chain_row) : Prop :=
  (days_to_expiry a <= days_to_expiry b)%Z /\
  (days_to_expiry a = days_to_expiry b -> kind_order (type a) (type b)) /\
  (days_to_expiry a = days_to_expiry b -> type a = type b ->
   strike_order (strike a) (strike b)).

Lemma strike_leb_order (x y : float) : strike_leb x y = true <-> strike_order x y.
Proof.
  destruct x as [u |], y as [v |]; simpl; try tauto.
  - destruct (Rle_dec u v); split; intros; (assumption || reflexivity || discriminate || contradiction).
  - split; [discriminate | contradiction].
Qed.

Lemma strike_leb_total (x y : float) : strike_leb x y = false -> strike_leb y x = true.
Proof.
  destruct x as [u |], y as [v |]; simpl; try discriminate; try reflexivity.
  destruct (Rle_dec u v), (Rle_dec v u); try discriminate; try reflexivity. lra.
Qed.

Lemma strike_order_trans (x y z : float) :
  strike_order x y -> strike_order y z -> strike_order x z.
Proof.
  destruct x, y, z; simpl; try tauto. lra.
Qed.

Lemma row_leb_key_order (a b : chain_row) : row_leb a b = true -> key_order a b.
Proof.
  unfold row_leb, key_order.
  destruct (Z.ltb_spec (days_to_expiry a) (days_to_expiry b)) as [Hlt | Hge].
  - intros _. repeat split; intros; lia.
  - destruct (Z.ltb_spec (days_to_expiry b) (days_to_expiry a)) as [Hgt | Hle];
      [discriminate |].
    unfold kind_order.
    destruct (kind_before (type a) (type b)) eqn:Hab.
    + intros _. split; [lia | split].
      * intros _.
        destruct (kind_before (type b) (type a)) eqn:Hba; [| reflexivity].
        pose proof (kind_before_trans _ _ _ Hab Hba) as Hc.
        rewrite kind_before_irrefl in Hc. discriminate.
      * intros _ E. rewrite E, kind_before_irrefl in Hab. discriminate.
    + destruct (kind_before (type b) (type a)) eqn:Hba; [discriminate |].
      intros Hs. split; [lia | split; [reflexivity |]].
      intros _ _. apply strike_leb_order. exact Hs.
Qed.

Lemma row_leb_total (a b : chain_row) : row_leb a b = false -> row_leb b a = true.
Proof.
  unfold row_leb.
  destruct (Z.ltb_spec (days_to_expiry a) (days_to_expiry b)); [discriminate |].
  destruct (Z.ltb_spec (days_to_expiry b) (days_to_expiry a)); [reflexivity |].
  destruct (kind_before (type a) (type b)) eqn:Hab; [discriminate |].
  destruct (kind_before (type b) (type a)) eqn:Hba; [reflexivity |].
  apply strike_leb_total.
Qed.

Lemma key_order_trans (a b c : chain_row) :
  key_order a b -> key_order b c -> key_order a c.
Proof.
  intros (Hd1 & Ht1 & Hs1) (Hd2 & Ht2 & Hs2).
  split; [lia | split].
  - intros E.
    assert (E1 : days_to_expiry a = days_to_expiry b) by lia.
    assert (E2 : days_to_expiry b = days_to_expiry c) by lia.
    specialize (Ht1 E1). specialize (Ht2 E2). unfold kind_order in *.
    destruct (kind_before (type c) (type a)) eqn:Hca; [| reflexivity].
    destruct (kind_before (type a) (type b)) eqn:Hab.
    + rewrite (kind_before_trans _ _ _ Hca Hab) in Ht2. discriminate.
    + rewrite <- (kind_before_trichotomy _ _ Hab Ht1) in Ht2. congruence.
  - intros E Et.
    assert (E1 : days_to_expiry a = days_to_expiry b) by lia.
    assert (E2 : days_to_expiry b = days_to_expiry c) by lia.
    specialize (Ht1 E1). specialize (Ht2 E2). unfold kind_order in *.
    assert (Eab : type a = type b).
    { apply kind_before_trichotomy; [rewrite Et; exact Ht2 | exact Ht1]. }
    eapply strike_order_trans; [apply Hs1 | apply Hs2]; congruence.
Qed.

(** *** The sort *)

Lemma insert_row_hd (x y : chain_row) (l : list chain_row) :
  key_order y x -> HdRel key_order y l -> HdRel key_order y (insert_row x l).
Proof.
  intros Hyx Hl. destruct l as [| z l]; simpl.
  - constructor. exact Hyx.
  - destruct (row_leb x z); constructor; [exact Hyx |].
    inversion Hl; assumption.
Qed.

Lemma insert_row_sorted (x : chain_row) (l : list chain_row) :
  Sorted key_order l -> Sorted key_order (insert_row x l).
Proof.
  induction 1 as [| y l Hs IH Hhd]; simpl.
  - repeat constructor.
  - destruct (row_leb x y) eqn:Hxy.
    + constructor; [constructor; assumption |].
      constructor. apply row_leb_key_order. exact Hxy.
    + constructor; [exact IH |].
      apply insert_row_hd; [| exact Hhd].
      apply row_leb_key_order, row_leb_total. exact Hxy.
Qed.

Lemma sort_values_sorted (rows : list chain_row) :
  Sorted key_order (sort_values rows).
Proof.
  induction rows as [| x rows IH]; simpl; [constructor |].
  apply insert_row_sorted. exact IH.
Qed.

Lemma insert_row_perm (x : chain_row) (l : list chain_row) :
  Permutation (x :: l) (insert_row x l).
Proof.
  induction l as [| y l IH]; simpl; [reflexivity |].
  destruct (row_leb x y); [reflexivity |].
  rewrite perm_swap. constructor. exact IH.
Qed.

(** The sort only reorders the rows. *)
Lemma sort_values_perm (rows : list chain_row) :
  Permutation rows (sort_values rows).
Proof.
  induction rows as [| x rows IH]; simpl; [constructor |].
  rewrite <- insert_row_perm. constructor. exact IH.
Qed.

(** *** Reading the order off a table *)

(** Every adjacent pair of rows is in key order. *)
Definition adjacent_in_order (rows : list chain_row) : Prop :=
  forall (i : nat) (a b : chain_row),
    nth_error rows i = Some a -> nth_error rows (S i) = Some b ->
    key_order a b.

Lemma Sorted_adjacent (rows : list chain_row) :
  Sorted key_order rows <-> adjacent_in_order rows.
Proof.
  split.
  - induction 1 as [| x l Hs IH Hhd]; intros i a b Ha Hb.
    + destruct i; discriminate.
    + destruct i as [| i]; simpl in Ha, Hb.
      * injection Ha as <-. destruct l as [| y l]; [discriminate |].
        injection Hb as <-. inversion Hhd; assumption.
      * eapply IH; eassumption.
  - induction rows as [| x l IH]; intros H; [constructor |].
    constructor.
    + apply IH. intros i a b Ha Hb. apply (H (S i) a b); assumption.
    + destruct l as [| y l]; constructor.
      apply (H 0%nat x y); reflexivity.
Qed.

Lemma StronglySorted_nth (rows : list chain_row) :
  StronglySorted key_order rows ->
  forall (i j : nat) (a b : chain_row),
    (i < j)%nat -> nth_error rows i = Some a -> nth_error rows j = Some b ->
    key_order a b.
Proof.
  induction 1 as [| x l Hs IH Hall]; intros i j a b Hij Ha Hb.
  - destruct i; discriminate.
  - destruct j as [| j]; [lia |]. destruct i as [| i]; simpl in Ha, Hb.
    + injection Ha as <-.
      rewrite Forall_forall in Hall. apply Hall.
      eapply nth_error_In; eassumption.
    + apply (IH i j); [lia | assumption | assumption].
Qed.

(** In a table whose adjacent rows are in key order, any two rows are. *)
Lemma adjacent_any_pair (rows : list chain_row) :
  adjacent_in_order rows ->
  forall (i j : nat) (a b : chain_row),
    (i < j)%nat -> nth_error rows i = Some a -> nth_error rows j = Some b ->
    key_order a b.
Proof.
  intros H. apply StronglySorted_nth, Sorted_StronglySorted.
  - intros a b c. apply key_order_trans.
  - apply Sorted_adjacent. exact H.
Qed.

End ChainOrder.

(** ** The chain build *)

Module ChainBuild.

Import ChainCalculator ChainOrder.

(** A live row whose cells are all numbers, with a positive spot price,
    a positive number of remaining days and a positive quote, yields a
    chain row carrying its type, its truncated days and its strike. *)
Lemma process_contract_numeric
  (hv_cache : gmap string hv_tuple) (price_map : gmap string float)
  (r : live_row) (s k d p l : R) (size : R) (cnt vol oi : float) :
  is_nan_or_empty (strip (lr_underlying_isin r)) = false ->
  price_map !! strip (lr_underlying_isin r) = None ->
  lr_underlying_real_time_price r = Some s -> 0 < s ->
  lr_strike r = Num (Some k) ->
  lr_remained_day r = Num (Some d) -> 0 < d ->
  lr_real_time_price r = Num (Some p) -> 0 < p ->
  lr_last r = Num (Some l) ->
  lr_count r = Num cnt -> lr_volume r = Num vol ->
  lr_open_interest r = Num oi -> lr_contract_size r = Num (Some size) ->
  exists row,
    process_contract hv_cache price_map r = Some row /\
    type row = lr_type r /\ days_to_expiry row = trunc d /\
    strike row = Some k.
Proof.
  intros Hu Hpm HS Hs HK Hd Hdpos Hp Hppos Hl Hcnt Hvol Hoi Hsize.
  unfold process_contract, contract_row.
  rewrite Hu, Hpm, HS. cbn [default isna notna negb orb].
  rewrite (fle_pos s Hs). cbn [orb].
  rewrite HK, Hd, Hp, Hl. cbn [to_float bind cell_notna notna].
  rewrite (fdiv_Some d 365) by lra.
  assert (HT : 0 < d / 365) by (apply Rdiv_lt_0_compat; lra).
  rewrite (fle_pos _ HT), (fle_pos p Hppos). cbn [orb].
  destruct (default default_hv (hv_cache !! strip (lr_underlying_isin r)))
    as [[[hv30 hv90] hv252] hv_sel].
  cbn [to_int int_of_float bind].
  rewrite Hcnt, Hvol, Hoi, Hsize.
  unfold int_or_zero. cbn [cell_notna to_int].
  destruct cnt, vol, oi; cbn [notna int_of_float bind try_except];
    eexists; (split; [reflexivity | repeat split]).
Qed.

(** The table of a rebuild is the sorted list of the rows that were not
    skipped. *)
Lemma build_chain_rebuilt (fs : filesystem) (rows : list chain_row)
  (fs' : filesystem) :
  should_rebuild fs = true -> build_chain fs = (Ok rows, fs') ->
  rows = [] \/
  exists live hv_cache,
    fs_live fs = Some live /\
    rows = sort_values
             (omap (process_contract hv_cache
                      (build_price_map (read_or_empty (fs_underlying_live fs))))
                   (lf_rows live)) /\
    fs_output fs' = Some rows.
Proof.
  intros Hre. unfold build_chain. rewrite Hre. cbn [negb].
  destruct (fs_live fs) as [live |]; [| intros [= <- <-]; now left].
  destruct (build_hv_cache _ _) as [hv_cache | e]; [| discriminate].
  destruct (omap _ (lf_rows live)) as [| x xs] eqn:Hrows.
  - intros [= <- <-]; now left.
  - intros [= <- <-]. right. exists live, hv_cache.
    split; [reflexivity | split; [rewrite Hrows; reflexivity |]].
    unfold save_hash. cbn [fs_live fs_output file_hash].
    destruct (String.eqb (lf_digest live) EmptyString); reflexivity.
Qed.

Lemma build_chain_rebuilt_sorted (fs : filesystem) (rows : list chain_row)
  (fs' : filesystem) :
  should_rebuild fs = true -> build_chain fs = (Ok rows, fs') ->
  Sorted key_order rows.
Proof.
  intros Hre Hrun.
  destruct (build_chain_rebuilt fs rows fs' Hre Hrun)
    as [-> | (live & hv & _ & -> & _)].
  - constructor.
  - apply sort_values_sorted.
Qed.

End ChainBuild.

(** C1 (as the code has it).  In every table produced by a chain build,
    each adjacent pair of rows is in three-key order: days-to-expiry does
    not decrease; with equal days-to-expiry the type label does not
    increase in string order, rows without a label (NaN) coming last;
    with equal days-to-expiry and type the strike does not decrease, rows
    whose strike is NaN coming last.  Consequently, among rows with equal
    days-to-expiry every PUT row precedes every CALL row, and every row
    with a label precedes every row without one. *)
Theorem C1_chain_sort_order
  (fs : ChainCalculator.filesystem) (rows : list ChainCalculator.chain_row)
  (fs' : ChainCalculator.filesystem) :
  ChainCalculator.should_rebuild fs = true ->
  ChainCalculator.build_chain fs = (Ok rows, fs') ->
  ChainOrder.adjacent_in_order rows /\
  (forall (i j : nat) (p c : ChainCalculator.chain_row),
     nth_error rows i = Some p -> nth_error rows j = Some c ->
     ChainCalculator.days_to_expiry p = ChainCalculator.days_to_expiry c ->
     ChainCalculator.type p = Some "PUT" ->
     ChainCalculator.type c = Some "CALL" ->
     (i < j)%nat) /\
  (forall (i j : nat) (p c : ChainCalculator.chain_row) (label : string),
     nth_error rows i = Some p -> nth_error rows j = Some c ->
     ChainCalculator.days_to_expiry p = ChainCalculator.days_to_expiry c ->
     ChainCalculator.type p = Some label -> ChainCalculator.type c = None ->
     (i < j)%nat).
Proof.
  intros Hre Hrun.
  pose proof (ChainBuild.build_chain_rebuilt_sorted fs rows fs' Hre Hrun) as Hs.
  apply ChainOrder.Sorted_adjacent in Hs. split; [exact Hs |].
  split.
  - intros i j p c Hp Hc Hdays Htp Htc.
    destruct (Nat.lt_trichotomy i j) as [Hlt | [Heq | Hgt]]; [exact Hlt | |].
    + subst j. rewrite Hp in Hc. injection Hc as <-. congruence.
    + destruct (ChainOrder.adjacent_any_pair rows Hs j i c p Hgt Hc Hp)
        as (_ & Ht & _).
      symmetry in Hdays. specialize (Ht Hdays).
      unfold ChainOrder.kind_order in Ht. rewrite Htp, Htc in Ht.
      discriminate.
  - intros i j p c label Hp Hc Hdays Htp Htc.
    destruct (Nat.lt_trichotomy i j) as [Hlt | [Heq | Hgt]]; [exact Hlt | |].
    + subst j. rewrite Hp in Hc. injection Hc as <-. congruence.
    + destruct (ChainOrder.adjacent_any_pair rows Hs j i c p Hgt Hc Hp)
        as (_ & Ht & _).
      symmetry in Hdays. specialize (Ht Hdays).
      unfold ChainOrder.kind_order in Ht. rewrite Htp, Htc in Ht.
      discriminate.
Qed.

(** A live table with one CALL and one PUT on the same underlying, strike
    and expiry, and none of the other files. *)
Definition call_put_live : list ChainCalculator.live_row :=
  [ ChainCalculator.LiveRow "IRO9AHRM2501" "IRO9AHRM2401" (Num (Some 1000))
      "IRO1AHRM0001" "ZAHRM1" "call option" (Num (Some 12)) (Num (Some 340))
      (Num (Some 50)) (Num (Some 75)) (Num (Some 50)) "AHRM" (Some 1000)
      "14030101" "14030201" (Num (Some 1000)) (Num (Some 30)) (Some "CALL");
    ChainCalculator.LiveRow "IRO9AHRM2501" "IRO9AHRM2401" (Num (Some 1000))
      "IRO1AHRM0001" "TAHRM1" "put option" (Num (Some 7)) (Num (Some 120))
      (Num (Some 40)) (Num (Some 31)) (Num (Some 40)) "AHRM" (Some 1000)
      "14030101" "14030201" (Num (Some 1000)) (Num (Some 30)) (Some "PUT") ].

Definition call_put_fs : ChainCalculator.filesystem :=
  ChainCalculator.FileSystem
    (Some (ChainCalculator.LiveFile "9f2c" call_put_live)) None None None None.

(** The build of that table puts the PUT row first. *)
Lemma call_put_build :
  exists (p c : ChainCalculator.chain_row) (fs' : ChainCalculator.filesystem),
    ChainCalculator.build_chain call_put_fs = (Ok [p; c], fs') /\
    ChainCalculator.type p = Some "PUT" /\
    ChainCalculator.type c = Some "CALL" /\
    ChainCalculator.days_to_expiry p = ChainCalculator.days_to_expiry c.
Proof.
  unfold ChainCalculator.build_chain.
  change (ChainCalculator.should_rebuild call_put_fs) with true.
  cbn [negb call_put_fs ChainCalculator.fs_live ChainCalculator.fs_history
       ChainCalculator.fs_underlying_live ChainCalculator.read_or_empty
       ChainCalculator.lf_rows ChainCalculator.build_hv_cache
       ChainCalculator.build_price_map fold_left].
  unfold call_put_live.
  destruct (ChainBuild.process_contract_numeric ∅ ∅
              (ChainCalculator.LiveRow "IRO9AHRM2501" "IRO9AHRM2401"
                 (Num (Some 1000)) "IRO1AHRM0001" "ZAHRM1" "call option"
                 (Num (Some 12)) (Num (Some 340)) (Num (Some 50))
                 (Num (Some 75)) (Num (Some 50)) "AHRM" (Some 1000)
                 "14030101" "14030201" (Num (Some 1000)) (Num (Some 30)) (Some "CALL"))
              1000 1000 30 50 50 1000 (Some 12) (Some 340) (Some 75))
    as (c & Hc & Htc & Hdc & _);
    try reflexivity; try lra.
  destruct (ChainBuild.process_contract_numeric ∅ ∅
              (ChainCalculator.LiveRow "IRO9AHRM2501" "IRO9AHRM2401"
                 (Num (Some 1000)) "IRO1AHRM0001" "TAHRM1" "put option"
                 (Num (Some 7)) (Num (Some 120)) (Num (Some 40))
                 (Num (Some 31)) (Num (Some 40)) "AHRM" (Some 1000)
                 "14030101" "14030201" (Num (Some 1000)) (Num (Some 30)) (Some "PUT"))
              1000 1000 30 40 40 1000 (Some 7) (Some 120) (Some 31))
    as (p & Hp & Htp & Hdp & _);
    try reflexivity; try lra.
  cbn [ChainCalculator.lr_type] in Htc, Htp.
  exists p, c. eexists.
  cbn [omap list_omap]. rewrite Hc, Hp.
  cbn [ChainCalculator.sort_values fold_right ChainCalculator.insert_row].
  assert (Hle : ChainCalculator.row_leb c p = false).
  { unfold ChainCalculator.row_leb. rewrite Hdc, Hdp, Z.ltb_irrefl, Htc, Htp.
    reflexivity. }
  rewrite Hle. split; [reflexivity |].
  repeat split; congruence.
Qed.

(** Against CALL-before-PUT: in the table of that build a PUT row stands
    immediately before a CALL row with the same days-to-expiry. *)
Lemma C1_put_before_call_counterexample :
  exists (rows : list ChainCalculator.chain_row)
         (fs' : ChainCalculator.filesystem)
         (p c : ChainCalculator.chain_row),
    ChainCalculator.build_chain call_put_fs = (Ok rows, fs') /\
    nth_error rows 0 = Some p /\ nth_error rows 1 = Some c /\
    ChainCalculator.days_to_expiry p = ChainCalculator.days_to_expiry c /\
    ChainCalculator.type p = Some "PUT" /\
    ChainCalculator.type c = Some "CALL".
Proof.
  destruct call_put_build as (p & c & fs' & Hrun & Htp & Htc & Hd).
  exists [p; c], fs', p, c. repeat split; assumption.
Qed.

(** ** The IV history build *)

Module IvHistory.

Import IvCalculator.

(** The update check of iv_calculator.py never answers "up to date". *)
Lemma should_rebuild_always (fs : filesystem) : should_rebuild fs = true.
Proof.
  unfold should_rebuild.
  destruct (fs_output fs) as [out |]; [| reflexivity].
  destruct (fs_hist_options fs) as [hist |]; [| reflexivity].
  destruct hist as [| h hist]; [| reflexivity].
  destruct out as [| o out]; reflexivity.
Qed.

(** A record is emitted only for a row observed strictly before the
    expiry of its contract, and carries the difference of the two dates. *)
Lemma iv_record_of_Some
  (contract_map : gmap string contract_info)
  (isin_to_underlying : gmap string string)
  (df_hist_und : list hist_underlying_row) (opt : hist_option_row)
  (rec : iv_record) :
  iv_record_of contract_map isin_to_underlying df_hist_und opt = Ok (Some rec) ->
  exists (isin : string) (date_int : Z) (info : contract_info),
    ho_source_isin opt = Some isin /\ ho_date_int opt = Some date_int /\
    contract_map !! isin = Some info /\
    (date_int < ci_end_int info)%Z /\
    days_to_expiry rec = (ci_end_int info - date_int)%Z /\
    option_isin rec = isin /\ date rec = ho_date opt.
Proof.
  unfold iv_record_of.
  destruct (ho_source_isin opt) as [isin |]; [| discriminate].
  destruct (ho_date_int opt) as [date_int |]; [| discriminate].
  destruct (contract_map !! isin) as [info |] eqn:Hinfo; [| discriminate].
  destruct (Z.leb_spec (ci_end_int info) date_int) as [Hle | Hlt]; [discriminate |].
  destruct (if cell_notna (ho_last opt) then to_float (ho_last opt) else Ok (Some 0))
    as [price | e]; [| discriminate].
  cbn [bind].
  destruct (price <=? Some 0)%fl; [discriminate |].
  destruct (isin_to_underlying !! isin) as [u_isin |]; [| discriminate].
  destruct (String.eqb u_isin EmptyString); [discriminate |].
  destruct (try_except _ None) as [spot |]; [| discriminate].
  intros [= <-]. exists isin, date_int, info. cbn.
  repeat split; try reflexivity; assumption.
Qed.

Lemma iv_records_In
  (contract_map : gmap string contract_info)
  (isin_to_underlying : gmap string string)
  (df_hist_und : list hist_underlying_row) (df_hist_opt : list hist_option_row) :
  forall (records : list iv_record) (rec : iv_record),
    iv_records contract_map isin_to_underlying df_hist_und df_hist_opt
      = Ok records ->
    In rec records ->
    exists opt, In opt df_hist_opt /\
      iv_record_of contract_map isin_to_underlying df_hist_und opt
        = Ok (Some rec).
Proof.
  induction df_hist_opt as [| opt rest IH]; intros records rec; simpl.
  - intros [= <-] [].
  - destruct (iv_record_of _ _ _ opt) as [r | e] eqn:Hr; [| discriminate].
    cbn [bind].
    destruct (iv_records _ _ _ rest) as [rs | e]; [| discriminate].
    cbn [bind]. intros [= <-] Hin.
    destruct r as [r |].
    + destruct Hin as [<- | Hin].
      * exists opt. split; [now left | exact Hr].
      * destruct (IH rs rec eq_refl Hin) as (o & Ho & Hrec).
        exists o. split; [now right | exact Hrec].
    + destruct (IH rs rec eq_refl Hin) as (o & Ho & Hrec).
      exists o. split; [now right | exact Hrec].
Qed.

Lemma insert_record_In (x rec : iv_record) (l : list iv_record) :
  In rec (insert_record x l) -> rec = x \/ In rec l.
Proof.
  induction l as [| y l IH]; simpl.
  - intros [<- | []]. now left.
  - destruct (record_leb x y); simpl.
    + intros [<- | H]; [now left | now right].
    + intros [<- | H]; [right; now left |].
      destruct (IH H) as [-> | H']; [now left | right; now right].
Qed.

Lemma sort_records_In (rec : iv_record) (records : list iv_record) :
  In rec (sort_records records) -> In rec records.
Proof.
  induction records as [| x records IH]; simpl; [tauto |].
  intros H. apply insert_record_In in H as [-> | H]; [now left |].
  right. apply IH. exact H.
Qed.

(** Every record of a build that ran has a source row in the option
    history that passed the filter. *)
Lemma rebuild_records (fs : filesystem) (records : list iv_record)
  (fs' : filesystem) (rec : iv_record) :
  rebuild fs = (Ok records, fs') -> In rec records ->
  exists contract_map isin_to_underlying df_hist_und opt,
    iv_record_of contract_map isin_to_underlying df_hist_und opt
      = Ok (Some rec).
Proof.
  unfold rebuild.
  destruct (read_excel (fs_live_options fs)) as [df_live | e]; [| discriminate].
  destruct (read_excel (fs_hist_options fs)) as [df_hist_opt | e]; [| discriminate].
  destruct (read_excel (fs_hist_underlying fs)) as [df_hist_und | e]; [| discriminate].
  destruct (build_contract_map df_live) as [contract_map isin_to_underlying].
  destruct (Nat.eqb _ 0); [intros [= <- <-] [] |].
  destruct (Nat.eqb _ 0); [discriminate |].
  destruct (iv_records _ _ _ _) as [recs | e] eqn:Hrecs; [| discriminate].
  intros Hrun Hin.
  assert (Hin' : In rec recs).
  { destruct recs as [| r recs].
    - injection Hrun as <- <-. destruct Hin.
    - injection Hrun as <- <-. apply sort_records_In. exact Hin. }
  destruct (iv_records_In _ _ _ _ recs rec Hrecs Hin') as (opt & _ & Hrec).
  exists contract_map, isin_to_underlying, df_hist_und, opt. exact Hrec.
Qed.

End IvHistory.

(** C6.  A historical row observed at or after the expiry date of its
    contract (expiry minus observation date not positive) yields no
    record; and every record a build returns comes from a row observed
    strictly before the expiry, its days-to-expiry being the (strictly
    positive) difference of the two dates. *)
Theorem C6_expired_observations_excluded
  (contract_map : gmap string IvCalculator.contract_info)
  (isin_to_underlying : gmap string string)
  (df_hist_und : list IvCalculator.hist_underlying_row)
  (opt : IvCalculator.hist_option_row)
  (isin : string) (date_int : Z) (info : IvCalculator.contract_info)
  (fs fs' : IvCalculator.filesystem) (records : list IvCalculator.iv_record) :
  (IvCalculator.ho_source_isin opt = Some isin ->
   IvCalculator.ho_date_int opt = Some date_int ->
   contract_map !! isin = Some info ->
   (IvCalculator.ci_end_int info - date_int <= 0)%Z ->
   IvCalculator.iv_record_of contract_map isin_to_underlying df_hist_und opt
   = Ok None) /\
  (IvCalculator.build_iv_history fs = (Ok records, fs') ->
   forall rec : IvCalculator.iv_record,
     In rec records ->
     (0 < IvCalculator.days_to_expiry rec)%Z /\
     exists cm iu und src d i,
       IvCalculator.iv_record_of cm iu und src = Ok (Some rec) /\
       IvCalculator.ho_date_int src = Some d /\
       (d < IvCalculator.ci_end_int i)%Z /\
       IvCalculator.days_to_expiry rec = (IvCalculator.ci_end_int i - d)%Z).
Proof.
  split.
  - intros Hisin Hdate Hinfo Hexp.
    unfold IvCalculator.iv_record_of. rewrite Hisin, Hdate, Hinfo.
    destruct (Z.leb_spec (IvCalculator.ci_end_int info) date_int);
      [reflexivity | lia].
  - intros Hrun rec Hin.
    unfold IvCalculator.build_iv_history in Hrun.
    rewrite IvHistory.should_rebuild_always in Hrun. cbn [negb] in Hrun.
    destruct (IvHistory.rebuild_records fs records fs' rec Hrun Hin)
      as (cm & iu & und & src & Hrec).
    destruct (IvHistory.iv_record_of_Some cm iu und src rec Hrec)
      as (i' & d & i & _ & Hd & _ & Hlt & Hdays & _).
    split; [lia |].
    exists cm, iu, und, src, d, i. repeat split; assumption.
Qed.

(** A contract expiring on 1403/02/01 with ten observations in the option
    history: one before the expiry, nine on or after it. *)
Definition expiry_live : list IvCalculator.live_row :=
  [ IvCalculator.LiveRow (Num (Some 1000)) (Some 14030201%Z) "IRO1AHRM0001"
      "IRO9AHRM2501" "IRO9AHRM2401" ].

Definition call_obs (date : string) (date_int : Z) : IvCalculator.hist_option_row :=
  IvCalculator.HistOptionRow (Some "IRO9AHRM2401") date (Some date_int)
    (Num (Some 50)).

Definition expired_obs : list IvCalculator.hist_option_row :=
  [ call_obs "14030201" 14030201;
    call_obs "14030202" 14030202; call_obs "14030203" 14030203;
    call_obs "14030204" 14030204; call_obs "14030205" 14030205;
    call_obs "14030206" 14030206; call_obs "14030207" 14030207;
    call_obs "14030208" 14030208; call_obs "14030209" 14030209 ].

Definition expiry_hist_options : list IvCalculator.hist_option_row :=
  call_obs "14030115" 14030115 :: expired_obs.

Definition expiry_hist_underlying : list IvCalculator.hist_underlying_row :=
  [ IvCalculator.HistUnderlyingRow (Some "IRO1AHRM0001") (Some 14030115%Z)
      (Num (Some 1000)) ].

Definition expiry_fs : IvCalculator.filesystem :=
  IvCalculator.FileSystem (Some expiry_live) (Some expiry_hist_options)
    (Some expiry_hist_underlying) None.

Definition call_info : IvCalculator.contract_info :=
  IvCalculator.ContractInfo (Some 1000) 14030201 "CALL".

Definition expiry_contract_map : gmap string IvCalculator.contract_info :=
  <["IRO9AHRM2401" := call_info]>
    (<["IRO9AHRM2501" := IvCalculator.ContractInfo (Some 1000) 14030201 "PUT"]> ∅).

Definition expiry_underlying_map : gmap string string :=
  <["IRO9AHRM2401" := "IRO1AHRM0001"]> (<["IRO9AHRM2501" := "IRO1AHRM0001"]> ∅).

Lemma expiry_maps :
  IvCalculator.build_contract_map expiry_live
  = (expiry_contract_map, expiry_underlying_map).
Proof. reflexivity. Qed.

Lemma expiry_call_info : expiry_contract_map !! "IRO9AHRM2401" = Some call_info.
Proof. reflexivity. Qed.

Lemma expiry_call_underlying :
  expiry_underlying_map !! "IRO9AHRM2401" = Some "IRO1AHRM0001".
Proof. reflexivity. Qed.

Lemma expiry_kept :
  omap (IvCalculator.keep_hist_option expiry_contract_map) expiry_hist_options
  = expiry_hist_options.
Proof. reflexivity. Qed.

Lemma expired_obs_skipped :
  IvCalculator.iv_records expiry_contract_map expiry_underlying_map
    expiry_hist_underlying expired_obs = Ok [].
Proof. reflexivity. Qed.

(** The record of the observation made before the expiry. *)
Definition early_record : IvCalculator.iv_record :=
  let iv := IvCalculator.implied_volatility (Some 50) (Some 1000) (Some 1000)
              (of_Z (14030201 - 14030115) / Some 365)%fl
              IvCalculator.RISK_FREE_RATE "CALL" in
  let bs := if notna iv
            then IvCalculator.bs_price (Some 1000) (Some 1000)
                   (of_Z (14030201 - 14030115) / Some 365)%fl
                   IvCalculator.RISK_FREE_RATE iv "CALL"
            else nan in
  IvCalculator.IvRecord "IRO9AHRM2401" "14030115" (round (Some 50) 2)
    (round (Some 1000) 2) (Some 1000) (14030201 - 14030115) "CALL"
    (if notna iv then round iv 4 else nan)
    (if notna bs then round bs 2 else nan).

Lemma early_obs_record :
  IvCalculator.iv_record_of expiry_contract_map expiry_underlying_map
    expiry_hist_underlying (call_obs "14030115" 14030115)
  = Ok (Some early_record).
Proof.
  unfold IvCalculator.iv_record_of.
  cbn [call_obs IvCalculator.ho_source_isin IvCalculator.ho_date_int
       IvCalculator.ho_last IvCalculator.ho_date].
  rewrite expiry_call_info.
  change (IvCalculator.ci_end_int call_info) with 14030201%Z.
  change (14030201 <=? 14030115)%Z with false. cbv iota.
  cbn [cell_notna notna to_float bind].
  rewrite (fle_pos 50) by lra.
  rewrite expiry_call_underlying.
  change (String.eqb "IRO1AHRM0001" EmptyString) with false. cbv iota.
  unfold IvCalculator.underlying_price_at.
  change (IvCalculator.und_lookup expiry_hist_underlying 14030115 "IRO1AHRM0001")
    with expiry_hist_underlying.
  unfold expiry_hist_underlying.
  cbn [IvCalculator.hu_last cell_notna notna to_float bind].
  rewrite (fle_pos 1000) by lra.
  cbn [try_except]. reflexivity.
Qed.

Lemma expiry_build :
  IvCalculator.build_iv_history expiry_fs
  = (Ok [early_record], IvCalculator.with_output expiry_fs [early_record]).
Proof.
  unfold IvCalculator.build_iv_history.
  rewrite IvHistory.should_rebuild_always. cbn [negb].
  unfold IvCalculator.rebuild.
  cbn [expiry_fs IvCalculator.fs_live_options IvCalculator.fs_hist_options
       IvCalculator.fs_hist_underlying IvCalculator.read_excel].
  rewrite expiry_maps, expiry_kept.
  change (Nat.eqb (List.length expiry_hist_options) 0) with false.
  change (Nat.eqb (List.length expiry_hist_options / 10) 0) with false.
  cbv iota.
  unfold expiry_hist_options at 1.
  cbn [IvCalculator.iv_records].
  rewrite early_obs_record, expired_obs_skipped. cbn [bind].
  reflexivity.
Qed.

Lemma C6_expired_observations_excluded_witness :
  IvCalculator.iv_record_of expiry_contract_map expiry_underlying_map
    expiry_hist_underlying (call_obs "14030201" 14030201) = Ok None /\
  (0 < IvCalculator.days_to_expiry early_record)%Z.
Proof.
  destruct (C6_expired_observations_excluded
              expiry_contract_map expiry_underlying_map expiry_hist_underlying
              (call_obs "14030201" 14030201) "IRO9AHRM2401" 14030201 call_info
              expiry_fs (IvCalculator.with_output expiry_fs [early_record])
              [early_record]) as (Hnone & Hall).
  split.
  - exact (Hnone eq_refl eq_refl expiry_call_info ltac:(simpl; lia)).
  - exact (proj1 (Hall expiry_build early_record (or_introl eq_refl))).
Defined.

Lemma C1_chain_sort_order_witness :
  exists (p c : ChainCalculator.chain_row),
    ChainOrder.adjacent_in_order [p; c] /\
    ChainCalculator.type p = Some "PUT" /\
    ChainCalculator.type c = Some "CALL".
Proof.
  destruct call_put_build as (p & c & fs' & Hrun & Htp & Htc & Hd).
  exists p, c.
  split; [| split; assumption].
  exact (proj1 (C1_chain_sort_order call_put_fs [p; c] fs' eq_refl Hrun)).
Defined.

(** ** The pipeline run *)

Module Pipeline.

Import DataUpdater.

Definition successes (log : list (string * bool)) : nat :=
  List.length (filter snd log).

(** The loop runs every step, in order, whatever the outcomes, and counts
    the steps that succeeded; each step starts in the environment the
    previous one left. *)
Lemma run_steps_log (scripts : string -> script)
  (steps : list (string * string)) :
  forall (success_count : nat) (e : env),
    let '(n, e', log) := run_steps scripts steps success_count e in
    map fst log = map fst steps /\
    n = (success_count + successes log)%nat.
Proof.
  induction steps as [| [name path] steps IH]; intros k e; simpl.
  - split; [reflexivity | unfold successes; simpl; lia].
  - destruct (_run_step scripts name path e) as [ok e1].
    specialize (IH (if ok then S k else k) e1).
    destruct (run_steps scripts steps (if ok then S k else k) e1)
      as [[n e2] log].
    destruct IH as (Hnames & Hn). simpl. split.
    + f_equal. exact Hnames.
    + unfold successes in *. simpl. destruct ok; simpl; lia.
Qed.

Lemma run_steps_app (scripts : string -> script)
  (steps1 steps2 : list (string * string)) :
  forall (k : nat) (e : env),
    run_steps scripts (steps1 ++ steps2) k e
    = let '(n1, e1, log1) := run_steps scripts steps1 k e in
      let '(n2, e2, log2) := run_steps scripts steps2 n1 e1 in
      (n2, e2, log1 ++ log2).
Proof.
  induction steps1 as [| [name path] steps1 IH]; intros k e; simpl.
  - destruct (run_steps scripts steps2 k e) as [[n2 e2] log2]. reflexivity.
  - destruct (_run_step scripts name path e) as [ok e1].
    rewrite IH.
    destruct (run_steps scripts steps1 (if ok then S k else k) e1)
      as [[n1 e1'] log1].
    destruct (run_steps scripts steps2 n1 e1') as [[n2 e2] log2].
    reflexivity.
Qed.

(** What running one stage amounts to: a script that loads is run by its
    [main] and succeeds exactly when [main] returns, leaving the
    environment [main] left; a script without [main] succeeds without
    running anything; a script that is missing or does not load fails. *)
Inductive stage_runs (scripts : string -> script) (path : string) (e : env)
  : bool -> env -> Prop :=
| stage_returns (main : env -> result unit * env) (e' : env) :
    scripts path = Main main -> main e = (Ok tt, e') ->
    stage_runs scripts path e true e'
| stage_raises (main : env -> result unit * env) (ex : exn) (e' : env) :
    scripts path = Main main -> main e = (Raise ex, e') ->
    stage_runs scripts path e false e'
| stage_without_main :
    scripts path = NoMain -> stage_runs scripts path e true e
| stage_not_found :
    scripts path = NotFound -> stage_runs scripts path e false e
| stage_import_fails :
    scripts path = ImportFails -> stage_runs scripts path e false e.

(** Every stage of the list is run, in order, each in the environment the
    previous one left, whatever the outcomes before it. *)
Inductive stages_run (scripts : string -> script)
  : list (string * string) -> env -> list (string * bool) -> env -> Prop :=
| stages_done (e : env) : stages_run scripts [] e [] e
| stages_next (name path : string) (steps : list (string * string))
    (e e1 e2 : env) (ok : bool) (log : list (string * bool)) :
    stage_runs scripts path e ok e1 ->
    stages_run scripts steps e1 log e2 ->
    stages_run scripts ((name, path) :: steps) e ((name, ok) :: log) e2.

Lemma run_step_stage (scripts : string -> script) (name path : string)
  (e : env) :
  stage_runs scripts path e (fst (_run_step scripts name path e))
    (snd (_run_step scripts name path e)).
Proof.
  unfold _run_step.
  destruct (scripts path) as [| | | main] eqn:Hscript; cbn [fst snd].
  - apply stage_not_found. exact Hscript.
  - apply stage_import_fails. exact Hscript.
  - apply stage_without_main. exact Hscript.
  - destruct (main e) as [[[] | ex] e'] eqn:Hmain; cbn [fst snd].
    + eapply stage_returns; eassumption.
    + eapply stage_raises; eassumption.
Qed.

Lemma run_steps_stages (scripts : string -> script)
  (steps : list (string * string)) :
  forall (success_count : nat) (e : env),
    let '(n, e', log) := run_steps scripts steps success_count e in
    stages_run scripts steps e log e'.
Proof.
  induction steps as [| [name path] steps IH]; intros k e; simpl.
  - constructor.
  - pose proof (run_step_stage scripts name path e) as Hstage.
    destruct (_run_step scripts name path e) as [ok e1].
    specialize (IH (if ok then S k else k) e1).
    destruct (run_steps scripts steps (if ok then S k else k) e1)
      as [[n e2] log].
    econstructor; eassumption.
Qed.

End Pipeline.

(** C7.  A pipeline run runs every step of the sequence, in order, each
    by the [main] of its script and in the environment the previous step
    left, whether or not earlier steps failed: a step succeeds exactly
    when its script loads and its [main] returns (or the script has no
    [main]), and fails when the script is missing, does not load or its
    [main] raises.  Afterwards the status string is "Success (k/n)" when
    all [n] steps succeeded and "Failed (k/n)" otherwise, with [k] the
    number of steps that succeeded; the next run is scheduled at the time
    read after the last step plus the interval; the run start and the
    time of the update are recorded.  For the updater as constructed, the
    steps are the four scripts, in their fixed order. *)
Theorem C7_pipeline_runs_all_stages
  (strftime : R -> string) (scripts : string -> DataUpdater.script)
  (self : DataUpdater.updater) (e : DataUpdater.env) :
  let '(self', e', log) := DataUpdater._run_pipeline strftime scripts self e in
  let k := Pipeline.successes log in
  let n := List.length (DataUpdater.steps self) in
  Pipeline.stages_run scripts (DataUpdater.steps self) e log e' /\
  DataUpdater.status self'
    = ((if (k =? n)%nat then "Success (" else "Failed (")
       ++ DataUpdater.str_of_nat k ++ "/" ++ DataUpdater.str_of_nat n ++ ")")
      %string /\
  DataUpdater._next_run_time self'
    = DataUpdater.clock e' + IZR (DataUpdater.interval self) /\
  DataUpdater.last_run_start self' = DataUpdater.clock e /\
  DataUpdater.last_update self' = Some (strftime (DataUpdater.clock e')) /\
  DataUpdater.steps (DataUpdater.init (DataUpdater.interval self))
  = [("data_fetcher", "Scripts/data_fetcher.py");
     ("date_processor", "Scripts/date_processor.py");
     ("chain_calculator", "Scripts/chain_calculator.py");
     ("iv_calculator", "Scripts/iv_calculator.py")].
Proof.
  unfold DataUpdater._run_pipeline. cbn [DataUpdater.steps DataUpdater.interval].
  pose proof (Pipeline.run_steps_log scripts (DataUpdater.steps self) 0 e) as H.
  pose proof (Pipeline.run_steps_stages scripts (DataUpdater.steps self) 0 e)
    as Hstages.
  destruct (DataUpdater.run_steps scripts (DataUpdater.steps self) 0 e)
    as [[k e'] log].
  destruct H as (Hnames & Hk). simpl in Hk. subst k.
  cbn [DataUpdater.status DataUpdater._next_run_time
       DataUpdater.last_run_start DataUpdater.last_update].
  split; [exact Hstages |].
  split; [| repeat split].
  unfold DataUpdater.final_status.
  destruct (Nat.eqb _ _); reflexivity.
Qed.

(** A run in which the fetch script is missing and the option files are
    absent: the first step fails, the three others are still run by their
    [main]; the chain build returns an empty table, the IV build raises on
    the missing workbook and is counted as failed. *)
Definition failing_run_scripts : string -> DataUpdater.script :=
  DataUpdater.repository_scripts DataUpdater.NotFound DataUpdater.NoMain.

Definition failing_run_env : DataUpdater.env :=
  DataUpdater.Env 0
    (ChainCalculator.FileSystem None None None None None)
    (IvCalculator.FileSystem None None None None).

Lemma C7_pipeline_runs_all_stages_witness :
  Pipeline.stages_run failing_run_scripts
    (DataUpdater.steps (DataUpdater.init 300)) failing_run_env
    [("data_fetcher", false); ("date_processor", true);
     ("chain_calculator", true); ("iv_calculator", false)]
    failing_run_env /\
  DataUpdater.status
    (fst (fst (DataUpdater._run_pipeline (fun _ => "now") failing_run_scripts
                 (DataUpdater.init 300) failing_run_env)))
  = "Failed (2/4)".
Proof.
  pose proof (C7_pipeline_runs_all_stages (fun _ => "now") failing_run_scripts
                (DataUpdater.init 300) failing_run_env) as H.
  split; [exact (proj1 H) | exact (proj1 (proj2 H))].
Defined.

(** A run in which the fetch script is missing and the option files are
    absent: all four steps run; the chain build returns an empty table,
    the IV build raises on the missing workbook and is counted as failed. *)
Example pipeline_run_with_failures :
  let scripts := DataUpdater.repository_scripts DataUpdater.NotFound
                   DataUpdater.NoMain in
  let e := DataUpdater.Env 0
             (ChainCalculator.FileSystem None None None None None)
             (IvCalculator.FileSystem None None None None) in
  let '(self', _, log) :=
    DataUpdater._run_pipeline (fun _ => "now") scripts (DataUpdater.init 300) e in
  log = [("data_fetcher", false); ("date_processor", true);
         ("chain_calculator", true); ("iv_calculator", false)] /\
  DataUpdater.status self' = "Failed (2/4)".
Proof. split; reflexivity. Qed.

(** ** Missing inputs and the staleness gate of the chain build *)

Module ChainGate.

Import ChainCalculator.

Lemma should_rebuild_false_output (fs : filesystem) :
  should_rebuild fs = false -> exists artifact, fs_output fs = Some artifact.
Proof.
  unfold should_rebuild.
  destruct (fs_output fs) as [artifact |]; [eauto | discriminate].
Qed.

Lemma sort_values_nonempty (x : chain_row) (rows : list chain_row) :
  sort_values (x :: rows) <> [].
Proof.
  intros E. pose proof (ChainOrder.sort_values_perm (x :: rows)) as Hp.
  rewrite E in Hp. apply Permutation_sym, Permutation_nil in Hp. discriminate.
Qed.

(** A build that changes the artifact writes a table with at least one
    row. *)
Lemma written_artifact_nonempty (fs fs' : filesystem)
  (r : result (list chain_row)) :
  build_chain fs = (r, fs') -> fs_output fs' <> fs_output fs ->
  exists rows, fs_output fs' = Some rows /\ r = Ok rows /\ rows <> [].
Proof.
  unfold build_chain.
  destruct (should_rebuild fs); cbn [negb].
  - destruct (fs_live fs) as [live |] eqn:Hlive;
      [| intros [= <- <-] H; contradiction].
    destruct (build_hv_cache _ _) as [hv_cache | e];
      [| intros [= <- <-] H; contradiction].
    destruct (omap _ (lf_rows live)) as [| x xs];
      [intros [= <- <-] H; contradiction |].
    intros [= <- <-] _.
    exists (sort_values (x :: xs)). split; [| split].
    + unfold save_hash. cbn [fs_live fs_output file_hash].
      destruct (String.eqb (lf_digest live) EmptyString); reflexivity.
    + reflexivity.
    + apply sort_values_nonempty.
  - destruct (fs_output fs) eqn:E; intros [= <- <-] H; congruence.
Qed.

(** The files with the underlying history, respectively the live
    underlying table, replaced by a table without rows. *)
Definition with_empty_history (fs : filesystem) : filesystem :=
  FileSystem (fs_live fs) (Some []) (fs_underlying_live fs) (fs_output fs)
             (fs_hash fs).

Definition with_empty_underlying_live (fs : filesystem) : filesystem :=
  FileSystem (fs_live fs) (fs_history fs) (Some []) (fs_output fs) (fs_hash fs).

End ChainGate.

(** C10.  When the chain artifact exists and the live options file is
    absent, [should_rebuild] answers "not stale" and [build_chain] returns
    the artifact as stored and leaves every file as it was; in particular
    a stored artifact with rows is not replaced by an empty result. *)
Theorem C10_absent_live_returns_artifact
  (fs : ChainCalculator.filesystem)
  (artifact : list ChainCalculator.chain_row) :
  ChainCalculator.fs_output fs = Some artifact ->
  ChainCalculator.fs_live fs = None ->
  ChainCalculator.should_rebuild fs = false /\
  ChainCalculator.build_chain fs = (Ok artifact, fs) /\
  (artifact <> [] -> fst (ChainCalculator.build_chain fs) <> Ok []).
Proof.
  intros Hout Hlive.
  assert (Hgate : ChainCalculator.should_rebuild fs = false).
  { unfold ChainCalculator.should_rebuild. rewrite Hout, Hlive. reflexivity. }
  assert (Hrun : ChainCalculator.build_chain fs = (Ok artifact, fs)).
  { unfold ChainCalculator.build_chain. rewrite Hgate, Hout. reflexivity. }
  split; [exact Hgate | split; [exact Hrun |]].
  rewrite Hrun. cbn [fst]. intros Hne [= E]. contradiction.
Qed.

(** A stored artifact of one row, and no live options file. *)
Definition stored_row : ChainCalculator.chain_row :=
  ChainCalculator.ChainRow "IRO9AHRM2401" "ZAHRM1" "call option"
    (Some "CALL")
    (Some 1000) 30 "14030101" "14030201" (Some 50) (Some 50) (Some 52.5)
    (Some (-0.0476)) (Some 0.31) (Some 0.55) (Some 0.004) (Some (-1.2))
    (Some 1.1) (Some 0.4) nan nan nan (Some 0.3) 12 340 75 (Some 1000)
    "IRO1AHRM0001" "AHRM" 1000.

Definition stale_fs : ChainCalculator.filesystem :=
  ChainCalculator.FileSystem None None None (Some [stored_row]) (Some "9f2c").

Lemma C10_absent_live_returns_artifact_witness :
  ChainCalculator.should_rebuild stale_fs = false /\
  ChainCalculator.build_chain stale_fs = (Ok [stored_row], stale_fs) /\
  ([stored_row] <> [] ->
   fst (ChainCalculator.build_chain stale_fs) <> Ok []).
Proof.
  exact (C10_absent_live_returns_artifact stale_fs [stored_row] eq_refl eq_refl).
Defined.

(** C8 (as the code has it).  Without the live options table the chain
    build does not raise: it returns the empty table when no artifact is
    stored and the stored artifact otherwise, and writes nothing.  Without
    the underlying history it does not raise either: it returns the table
    it returns for a history without rows.  An absent live underlying
    table is read as a table without rows: the build gives the result it
    gives for an empty one, which is a table whenever the volatility
    estimates of the history are computed without an exception. *)
Theorem C8_chain_build_absent_inputs (fs : ChainCalculator.filesystem) :
  (ChainCalculator.fs_live fs = None ->
   ChainCalculator.build_chain fs
   = (Ok (ChainCalculator.read_or_empty (ChainCalculator.fs_output fs)), fs)) /\
  (ChainCalculator.fs_history fs = None ->
   fst (ChainCalculator.build_chain fs)
   = fst (ChainCalculator.build_chain (ChainGate.with_empty_history fs)) /\
   exists rows, fst (ChainCalculator.build_chain fs) = Ok rows) /\
  (ChainCalculator.fs_underlying_live fs = None ->
   fst (ChainCalculator.build_chain fs)
   = fst (ChainCalculator.build_chain (ChainGate.with_empty_underlying_live fs)) /\
   forall (live : ChainCalculator.live_file)
          (hv_cache : gmap string ChainCalculator.hv_tuple),
     ChainCalculator.fs_live fs = Some live ->
     ChainCalculator.build_hv_cache (ChainCalculator.lf_rows live)
       (ChainCalculator.read_or_empty (ChainCalculator.fs_history fs))
     = Ok hv_cache ->
     exists rows, fst (ChainCalculator.build_chain fs) = Ok rows).
Proof.
  split; [| split].
  - intros Hlive. unfold ChainCalculator.build_chain, ChainCalculator.should_rebuild.
    rewrite Hlive. destruct (ChainCalculator.fs_output fs); reflexivity.
  - intros Hhist. split.
    + unfold ChainCalculator.build_chain, ChainGate.with_empty_history.
      change (ChainCalculator.should_rebuild (ChainCalculator.FileSystem _ _ _ _ _))
        with (ChainCalculator.should_rebuild fs).
      cbn [ChainCalculator.fs_live ChainCalculator.fs_history
           ChainCalculator.fs_underlying_live ChainCalculator.fs_output
           ChainCalculator.fs_hash].
      rewrite Hhist. cbn [ChainCalculator.read_or_empty].
      destruct (negb (ChainCalculator.should_rebuild fs)).
      * destruct (ChainCalculator.fs_output fs); reflexivity.
      * destruct (ChainCalculator.fs_live fs) as [live |]; [| reflexivity].
        destruct (ChainCalculator.build_hv_cache _ _); [| reflexivity].
        destruct (omap _ _); reflexivity.
    + unfold ChainCalculator.build_chain.
      destruct (ChainCalculator.should_rebuild fs) eqn:Hgate; cbn [negb].
      * destruct (ChainCalculator.fs_live fs) as [live |]; [| eauto].
        rewrite Hhist. cbn [ChainCalculator.read_or_empty].
        unfold ChainCalculator.build_hv_cache.
        destruct (omap _ _); cbn [fst]; eauto.
      * destruct (ChainGate.should_rebuild_false_output fs Hgate) as (a & ->).
        eauto.
  - intros Hund. split.
    + unfold ChainCalculator.build_chain, ChainGate.with_empty_underlying_live.
      change (ChainCalculator.should_rebuild (ChainCalculator.FileSystem _ _ _ _ _))
        with (ChainCalculator.should_rebuild fs).
      cbn [ChainCalculator.fs_live ChainCalculator.fs_history
           ChainCalculator.fs_underlying_live ChainCalculator.fs_output
           ChainCalculator.fs_hash].
      rewrite Hund. cbn [ChainCalculator.read_or_empty].
      destruct (negb (ChainCalculator.should_rebuild fs)).
      * destruct (ChainCalculator.fs_output fs); reflexivity.
      * destruct (ChainCalculator.fs_live fs) as [live |]; [| reflexivity].
        destruct (ChainCalculator.build_hv_cache _ _); [| reflexivity].
        destruct (omap _ _); reflexivity.
    + intros live hv_cache Hlive Hcache.
      unfold ChainCalculator.build_chain.
      destruct (ChainCalculator.should_rebuild fs) eqn:Hgate; cbn [negb].
      * rewrite Hlive. cbv zeta. rewrite Hcache.
        destruct (omap _ _); cbn [fst]; eauto.
      * destruct (ChainGate.should_rebuild_false_output fs Hgate) as (a & ->).
        eauto.
Qed.

(** No file at all. *)
Definition no_chain_files : ChainCalculator.filesystem :=
  ChainCalculator.FileSystem None None None None None.

(** With no file at all the build returns the empty table; with the live
    options table alone (one CALL and one PUT) it returns a table. *)
Lemma C8_chain_build_absent_inputs_witness :
  ChainCalculator.build_chain no_chain_files = (Ok [], no_chain_files) /\
  fst (ChainCalculator.build_chain call_put_fs)
  = fst (ChainCalculator.build_chain (ChainGate.with_empty_history call_put_fs)) /\
  fst (ChainCalculator.build_chain call_put_fs)
  = fst (ChainCalculator.build_chain
           (ChainGate.with_empty_underlying_live call_put_fs)) /\
  (exists rows, fst (ChainCalculator.build_chain call_put_fs) = Ok rows).
Proof.
  destruct (C8_chain_build_absent_inputs no_chain_files) as (H1 & _).
  destruct (C8_chain_build_absent_inputs call_put_fs) as (_ & H2 & H3).
  split; [exact (H1 eq_refl) | split; [| split]].
  - exact (proj1 (H2 eq_refl)).
  - exact (proj1 (H3 eq_refl)).
  - exact (proj2 (H3 eq_refl)
             (ChainCalculator.LiveFile "9f2c" call_put_live) ∅
             eq_refl eq_refl).
Defined.

(** Against "an empty result, never an exception": with a stored artifact
    and no live options table the chain build returns the artifact, which
    has a row; and the IV history build raises [FileNotFoundError] when
    its workbooks are absent. *)
Lemma C8_absent_input_counterexample :
  ChainCalculator.fs_live stale_fs = None /\
  ChainCalculator.build_chain stale_fs = (Ok [stored_row], stale_fs) /\
  [stored_row] <> [] /\
  IvCalculator.fs_live_options (IvCalculator.FileSystem None None None None)
  = None /\
  IvCalculator.build_iv_history (IvCalculator.FileSystem None None None None)
  = (Raise FileNotFoundError, IvCalculator.FileSystem None None None None).
Proof.
  repeat split; try reflexivity. discriminate.
Qed.

(* ================================================================== *)
(** * Further properties of the builders, the estimator and the scheduler *)
(* ================================================================== *)

(** ** The chain table: content, order and cache *)

Module ChainTable.

Import ChainCalculator ChainOrder.

Lemma omap_length_le {A B : Type} (f : A -> option B) (l : list A) :
  (List.length (omap f l) <= List.length l)%nat.
Proof.
  induction l as [| x l IH]; [apply Nat.le_refl |].
  cbn [omap list_omap List.length]. fold (omap f l).
  destruct (f x); cbn [List.length].
  - apply le_n_S. exact IH.
  - apply Nat.le_le_succ_r. exact IH.
Qed.

(** Sortedness for the comparison the sort itself uses. *)
Definition in_sort_order (a b : chain_row) : Prop := row_leb a b = true.

Lemma insert_row_in_order (x : chain_row) (l : list chain_row) :
  Sorted in_sort_order l -> Sorted in_sort_order (insert_row x l).
Proof.
  induction 1 as [| y l Hs IH Hhd]; simpl.
  - repeat constructor.
  - destruct (row_leb x y) eqn:Hxy.
    + constructor; [constructor; assumption | constructor; exact Hxy].
    + constructor; [exact IH |].
      destruct l as [| z l]; simpl.
      * constructor. apply row_leb_total. exact Hxy.
      * destruct (row_leb x z); constructor.
        -- apply row_leb_total. exact Hxy.
        -- inversion Hhd; assumption.
Qed.

Lemma sort_values_in_order (rows : list chain_row) :
  Sorted in_sort_order (sort_values rows).
Proof.
  induction rows as [| x rows IH]; simpl; [constructor |].
  apply insert_row_in_order. exact IH.
Qed.

Lemma sort_values_fixed (rows : list chain_row) :
  Sorted in_sort_order rows -> sort_values rows = rows.
Proof.
  induction 1 as [| x l Hs IH Hhd]; [reflexivity |].
  change (sort_values (x :: l)) with (insert_row x (sort_values l)).
  rewrite IH. destruct Hhd as [| y l Hxy]; simpl; [reflexivity |].
  unfold in_sort_order in Hxy. rewrite Hxy. reflexivity.
Qed.

End ChainTable.

(** X1.  The table of a chain build holds exactly the rows of the live
    table that were not skipped, each once, in some order: it is a
    permutation of the processed rows, and never longer than the live
    table. *)
Theorem X1_chain_table_rows
  (fs fs' : ChainCalculator.filesystem) (live : ChainCalculator.live_file)
  (rows : list ChainCalculator.chain_row) :
  ChainCalculator.should_rebuild fs = true ->
  ChainCalculator.fs_live fs = Some live ->
  ChainCalculator.build_chain fs = (Ok rows, fs') ->
  exists hv_cache,
    ChainCalculator.build_hv_cache (ChainCalculator.lf_rows live)
      (ChainCalculator.read_or_empty (ChainCalculator.fs_history fs))
    = Ok hv_cache /\
    Permutation
      (omap (ChainCalculator.process_contract hv_cache
               (ChainCalculator.build_price_map
                  (ChainCalculator.read_or_empty
                     (ChainCalculator.fs_underlying_live fs))))
            (ChainCalculator.lf_rows live))
      rows /\
    (List.length rows <= List.length (ChainCalculator.lf_rows live))%nat.
Proof.
  intros Hre Hlive. unfold ChainCalculator.build_chain.
  rewrite Hre, Hlive. cbn [negb].
  destruct (ChainCalculator.build_hv_cache _ _) as [hv_cache | e];
    [| discriminate].
  intros Hrun. exists hv_cache. split; [reflexivity |].
  set (processed := omap _ (ChainCalculator.lf_rows live)) in *.
  assert (Hrows : rows = ChainCalculator.sort_values processed).
  { destruct processed as [| x xs]; injection Hrun as <- _; reflexivity. }
  subst rows. split.
  - apply ChainOrder.sort_values_perm.
  - rewrite <- (Permutation_length (ChainOrder.sort_values_perm processed)).
    apply ChainTable.omap_length_le.
Qed.

Lemma X1_chain_table_rows_witness :
  exists (p c : ChainCalculator.chain_row) hv_cache,
    Permutation
      (omap (ChainCalculator.process_contract hv_cache
               (ChainCalculator.build_price_map []))
            call_put_live)
      [p; c].
Proof.
  destruct call_put_build as (p & c & fs' & Hrun & _).
  destruct (X1_chain_table_rows call_put_fs fs'
              (ChainCalculator.LiveFile "9f2c" call_put_live) [p; c]
              eq_refl eq_refl Hrun) as (hv & _ & Hperm & _).
  exists p, c, hv. exact Hperm.
Defined.

(** X2.  Sorting is idempotent: sorting a table that [sort_values]
    produced gives the same table, rows with equal keys included. *)
Theorem X2_sort_values_idempotent (rows : list ChainCalculator.chain_row) :
  ChainCalculator.sort_values (ChainCalculator.sort_values rows)
  = ChainCalculator.sort_values rows.
Proof.
  apply ChainTable.sort_values_fixed, ChainTable.sort_values_in_order.
Qed.

(** X3.  Cache round trip.  After a build that wrote a table, with a
    digest that is not empty and has no surrounding white space (a hex
    digest), the gate reports "not stale" and a second build returns the
    same table and changes no file; replacing the live file by one with
    another digest makes the gate ask for a rebuild. *)
Theorem X3_chain_cache_round_trip
  (fs fs' : ChainCalculator.filesystem) (live : ChainCalculator.live_file)
  (rows : list ChainCalculator.chain_row) :
  ChainCalculator.should_rebuild fs = true ->
  ChainCalculator.fs_live fs = Some live ->
  ChainCalculator.lf_digest live <> EmptyString ->
  strip (ChainCalculator.lf_digest live) = ChainCalculator.lf_digest live ->
  ChainCalculator.build_chain fs = (Ok rows, fs') ->
  rows <> [] ->
  ChainCalculator.should_rebuild fs' = false /\
  ChainCalculator.build_chain fs' = (Ok rows, fs') /\
  (forall live2 : ChainCalculator.live_file,
     ChainCalculator.lf_digest live2 <> ChainCalculator.lf_digest live ->
     ChainCalculator.should_rebuild
       (ChainCalculator.FileSystem (Some live2)
          (ChainCalculator.fs_history fs')
          (ChainCalculator.fs_underlying_live fs')
          (ChainCalculator.fs_output fs') (ChainCalculator.fs_hash fs'))
     = true).
Proof.
  intros Hre Hlive Hne Hstrip Hrun Hrows.
  assert (Hfs' : fs' = ChainCalculator.FileSystem (Some live)
                         (ChainCalculator.fs_history fs)
                         (ChainCalculator.fs_underlying_live fs)
                         (Some rows) (Some (ChainCalculator.lf_digest live))).
  { revert Hrun. unfold ChainCalculator.build_chain.
    rewrite Hre, Hlive. cbn [negb].
    destruct (ChainCalculator.build_hv_cache _ _) as [hv_cache | e];
      [| discriminate].
    destruct (omap _ (ChainCalculator.lf_rows live)) as [| x xs].
    - intros [= <- _]. contradiction.
    - intros [= <- <-]. unfold ChainCalculator.save_hash.
      cbn [ChainCalculator.fs_live ChainCalculator.file_hash].
      apply String.eqb_neq in Hne. rewrite Hne. reflexivity. }
  assert (Hgate : ChainCalculator.should_rebuild fs' = false).
  { subst fs'. unfold ChainCalculator.should_rebuild.
    cbn [ChainCalculator.fs_output ChainCalculator.fs_live
         ChainCalculator.fs_hash ChainCalculator.file_hash].
    rewrite Hstrip, String.eqb_refl. reflexivity. }
  split; [exact Hgate | split].
  - unfold ChainCalculator.build_chain. rewrite Hgate. cbn [negb].
    subst fs'. reflexivity.
  - intros live2 Hdiff. subst fs'. unfold ChainCalculator.should_rebuild.
    cbn [ChainCalculator.fs_output ChainCalculator.fs_live
         ChainCalculator.fs_hash ChainCalculator.file_hash].
    rewrite Hstrip. apply String.eqb_neq in Hdiff. rewrite Hdiff. reflexivity.
Qed.

Lemma X3_chain_cache_round_trip_witness :
  exists (fs' : ChainCalculator.filesystem)
         (rows : list ChainCalculator.chain_row),
    ChainCalculator.build_chain call_put_fs = (Ok rows, fs') /\
    ChainCalculator.should_rebuild fs' = false /\
    ChainCalculator.build_chain fs' = (Ok rows, fs').
Proof.
  destruct call_put_build as (p & c & fs' & Hrun & _).
  exists fs', [p; c].
  destruct (X3_chain_cache_round_trip call_put_fs fs'
              (ChainCalculator.LiveFile "9f2c" call_put_live) [p; c]
              eq_refl eq_refl ltac:(discriminate) eq_refl Hrun
              ltac:(discriminate)) as (Hgate & Hagain & _).
  repeat split; assumption.
Defined.

(** X4.  A build changes the stored chain artifact only by writing a
    table with at least one row, which is also the table it returns: a
    build that ends with no row, or that raises, leaves the artifact as
    it was. *)
Theorem X4_artifact_written_only_with_rows
  (fs fs' : ChainCalculator.filesystem)
  (r : result (list ChainCalculator.chain_row)) :
  ChainCalculator.build_chain fs = (r, fs') ->
  ChainCalculator.fs_output fs' <> ChainCalculator.fs_output fs ->
  exists rows,
    ChainCalculator.fs_output fs' = Some rows /\ r = Ok rows /\ rows <> [].
Proof. apply ChainGate.written_artifact_nonempty. Qed.

Lemma X4_artifact_written_only_with_rows_witness :
  exists (fs' : ChainCalculator.filesystem)
         (rows : list ChainCalculator.chain_row),
    ChainCalculator.fs_output fs' = Some rows /\ rows <> [].
Proof.
  destruct call_put_build as (p & c & fs' & Hrun & _).
  assert (Hout : ChainCalculator.fs_output fs' = Some [p; c]).
  { revert Hrun. unfold ChainCalculator.build_chain.
    change (ChainCalculator.should_rebuild call_put_fs) with true.
    cbn [negb call_put_fs ChainCalculator.fs_live].
    destruct (ChainCalculator.build_hv_cache _ _); [| discriminate].
    destruct (omap _ _); [discriminate |].
    intros [= Hrows <-]. rewrite <- Hrows. reflexivity. }
  destruct (X4_artifact_written_only_with_rows call_put_fs fs' (Ok [p; c]) Hrun)
    as (rows & Hrows & _ & Hne).
  - rewrite Hout. discriminate.
  - exists fs', rows. split; assumption.
Defined.

(** ** The volatility estimator on particular series *)

Module HVSeries.

Import ChainCalculator.

(** *** [strip] is idempotent *)

Lemma lstrip_list_head (l : list ascii) :
  match lstrip_list l with
  | [] => True
  | a :: _ => is_space a = false
  end.
Proof.
  induction l as [| a l IH]; simpl; [exact I |].
  destruct (is_space a) eqn:Ha; [exact IH | exact Ha].
Qed.

Lemma lstrip_list_suffix (l : list ascii) :
  exists pre, l = pre ++ lstrip_list l.
Proof.
  induction l as [| a l (pre & IH)]; simpl.
  - exists []. reflexivity.
  - destruct (is_space a).
    + exists (a :: pre). simpl. f_equal. exact IH.
    + exists []. reflexivity.
Qed.

Lemma lstrip_list_fixed (l : list ascii) :
  match l with [] => True | a :: _ => is_space a = false end ->
  lstrip_list l = l.
Proof.
  destruct l as [| a l]; simpl; [reflexivity |].
  intros ->. reflexivity.
Qed.

Lemma lstrip_list_idempotent (l : list ascii) :
  lstrip_list (lstrip_list l) = lstrip_list l.
Proof. apply lstrip_list_fixed, lstrip_list_head. Qed.

Lemma strip_idempotent (s : string) : strip (strip s) = strip s.
Proof.
  unfold strip. rewrite list_ascii_of_string_of_list_ascii.
  set (A := lstrip_list (list_ascii_of_string s)).
  set (B := lstrip_list (rev A)).
  assert (HR : lstrip_list (rev B) = rev B).
  { apply lstrip_list_fixed.
    destruct (lstrip_list_suffix (rev A)) as (pre & Hpre). fold B in Hpre.
    assert (HA : A = rev B ++ rev pre).
    { rewrite <- (rev_involutive A), Hpre, rev_app_distr. reflexivity. }
    pose proof (lstrip_list_head (list_ascii_of_string s)) as Hhead.
    fold A in Hhead. rewrite HA in Hhead.
    destruct (rev B) as [| a t]; [exact I | exact Hhead]. }
  rewrite HR, rev_involutive.
  unfold B at 1. rewrite lstrip_list_idempotent. reflexivity.
Qed.

(** *** Rows that share one price *)

Lemma insert_by_date_Forall (P : Z * float -> Prop) x l :
  P x -> Forall P l -> Forall P (insert_by_date x l).
Proof.
  intros Hx. induction 1 as [| y l Hy Hl IH]; simpl.
  - repeat constructor. exact Hx.
  - destruct (fst x <=? fst y)%Z; repeat constructor; assumption.
Qed.

Lemma sort_by_date_Forall (P : Z * float -> Prop) l :
  Forall P l -> Forall P (sort_by_date l).
Proof.
  induction 1 as [| x l Hx Hl IH]; simpl; [constructor |].
  apply insert_by_date_Forall; assumption.
Qed.

Lemma drop_duplicates_seen_Forall (P : Z * float -> Prop) l :
  Forall P l -> forall seen, Forall P (drop_duplicates_seen seen l).
Proof.
  induction 1 as [| x l Hx Hl IH]; intros seen; simpl; [constructor |].
  destruct (existsb _ seen); [apply IH | constructor; [exact Hx | apply IH]].
Qed.

Lemma dated_Forall (p : float) (rows : list history_row) :
  Forall (fun h => hr_last h = p) rows ->
  forall hist, dated rows = Ok hist -> Forall (fun x => snd x = p) hist.
Proof.
  induction 1 as [| h rows Hh Hrows IH]; intros hist; simpl.
  - intros [= <-]. constructor.
  - destruct (hr_date h); [| discriminate].
    destruct (dated rows) as [l |]; [| discriminate].
    cbn [bind]. intros [= <-]. constructor; [exact Hh | apply IH; reflexivity].
Qed.

Lemma valid_prices_same (p : R) (l : list (Z * float)) :
  0 < p -> Forall (fun x => snd x = Some p) l ->
  valid_prices l = repeat p (List.length l).
Proof.
  intros Hp. induction 1 as [| [d v] l Hx Hl IH]; simpl; [reflexivity |].
  simpl in Hx. subst v.
  destruct (Rlt_dec 0 p); [| contradiction]. f_equal. exact IH.
Qed.

Lemma log_ratio_same (p : R) (n : nat) :
  0 < p -> dropna (log_ratio_from p (repeat p n)) = repeat 0 n.
Proof.
  intros Hp. induction n as [| n IH]; [reflexivity |].
  cbn [repeat log_ratio_from].
  rewrite fdiv_Some by lra.
  replace (p / p) with 1 by (field; lra).
  rewrite flog_Some by lra. rewrite ln_1.
  cbn [dropna]. f_equal. exact IH.
Qed.

Lemma sum_R_zeros (n : nat) : sum_R (repeat 0 n) = 0.
Proof.
  induction n as [| n IH]; [reflexivity |].
  change (sum_R (repeat 0 (S n))) with (0 + sum_R (repeat 0 n)).
  rewrite IH. lra.
Qed.

Lemma std_zeros (n : nat) : (2 <= n)%nat -> std (repeat 0 n) = Some 0.
Proof.
  intros Hn. unfold std. rewrite repeat_length.
  destruct (Nat.ltb_spec n 2); [lia |].
  f_equal. unfold mean_R. rewrite sum_R_zeros, repeat_length.
  replace (0 / INR n) with 0 by (unfold Rdiv; ring).
  assert (E : map (fun x => (x - 0) * (x - 0)) (repeat 0 n) = repeat 0 n).
  { clear. induction n as [| n IH]; simpl; [reflexivity |].
    rewrite IH. f_equal. ring. }
  rewrite E, sum_R_zeros.
  replace (0 / (INR n - 1)) with 0 by (unfold Rdiv; ring).
  apply sqrt_0.
Qed.

Lemma annualized_zero : annualized (Some 0) = Some 0.
Proof.
  unfold annualized. rewrite fsqrt_Some by lra.
  cbn [fmul lift2]. f_equal. ring.
Qed.

Lemma last_n_repeat {A : Type} (x : A) (k n : nat) :
  (k <= n)%nat -> last_n k (repeat x n) = repeat x k.
Proof.
  intros Hk. unfold last_n. rewrite repeat_length.
  replace n with ((n - k) + k)%nat at 2 by lia.
  rewrite repeat_app, skipn_app, repeat_length.
  rewrite Nat.sub_diag. cbn [skipn].
  rewrite skipn_all2 by (rewrite repeat_length; lia). reflexivity.
Qed.

(** The volatilities of [m >= 2] returns that are all zero. *)
Lemma hv_of_zero_returns (m : nat) :
  (2 <= m)%nat ->
  hv_of_returns (repeat 0 m)
  = (if (30 <=? m)%nat then Some 0 else nan,
     if (90 <=? m)%nat then Some 0 else nan,
     Some 0, Some 0).
Proof.
  intros Hm. unfold hv_of_returns. rewrite repeat_length.
  destruct (Nat.eqb_spec m 0) as [E | _]; [lia |].
  rewrite (std_zeros m Hm), annualized_zero.
  destruct (Nat.leb_spec 30 m) as [H30 | H30];
    destruct (Nat.leb_spec 90 m) as [H90 | H90]; try lia;
    rewrite ?last_n_repeat by lia;
    rewrite ?std_zeros by lia; rewrite ?annualized_zero;
    unfold nan; cbn [dropna]; unfold mean_R;
    cbn [List.length sum_R fold_right INR];
    repeat f_equal; lra.
Qed.

(** *** Scaling every price *)

(** The history with every price multiplied by [c]. *)
Definition scale_row (c : R) (h : history_row) : history_row :=
  HistoryRow (hr_isin h) (hr_date h) (Some c * hr_last h)%fl.

Definition scale_dated (c : R) (x : Z * float) : Z * float :=
  (fst x, (Some c * snd x)%fl).

Lemma filter_scale (c : R) (u : string) (rows : list history_row) :
  filter (same_isin u) (map (scale_row c) rows)
  = map (scale_row c) (filter (same_isin u) rows).
Proof.
  induction rows as [| h rows IH]; [reflexivity |].
  cbn [map filter].
  change (same_isin u (scale_row c h)) with (same_isin u h).
  destruct (same_isin u h); cbn [map]; rewrite IH; reflexivity.
Qed.

Lemma dated_scale (c : R) (rows : list history_row) :
  dated (map (scale_row c) rows)
  = match dated rows with
    | Ok hist => Ok (map (scale_dated c) hist)
    | Raise e => Raise e
    end.
Proof.
  induction rows as [| h rows IH]; [reflexivity |].
  cbn [map dated scale_row hr_date hr_last].
  destruct (hr_date h); [| reflexivity].
  rewrite IH. destruct (dated rows); reflexivity.
Qed.

Lemma insert_by_date_scale (c : R) x l :
  insert_by_date (scale_dated c x) (map (scale_dated c) l)
  = map (scale_dated c) (insert_by_date x l).
Proof.
  induction l as [| y l IH]; [reflexivity |].
  cbn [map insert_by_date scale_dated fst].
  destruct (fst x <=? fst y)%Z; [reflexivity |].
  cbn [map]. f_equal. exact IH.
Qed.

Lemma sort_by_date_scale (c : R) l :
  sort_by_date (map (scale_dated c) l) = map (scale_dated c) (sort_by_date l).
Proof.
  induction l as [| x l IH]; [reflexivity |].
  cbn [map]. unfold sort_by_date in *. cbn [fold_right].
  rewrite IH. apply insert_by_date_scale.
Qed.

Lemma drop_duplicates_seen_scale (c : R) l : forall seen,
  drop_duplicates_seen seen (map (scale_dated c) l)
  = map (scale_dated c) (drop_duplicates_seen seen l).
Proof.
  induction l as [| x l IH]; intros seen; [reflexivity |].
  cbn [map drop_duplicates_seen scale_dated fst].
  destruct (existsb _ seen); [apply IH |].
  cbn [map]. f_equal. apply IH.
Qed.

Lemma valid_prices_scale (c : R) l :
  0 < c ->
  valid_prices (map (scale_dated c) l) = map (Rmult c) (valid_prices l).
Proof.
  intros Hc. induction l as [| [d [v |]] l IH]; [reflexivity | |].
  - cbn [map scale_dated fst snd fmul lift2 valid_prices].
    destruct (Rlt_dec 0 v) as [Hv | Hv].
    + destruct (Rlt_dec 0 (c * v)) as [_ | Hn];
        [| exfalso; apply Hn; apply Rmult_lt_0_compat; assumption].
      cbn [map]. f_equal. exact IH.
    + destruct (Rlt_dec 0 (c * v)) as [Hp | _]; [exfalso; nra | exact IH].
  - cbn [map scale_dated fst snd fmul lift2 valid_prices]. exact IH.
Qed.

Lemma log_ratio_scale (c prev : R) (prices : list R) :
  0 < c -> 0 < prev -> Forall (fun p => 0 < p) prices ->
  log_ratio_from (c * prev) (map (Rmult c) prices)
  = log_ratio_from prev prices.
Proof.
  intros Hc. revert prev.
  induction prices as [| p prices IH]; intros prev Hprev Hall; [reflexivity |].
  inversion Hall as [| ? ? Hp Hrest]; subst.
  cbn [map log_ratio_from].
  rewrite !fdiv_Some by nra.
  replace (c * p / (c * prev)) with (p / prev) by (field; lra).
  f_equal. apply IH; assumption.
Qed.

Lemma ret_column_scale (c : R) (prices : list R) :
  0 < c -> Forall (fun p => 0 < p) prices ->
  ret_column (map (Rmult c) prices) = ret_column prices.
Proof.
  intros Hc Hall. destruct prices as [| p prices]; [reflexivity |].
  inversion Hall; subst. cbn [map ret_column]. f_equal.
  apply log_ratio_scale; assumption.
Qed.

End HVSeries.

(** X5.  A flat series has zero volatility.  When every row of an
    underlying carries the same positive price and the series has at
    least three distinct dates, HV252 and the selected volatility are 0,
    and HV30 (HV90) is 0 as soon as there are 30 (90) returns. *)
Theorem X5_flat_series_zero_volatility
  (df_hist : ChainCalculator.history_table) (u_isin : string)
  (hist : list (Z * float)) (p : R) :
  0 < p ->
  Forall (fun h => ChainCalculator.hr_last h = Some p)
    (filter (ChainCalculator.same_isin (strip u_isin)) df_hist) ->
  ChainCalculator.dated
    (filter (ChainCalculator.same_isin (strip u_isin)) df_hist) = Ok hist ->
  let m := pred (List.length (ChainCalculator.drop_duplicates
                                (ChainCalculator.sort_by_date hist))) in
  (2 <= m)%nat ->
  ChainCalculator.calculate_hv df_hist u_isin
  = Ok (if (30 <=? m)%nat then Some 0 else nan,
        if (90 <=? m)%nat then Some 0 else nan,
        Some 0, Some 0).
Proof.
  intros Hp Hsame Hd m Hm.
  pose proof (HVSeries.dated_Forall (Some p) _ Hsame hist Hd) as Hall.
  pose proof (HV.dated_length _ _ Hd) as Hlen.
  assert (Hprices :
    ChainCalculator.valid_prices
      (ChainCalculator.drop_duplicates (ChainCalculator.sort_by_date hist))
    = repeat p (S m)).
  { rewrite (HVSeries.valid_prices_same p) by
      (try exact Hp; apply HVSeries.drop_duplicates_seen_Forall,
         HVSeries.sort_by_date_Forall; exact Hall).
    f_equal. unfold m. lia. }
  unfold ChainCalculator.calculate_hv, ChainCalculator.calculate_hv_with.
  pose proof (HV.drop_duplicates_seen_length [] (ChainCalculator.sort_by_date hist))
    as Hdd.
  fold (ChainCalculator.drop_duplicates (ChainCalculator.sort_by_date hist)) in Hdd.
  rewrite HV.sort_by_date_length in Hdd.
  destruct (Nat.ltb_spec (List.length
              (filter (ChainCalculator.same_isin (strip u_isin)) df_hist)) 2);
    [unfold m in Hm; lia |].
  rewrite Hd. cbn [bind]. rewrite Hprices, repeat_length.
  destruct (Nat.ltb_spec (S m) 2); [lia |].
  change (ChainCalculator.dropna (ChainCalculator.ret_column (repeat p (S m))))
    with (ChainCalculator.dropna
            (ChainCalculator.log_ratio_from p (repeat p m))).
  rewrite (HVSeries.log_ratio_same p m Hp).
  rewrite (HVSeries.hv_of_zero_returns m Hm). reflexivity.
Qed.

(** Three days at the same price. *)
Definition flat_history : ChainCalculator.history_table :=
  [ ChainCalculator.HistoryRow "IRO1FOLD0001" (Some 14030101%Z) (Some 100);
    ChainCalculator.HistoryRow "IRO1FOLD0001" (Some 14030102%Z) (Some 100);
    ChainCalculator.HistoryRow "IRO1FOLD0001" (Some 14030103%Z) (Some 100) ].

Lemma X5_flat_series_zero_volatility_witness :
  ChainCalculator.calculate_hv flat_history "IRO1FOLD0001"
  = Ok (nan, nan, Some 0, Some 0).
Proof.
  apply (X5_flat_series_zero_volatility flat_history "IRO1FOLD0001"
           [ (14030101%Z, Some 100); (14030102%Z, Some 100);
             (14030103%Z, Some 100) ] 100).
  - lra.
  - repeat constructor.
  - reflexivity.
  - simpl. lia.
Defined.

(** X6.  The estimate does not depend on the price unit: multiplying every
    price of the history by a positive constant leaves the result of
    [calculate_hv] unchanged. *)
Theorem X6_volatility_scale_invariant
  (df_hist : ChainCalculator.history_table) (u_isin : string) (c : R) :
  0 < c ->
  ChainCalculator.calculate_hv (map (HVSeries.scale_row c) df_hist) u_isin
  = ChainCalculator.calculate_hv df_hist u_isin.
Proof.
  intros Hc. unfold ChainCalculator.calculate_hv, ChainCalculator.calculate_hv_with.
  rewrite HVSeries.filter_scale, length_map, HVSeries.dated_scale.
  destruct (Nat.ltb _ 2); [reflexivity |].
  destruct (ChainCalculator.dated _) as [hist | e]; [| reflexivity].
  cbn [bind].
  rewrite HVSeries.sort_by_date_scale.
  unfold ChainCalculator.drop_duplicates.
  rewrite HVSeries.drop_duplicates_seen_scale.
  rewrite HVSeries.valid_prices_scale by exact Hc.
  rewrite length_map.
  rewrite HVSeries.ret_column_scale by
    (try exact Hc; apply HV.valid_prices_pos).
  reflexivity.
Qed.

Lemma X6_volatility_scale_invariant_witness :
  ChainCalculator.calculate_hv (map (HVSeries.scale_row 10) two_price_history)
    "IRO1FOLD0001"
  = ChainCalculator.calculate_hv two_price_history "IRO1FOLD0001".
Proof.
  apply (X6_volatility_scale_invariant two_price_history "IRO1FOLD0001" 10).
  lra.
Defined.

Module HVSelected.

Import ChainCalculator.

Lemma window_defined (l : list R) :
  (2 <= List.length l)%nat -> exists v, annualized (std l) = Some v.
Proof.
  intros H. destruct (HV.annualized_defined (std l) (HV.std_defined l H))
    as (v & Hv & _). eauto.
Qed.

Lemma mean_1 (c : R) : mean_R [c] = c.
Proof. unfold mean_R. cbn [List.length sum_R fold_right INR]. lra. Qed.

Lemma mean_2 (a c : R) : mean_R [a; c] = (a + c) / 2.
Proof. unfold mean_R. cbn [List.length sum_R fold_right INR]. lra. Qed.

Lemma mean_3 (a b c : R) : mean_R [a; b; c] = (a + b + c) / 3.
Proof. unfold mean_R. cbn [List.length sum_R fold_right INR]. lra. Qed.

(** The four values as a function of the number of returns. *)
Lemma hv_of_returns_cases (rets : list R) :
  let n := List.length rets in
  (n = 1%nat -> hv_of_returns rets = (nan, nan, nan, Some 0.3)) /\
  ((2 <= n < 30)%nat ->
   exists c, hv_of_returns rets = (nan, nan, Some c, Some c)) /\
  ((30 <= n < 90)%nat ->
   exists a c, hv_of_returns rets = (Some a, nan, Some c, Some ((a + c) / 2))) /\
  ((90 <= n)%nat ->
   exists a b c,
     hv_of_returns rets = (Some a, Some b, Some c, Some ((a + b + c) / 3))).
Proof.
  intros n. unfold hv_of_returns. fold n.
  split; [| split; [| split]]; intros Hn;
    destruct (Nat.eqb_spec n 0) as [| _]; try lia;
    destruct (Nat.leb_spec 30 n); try lia;
    destruct (Nat.leb_spec 90 n); try lia.
  - rewrite HV.std_short by (fold n; lia). reflexivity.
  - destruct (window_defined rets ltac:(fold n; lia)) as (c & ->).
    exists c. unfold nan. cbn [dropna]. rewrite mean_1. reflexivity.
  - destruct (window_defined rets ltac:(fold n; lia)) as (c & ->).
    destruct (window_defined (last_n 30 rets)
                ltac:(rewrite HV.last_n_length; fold n; lia)) as (a & ->).
    exists a, c. unfold nan. cbn [dropna]. rewrite mean_2. reflexivity.
  - destruct (window_defined rets ltac:(fold n; lia)) as (c & ->).
    destruct (window_defined (last_n 30 rets)
                ltac:(rewrite HV.last_n_length; fold n; lia)) as (a & ->).
    destruct (window_defined (last_n 90 rets)
                ltac:(rewrite HV.last_n_length; fold n; lia)) as (b & ->).
    exists a, b, c. cbn [dropna]. rewrite mean_3. reflexivity.
Qed.

End HVSelected.



(** X8.  The fallback volatility stored for an underlying: the default
    (NaN, NaN, NaN, 0.3) when the history has no row for it, but four NaN
    when the history has exactly one row for it, so that the fallback
    volatility of its contracts is NaN and not 0.3. *)
Theorem X8_fallback_volatility_entry
  (df_hist : ChainCalculator.history_table) (u_isin : string)
  (hv_cache : gmap string ChainCalculator.hv_tuple) :
  is_nan_or_empty (strip u_isin) = false ->
  (filter (ChainCalculator.same_isin (strip u_isin)) df_hist = [] ->
   ChainCalculator.hv_entry df_hist u_isin hv_cache
   = Ok (<[strip u_isin := ChainCalculator.default_hv]> hv_cache)) /\
  (forall h : ChainCalculator.history_row,
     filter (ChainCalculator.same_isin (strip u_isin)) df_hist = [h] ->
     ChainCalculator.hv_entry df_hist u_isin hv_cache
     = Ok (<[strip u_isin := ChainCalculator.nan_hv]> hv_cache)).
Proof.
  intros Hkey. unfold ChainCalculator.hv_entry. rewrite Hkey. split.
  - intros Hnone.
    assert (E : existsb (ChainCalculator.same_isin (strip u_isin)) df_hist = false).
    { destruct (existsb _ df_hist) eqn:Hex; [| reflexivity].
      apply existsb_exists in Hex as (x & Hin & Hx).
      assert (Hf : In x (filter (ChainCalculator.same_isin (strip u_isin)) df_hist))
        by (apply filter_In; split; assumption).
      rewrite Hnone in Hf. destruct Hf. }
    rewrite E. reflexivity.
  - intros h Hone.
    assert (E : existsb (ChainCalculator.same_isin (strip u_isin)) df_hist = true).
    { apply existsb_exists. exists h.
      apply filter_In. rewrite Hone. now left. }
    rewrite E. unfold ChainCalculator.calculate_hv, ChainCalculator.calculate_hv_with.
    rewrite HVSeries.strip_idempotent, Hone. reflexivity.
Qed.

Lemma X8_fallback_volatility_entry_witness :
  ChainCalculator.hv_entry
    [ChainCalculator.HistoryRow "IRO1FOLD0001" (Some 14030101%Z) (Some 100)]
    "IRO1FOLD0001" ∅
  = Ok (<["IRO1FOLD0001" := ChainCalculator.nan_hv]> ∅).
Proof.
  exact (proj2 (X8_fallback_volatility_entry
                  [ChainCalculator.HistoryRow "IRO1FOLD0001" (Some 14030101%Z)
                     (Some 100)]
                  "IRO1FOLD0001" ∅ eq_refl) _ eq_refl).
Defined.

(** ** Pricing identities *)

Module NormSymmetry.

Lemma pdf_R_even (x : R) : pdf_R (- x) = pdf_R x.
Proof. unfold pdf_R. do 3 f_equal. ring. Qed.

Section Interval.

Variable M : R.
Hypothesis M_nonneg : 0 <= M.

Lemma interval_order : - M <= M.
Proof. lra. Qed.

Lemma interval_continuity :
  forall x : R, - M <= x <= M -> continuity_pt pdf_R x.
Proof. intros x _. apply pdf_R_continuity. Qed.

(** The mass between [-M] and [y]. *)
Definition mass_from_left : R -> R :=
  primitive interval_order (FTC_P1 interval_order interval_continuity).

Lemma mass_from_left_eq (y : R) :
  - M <= y <= M ->
  mass_from_left y = RiemannInt (Norm.pdf_R_integrable (- M) y).
Proof.
  intros Hy. unfold mass_from_left, primitive.
  destruct (Rle_dec (- M) y); [| lra].
  destruct (Rle_dec y M); [| lra].
  apply RiemannInt_P5.
Qed.

Lemma mirrored_antiderivative :
  antiderivative pdf_R (fun y => - mass_from_left (- y)) (- M) M.
Proof.
  split; [| lra]. intros x Hx.
  assert (Hlim : derivable_pt_lim (fun y => - mass_from_left (- y)) x (pdf_R x)).
  { assert (H1 : derivable_pt_lim (- id)%F x (- 1)).
    { apply derivable_pt_lim_opp, derivable_pt_lim_id. }
    assert (H2 : derivable_pt_lim mass_from_left ((- id)%F x) (pdf_R (- x))).
    { unfold mass_from_left. apply RiemannInt_P28.
      unfold opp_fct, id. lra. }
    pose proof (derivable_pt_lim_opp _ _ _
                  (derivable_pt_lim_comp _ _ _ _ _ H1 H2)) as H3.
    replace (- (pdf_R (- x) * - 1)) with (pdf_R x) in H3
      by (rewrite pdf_R_even; ring).
    exact H3. }
  exists (exist _ (pdf_R x) Hlim). reflexivity.
Qed.

Lemma mass_mirror (y : R) :
  - M <= y <= M ->
  mass_from_left y + mass_from_left (- y) = 2 * mass_from_left 0.
Proof.
  intros Hy.
  destruct (antiderivative_Ucte pdf_R mass_from_left
              (fun y => - mass_from_left (- y)) (- M) M
              (RiemannInt_P29 interval_order interval_continuity)
              mirrored_antiderivative) as (c & Hc).
  pose proof (Hc 0 ltac:(lra)) as H0. rewrite Ropp_0 in H0.
  pose proof (Hc y Hy) as H1. lra.
Qed.

Lemma mass_from_zero (y : R) :
  - M <= y <= M ->
  RiemannInt (Norm.pdf_R_integrable 0 y) = mass_from_left y - mass_from_left 0.
Proof.
  intros Hy.
  rewrite (mass_from_left_eq y Hy), (mass_from_left_eq 0) by lra.
  pose proof (RiemannInt_P26 (Norm.pdf_R_integrable (- M) 0)
                (Norm.pdf_R_integrable 0 y) (Norm.pdf_R_integrable (- M) y)).
  lra.
Qed.

End Interval.

(** The mass between [0] and [-x] is the opposite of the mass between [0]
    and [x]. *)
Lemma cdf_R_mirror (x : R) : cdf_R (- x) = 1 - cdf_R x.
Proof.
  unfold cdf_R.
  assert (HM : 0 <= Rabs x) by apply Rabs_pos.
  assert (Hx : - Rabs x <= x <= Rabs x).
  { destruct (Rle_dec 0 x).
    - rewrite Rabs_pos_eq by assumption. lra.
    - rewrite Rabs_left by lra. lra. }
  rewrite (mass_from_zero (Rabs x) HM x Hx).
  rewrite (mass_from_zero (Rabs x) HM (- x)) by lra.
  pose proof (mass_mirror (Rabs x) HM x Hx). lra.
Qed.

End NormSymmetry.

(** X9.  Put-call parity of [bs_price]: for positive spot, strike, maturity
    and volatility, the CALL value minus the value of any other option type
    (the code prices every type other than CALL as a put) is
    [S - K * exp (- r * T)], whatever the volatility. *)
Theorem X9_put_call_parity
  (S K T r sigma : R) (option_type : string) :
  0 < T -> 0 < sigma -> 0 < S -> 0 < K ->
  String.eqb option_type "CALL" = false ->
  (ChainCalculator.bs_price (Some S) (Some K) (Some T) (Some r) (Some sigma)
     "CALL"
   - ChainCalculator.bs_price (Some S) (Some K) (Some T) (Some r) (Some sigma)
       option_type)%fl
  = Some (S - K * exp (- r * T)).
Proof.
  intros HT Hsig HS HK Hput.
  rewrite !chain_bs_price_reals by assumption.
  unfold BlackScholesPrice.price, BlackScholes.is_call.
  rewrite Hput. change (String.eqb "CALL" "CALL") with true. cbv iota.
  rewrite !NormSymmetry.cdf_R_mirror.
  cbn [fsub lift2]. f_equal. ring.
Qed.

Lemma X9_put_call_parity_witness :
  (ChainCalculator.bs_price (Some 100) (Some 90) (Some 1) (Some 0.36)
     (Some 0.5) "CALL"
   - ChainCalculator.bs_price (Some 100) (Some 90) (Some 1) (Some 0.36)
       (Some 0.5) "PUT")%fl
  = Some (100 - 90 * exp (- (0.36) * 1)).
Proof.
  apply (X9_put_call_parity 100 90 1 0.36 0.5 "PUT");
    [lra | lra | lra | lra | reflexivity].
Defined.

(** X10.  Greeks of a call and of a put on the same inputs, in exact
    arithmetic (doubles read as real numbers: on doubles [norm.pdf]
    underflows to zero far in the tails, and gamma and vega with it), when
    [calculate_greeks] passes its guard on numbers: gamma and vega are the
    same positive numbers for both, the deltas differ by one, the rhos by
    [K * T * exp (- r * T) / 100] and the thetas by
    [- r * K * exp (- r * T) / 365]. *)
Theorem X10_call_put_greeks
  (S K T r sigma : R) (option_type : string) :
  0 < T -> 0.01 < sigma -> 0 < S -> 0 < K ->
  String.eqb option_type "CALL" = false ->
  let c := ChainCalculator.calculate_greeks (Some S) (Some K) (Some T)
             (Some r) (Some sigma) "CALL" in
  let p := ChainCalculator.calculate_greeks (Some S) (Some K) (Some T)
             (Some r) (Some sigma) option_type in
  (exists g : R, 0 < g /\ ChainCalculator.gamma c = Some g
                 /\ ChainCalculator.gamma p = Some g) /\
  (exists v : R, 0 < v /\ ChainCalculator.vega c = Some v
                 /\ ChainCalculator.vega p = Some v) /\
  (ChainCalculator.delta c - ChainCalculator.delta p)%fl = Some 1 /\
  (ChainCalculator.rho c - ChainCalculator.rho p)%fl
  = Some (K * T * exp (- r * T) / 100) /\
  (ChainCalculator.theta c - ChainCalculator.theta p)%fl
  = Some (- (r * K * exp (- r * T)) / 365).
Proof.
  intros HT Hsig HS HK Hput c p. subst c p.
  rewrite !calculate_greeks_reals by assumption.
  cbn [ChainCalculator.gamma ChainCalculator.vega ChainCalculator.delta
       ChainCalculator.rho ChainCalculator.theta].
  assert (HsT : 0 < sqrt T) by (apply sqrt_lt_R0; exact HT).
  pose proof (pdf_R_pos (BlackScholes.d1 S K T r sigma)) as Hpdf.
  unfold BlackScholes.delta, BlackScholes.rho_unit, BlackScholes.theta_annual,
    BlackScholes.is_call.
  rewrite Hput. change (String.eqb "CALL" "CALL") with true. cbv iota.
  rewrite !NormSymmetry.cdf_R_mirror.
  split; [| split; [| split; [| split]]].
  - exists (BlackScholes.gamma S K T r sigma). split; [| split; reflexivity].
    unfold BlackScholes.gamma. apply Rdiv_lt_0_compat; [exact Hpdf |].
    apply Rmult_lt_0_compat; [nra | exact HsT].
  - exists (BlackScholes.vega_unit S K T r sigma / 100).
    split; [| split; reflexivity].
    unfold BlackScholes.vega_unit.
    apply Rdiv_lt_0_compat; [| lra].
    apply Rmult_lt_0_compat; [nra | exact HsT].
  - cbn [fsub lift2]. f_equal. ring.
  - cbn [fsub lift2]. f_equal. field.
  - cbn [fsub lift2]. f_equal. field. lra.
Qed.

Lemma X10_call_put_greeks_witness :
  (ChainCalculator.delta
     (ChainCalculator.calculate_greeks (Some 100) (Some 90) (Some 1)
        (Some 0.36) (Some 0.5) "CALL")
   - ChainCalculator.delta
       (ChainCalculator.calculate_greeks (Some 100) (Some 90) (Some 1)
          (Some 0.36) (Some 0.5) "PUT"))%fl
  = Some 1.
Proof.
  exact (proj1 (proj2 (proj2
    (X10_call_put_greeks 100 90 1 0.36 0.5 "PUT"
       ltac:(lra) ltac:(lra) ltac:(lra) ltac:(lra) eq_refl)))).
Defined.

(** ** The contract maps and the table of the IV history build *)

Module IvMaps.

Import IvCalculator.

(** What a live row contributes under key [k]: the contract data and the
    underlying stored together. *)
Definition entry_of (row : live_row) (k : string) (info : contract_info)
  (u : string) : Prop :=
  to_float (lr_strike row) = Ok (ci_strike info) /\
  lr_end_date_int row = Some (ci_end_int info) /\
  u = strip (lr_underlying_isin row) /\
  usable_isin k = true /\
  ((ci_type info = "PUT" /\ k = strip (lr_isin_put row)) \/
   (ci_type info = "CALL" /\ k = strip (lr_isin_call row))).

(** The two dictionaries have the same keys, and the two values stored
    under a key come from one row of the live table. *)
Definition paired (df_live : list live_row)
  (maps : gmap string contract_info * gmap string string) (k : string) : Prop :=
  match fst maps !! k, snd maps !! k with
  | None, None => True
  | Some info, Some u => exists row, In row df_live /\ entry_of row k info u
  | _, _ => False
  end.

Lemma paired_insert (df_live : list live_row)
  (maps : gmap string contract_info * gmap string string)
  (row : live_row) (key : string) (info : contract_info) (k : string) :
  In row df_live ->
  entry_of row key info (strip (lr_underlying_isin row)) ->
  paired df_live maps k ->
  paired df_live (<[key := info]> (fst maps),
                  <[key := strip (lr_underlying_isin row)]> (snd maps)) k.
Proof.
  intros Hin Hentry Hk. unfold paired in *. cbn [fst snd].
  destruct (decide (key = k)) as [-> | Hne].
  - rewrite !lookup_insert_eq. exists row. split; assumption.
  - rewrite !lookup_insert_ne by assumption. exact Hk.
Qed.

Lemma map_live_row_paired (df_live : list live_row)
  (maps : gmap string contract_info * gmap string string) (row : live_row) :
  In row df_live ->
  (forall k, paired df_live maps k) ->
  forall k, paired df_live (map_live_row maps row) k.
Proof.
  intros Hin Hmaps k. unfold map_live_row.
  destruct (to_float (lr_strike row)) as [strike | e] eqn:Hstrike;
    [| apply Hmaps].
  destruct (lr_end_date_int row) as [end_int |] eqn:Hend; [| apply Hmaps].
  assert (Hput : forall k,
    paired df_live
      (if usable_isin (strip (lr_isin_put row))
       then (<[strip (lr_isin_put row) := ContractInfo strike end_int "PUT"]>
               (fst maps),
             <[strip (lr_isin_put row) := strip (lr_underlying_isin row)]>
               (snd maps))
       else maps) k).
  { intros k'. destruct (usable_isin (strip (lr_isin_put row))) eqn:Hu;
      [| apply Hmaps].
    apply paired_insert; [exact Hin | | apply Hmaps].
    unfold entry_of. cbn [ci_strike ci_end_int ci_type].
    repeat split; try assumption; try reflexivity. left. split; reflexivity. }
  cbv zeta.
  destruct (usable_isin (strip (lr_isin_call row))) eqn:Hu; [| apply Hput].
  apply (paired_insert df_live _ row); [exact Hin | | apply Hput].
  unfold entry_of. cbn [ci_strike ci_end_int ci_type].
  repeat split; try assumption; try reflexivity. right. split; reflexivity.
Qed.

Lemma fold_paired (df_live : list live_row) (rows : list live_row) :
  forall maps,
    (forall r, In r rows -> In r df_live) ->
    (forall k, paired df_live maps k) ->
    forall k, paired df_live (fold_left map_live_row rows maps) k.
Proof.
  induction rows as [| row rows IH]; intros maps Hsub Hmaps; simpl.
  - exact Hmaps.
  - apply IH.
    + intros r Hr. apply Hsub. now right.
    + apply map_live_row_paired; [apply Hsub; now left | exact Hmaps].
Qed.

End IvMaps.

(** X11.  The two dictionaries built from the live table, [contract_map]
    and [isin_to_underlying], have the same keys; a key is a stripped
    option identifier other than 'nan', '' and '<NA>'; and the contract
    data and the underlying stored under a key come from one live row
    whose strike converts and whose expiry is a date: the strike and
    expiry of that row, its stripped underlying, and the type PUT or CALL
    according to the column the key was read from. *)
Theorem X11_contract_maps_paired
  (df_live : list IvCalculator.live_row) (k : string) :
  match fst (IvCalculator.build_contract_map df_live) !! k,
        snd (IvCalculator.build_contract_map df_live) !! k with
  | None, None => True
  | Some info, Some u =>
      IvCalculator.usable_isin k = true /\
      exists row,
        In row df_live /\
        to_float (IvCalculator.lr_strike row)
          = Ok (IvCalculator.ci_strike info) /\
        IvCalculator.lr_end_date_int row
          = Some (IvCalculator.ci_end_int info) /\
        u = strip (IvCalculator.lr_underlying_isin row) /\
        ((IvCalculator.ci_type info = "PUT" /\
          k = strip (IvCalculator.lr_isin_put row)) \/
         (IvCalculator.ci_type info = "CALL" /\
          k = strip (IvCalculator.lr_isin_call row)))
  | _, _ => False
  end.
Proof.
  pose proof (IvMaps.fold_paired df_live df_live (∅, ∅) (fun r H => H)) as H.
  specialize (H (fun k => I) k).
  unfold IvMaps.paired in H. unfold IvCalculator.build_contract_map.
  destruct (fst (fold_left IvCalculator.map_live_row df_live (∅, ∅)) !! k)
    as [info |];
    destruct (snd (fold_left IvCalculator.map_live_row df_live (∅, ∅)) !! k)
    as [u |]; try exact H.
  destruct H as (row & Hin & Hs & He & Hu & Hus & Ht).
  split; [exact Hus |]. exists row. repeat split; assumption.
Qed.

Module IvTable.

Import IvCalculator ChainOrder.

(** [a] is at or before [b] in string order. *)
Definition str_le (a b : string) : Prop := String.ltb b a = false.

Lemma ltb_asym (a b : string) : String.ltb a b = true -> String.ltb b a = false.
Proof.
  intros Hab. destruct (String.ltb b a) eqn:Hba; [| reflexivity].
  pose proof (ltb_trans _ _ _ Hab Hba) as H. rewrite ltb_irrefl in H.
  discriminate.
Qed.

Lemma str_le_trans (a b c : string) : str_le a b -> str_le b c -> str_le a c.
Proof.
  unfold str_le. intros Hab Hbc.
  destruct (String.ltb c a) eqn:Hca; [| reflexivity].
  destruct (String.ltb a b) eqn:Hlt.
  - rewrite (ltb_trans _ _ _ Hca Hlt) in Hbc. discriminate.
  - rewrite <- (ltb_trichotomy _ _ Hlt Hab) in Hbc. congruence.
Qed.

Lemma str_le_antisym (a b : string) : str_le a b -> str_le b a -> a = b.
Proof. unfold str_le. intros Hab Hba. apply ltb_trichotomy; assumption. Qed.

(** Ascending by option identifier, then by date. *)
Definition record_order (a b : iv_record) : Prop :=
  str_le (option_isin a) (option_isin b) /\
  (option_isin a = option_isin b -> str_le (date a) (date b)).

Lemma record_leb_order (a b : iv_record) :
  record_leb a b = true -> record_order a b.
Proof.
  unfold record_leb, record_order, str_le.
  destruct (String.ltb (option_isin a) (option_isin b)) eqn:Hab.
  - intros _. split; [apply ltb_asym; exact Hab |].
    intros E. rewrite E, ltb_irrefl in Hab. discriminate.
  - destruct (String.ltb (option_isin b) (option_isin a)) eqn:Hba;
      [discriminate |].
    intros H. split; [reflexivity |]. intros _.
    destruct (String.ltb (date b) (date a)); [discriminate | reflexivity].
Qed.

Lemma record_leb_total (a b : iv_record) :
  record_leb a b = false -> record_leb b a = true.
Proof.
  unfold record_leb.
  destruct (String.ltb (option_isin a) (option_isin b)) eqn:Hab;
    [discriminate |].
  destruct (String.ltb (option_isin b) (option_isin a)) eqn:Hba;
    [reflexivity |].
  destruct (String.ltb (date b) (date a)) eqn:Hd; [| discriminate].
  intros _. rewrite (ltb_asym _ _ Hd). reflexivity.
Qed.

Lemma record_order_trans (a b c : iv_record) :
  record_order a b -> record_order b c -> record_order a c.
Proof.
  intros (Hi1 & Hd1) (Hi2 & Hd2). split.
  - eapply str_le_trans; eassumption.
  - intros E.
    assert (Eab : option_isin a = option_isin b).
    { apply str_le_antisym; [exact Hi1 | rewrite E; exact Hi2]. }
    eapply str_le_trans; [apply Hd1; exact Eab | apply Hd2; congruence].
Qed.

Lemma insert_record_hd (x y : iv_record) (l : list iv_record) :
  record_order y x -> HdRel record_order y l ->
  HdRel record_order y (insert_record x l).
Proof.
  intros Hyx Hl. destruct l as [| z l]; simpl.
  - constructor. exact Hyx.
  - destruct (record_leb x z); constructor; [exact Hyx |].
    inversion Hl; assumption.
Qed.

Lemma insert_record_sorted (x : iv_record) (l : list iv_record) :
  Sorted record_order l -> Sorted record_order (insert_record x l).
Proof.
  induction 1 as [| y l Hs IH Hhd]; simpl.
  - repeat constructor.
  - destruct (record_leb x y) eqn:Hxy.
    + constructor; [constructor; assumption |].
      constructor. apply record_leb_order. exact Hxy.
    + constructor; [exact IH |].
      apply insert_record_hd; [| exact Hhd].
      apply record_leb_order, record_leb_total. exact Hxy.
Qed.

Lemma sort_records_sorted (records : list iv_record) :
  StronglySorted record_order (sort_records records).
Proof.
  apply Sorted_StronglySorted.
  - intros a b c. apply record_order_trans.
  - induction records as [| x records IH]; simpl; [constructor |].
    apply insert_record_sorted. exact IH.
Qed.

Lemma insert_record_perm (x : iv_record) (l : list iv_record) :
  Permutation (x :: l) (insert_record x l).
Proof.
  induction l as [| y l IH]; simpl; [reflexivity |].
  destruct (record_leb x y); [reflexivity |].
  rewrite perm_swap. constructor. exact IH.
Qed.

Lemma sort_records_perm (records : list iv_record) :
  Permutation records (sort_records records).
Proof.
  induction records as [| x records IH]; simpl; [constructor |].
  rewrite <- insert_record_perm. constructor. exact IH.
Qed.

(** The rows of the option history that pass the filter of step 4. *)
Definition retained (fs : filesystem) : list hist_option_row :=
  match fs_live_options fs, fs_hist_options fs with
  | Some df_live, Some df_hist_opt =>
      omap (keep_hist_option (fst (build_contract_map df_live))) df_hist_opt
  | _, _ => []
  end.

End IvTable.

(** X12.  A table returned by [build_iv_history] that has rows is sorted
    by option identifier and then by date (both in string order), is the
    content written to the output file, holds at most one record per
    retained history row, and is only produced when at least ten rows of
    the option history passed the filter; the three input files are left
    as they were. *)
Theorem X12_iv_history_table
  (fs fs' : IvCalculator.filesystem) (rows : list IvCalculator.iv_record) :
  IvCalculator.build_iv_history fs = (Ok rows, fs') ->
  rows <> [] ->
  StronglySorted IvTable.record_order rows /\
  fs' = IvCalculator.with_output fs rows /\
  (10 <= List.length (IvTable.retained fs))%nat /\
  (List.length rows <= List.length (IvTable.retained fs))%nat.
Proof.
  unfold IvCalculator.build_iv_history.
  rewrite IvHistory.should_rebuild_always. cbn [negb].
  unfold IvCalculator.rebuild, IvTable.retained.
  destruct (IvCalculator.fs_live_options fs) as [df_live |];
    [| discriminate].
  destruct (IvCalculator.fs_hist_options fs) as [df_hist_opt |];
    [| discriminate].
  destruct (IvCalculator.fs_hist_underlying fs) as [df_hist_und |];
    [| discriminate].
  cbn [IvCalculator.read_excel].
  destruct (IvCalculator.build_contract_map df_live)
    as [contract_map isin_to_underlying]. cbn [fst].
  set (kept := omap (IvCalculator.keep_hist_option contract_map) df_hist_opt).
  destruct (Nat.eqb_spec (List.length kept) 0) as [| Hpos];
    [intros [= <- <-] Hne; contradiction |].
  destruct (Nat.eqb_spec (List.length kept / 10) 0) as [| Hten];
    [discriminate |].
  destruct (IvCalculator.iv_records contract_map isin_to_underlying
              df_hist_und kept) as [records | e] eqn:Hrecs; [| discriminate].
  assert (Hlen : (List.length records <= List.length kept)%nat).
  { clear - Hrecs. revert records Hrecs.
    induction kept as [| opt kept IH]; intros records; simpl.
    - intros [= <-]. simpl. lia.
    - destruct (IvCalculator.iv_record_of _ _ _ opt) as [r | e];
        [| discriminate]. cbn [bind].
      destruct (IvCalculator.iv_records _ _ _ kept) as [rs | e];
        [| discriminate]. cbn [bind].
      specialize (IH rs eq_refl).
      intros [= <-]. destruct r; simpl; lia. }
  assert (H10 : (10 <= List.length kept)%nat).
  { destruct (Nat.lt_ge_cases (List.length kept) 10) as [Hlt | Hge];
      [| exact Hge].
    exfalso. apply Hten. apply Nat.div_small. exact Hlt. }
  destruct records as [| r records].
  - intros [= <- <-] Hne. contradiction.
  - intros [= <- <-] _.
    split; [apply (IvTable.sort_records_sorted (r :: records)) |].
    split; [reflexivity |]. split; [exact H10 |].
    change (IvCalculator.insert_record r (IvCalculator.sort_records records))
      with (IvCalculator.sort_records (r :: records)).
    rewrite <- (Permutation_length (IvTable.sort_records_perm (r :: records))).
    exact Hlen.
Qed.

Lemma X12_iv_history_table_witness :
  StronglySorted IvTable.record_order [early_record] /\
  (10 <= List.length (IvTable.retained expiry_fs))%nat.
Proof.
  destruct (X12_iv_history_table expiry_fs
              (IvCalculator.with_output expiry_fs [early_record])
              [early_record] expiry_build ltac:(discriminate))
    as (Hs & _ & H10 & _).
  split; [exact Hs | exact H10].
Defined.

(** X13.  What [build_iv_history] returns does not depend on the stored
    output file: the update check never answers "up to date", so the early
    return that reads the stored table is never taken, and a missing input
    workbook raises [FileNotFoundError] even when an output exists. *)
Theorem X13_stored_history_never_read
  (fs : IvCalculator.filesystem)
  (stored : option (list IvCalculator.iv_record)) :
  let fs0 := IvCalculator.FileSystem (IvCalculator.fs_live_options fs)
               (IvCalculator.fs_hist_options fs)
               (IvCalculator.fs_hist_underlying fs) stored in
  fst (IvCalculator.build_iv_history fs0)
  = fst (IvCalculator.build_iv_history fs) /\
  (IvCalculator.fs_live_options fs = None \/
   IvCalculator.fs_hist_options fs = None \/
   IvCalculator.fs_hist_underlying fs = None ->
   IvCalculator.build_iv_history fs0 = (Raise FileNotFoundError, fs0)).
Proof.
  intros fs0. subst fs0.
  unfold IvCalculator.build_iv_history.
  rewrite !IvHistory.should_rebuild_always. cbn [negb].
  unfold IvCalculator.rebuild.
  cbn [IvCalculator.fs_live_options IvCalculator.fs_hist_options
       IvCalculator.fs_hist_underlying].
  split.
  - destruct (IvCalculator.fs_live_options fs) as [df_live |];
      [| reflexivity].
    destruct (IvCalculator.fs_hist_options fs) as [df_hist_opt |];
      [| reflexivity].
    destruct (IvCalculator.fs_hist_underlying fs) as [df_hist_und |];
      [| reflexivity].
    cbn [IvCalculator.read_excel].
    destruct (IvCalculator.build_contract_map df_live) as [cm iu].
    destruct (Nat.eqb _ 0); [reflexivity |].
    destruct (Nat.eqb _ 0); [reflexivity |].
    destruct (IvCalculator.iv_records cm iu df_hist_und _) as [[| r rs] | e];
      reflexivity.
  - intros [H | [H | H]]; rewrite H.
    + reflexivity.
    + destruct (IvCalculator.fs_live_options fs); reflexivity.
    + destruct (IvCalculator.fs_live_options fs); [| reflexivity].
      destruct (IvCalculator.fs_hist_options fs); reflexivity.
Qed.

Lemma X13_stored_history_never_read_witness :
  IvCalculator.build_iv_history
    (IvCalculator.FileSystem None None None (Some [early_record]))
  = (Raise FileNotFoundError,
     IvCalculator.FileSystem None None None (Some [early_record])).
Proof.
  exact (proj2 (X13_stored_history_never_read
                  (IvCalculator.FileSystem None None None None)
                  (Some [early_record]))
               (or_introl eq_refl)).
Defined.

(** ** The status report and the scheduling loop *)

Module Scheduler.

Import DataUpdater.

Lemma trunc_le (x : R) (m : Z) : (0 <= m)%Z -> x <= IZR m -> (trunc x <= m)%Z.
Proof.
  intros Hm Hx. unfold trunc.
  destruct (Rle_dec 0 x) as [Hpos | Hneg].
  - destruct (base_Int_part x) as (Hle & _).
    apply le_IZR. lra.
  - destruct (base_Int_part (- x)) as (_ & Hgt).
    assert (H0 : (0 <= Int_part (- x))%Z).
    { apply Zlt_succ_le, lt_IZR. rewrite succ_IZR. lra. }
    lia.
Qed.

Lemma trunc_nonneg (x : R) : 0 <= x -> (0 <= trunc x)%Z /\ IZR (trunc x) <= x < IZR (trunc x) + 1.
Proof.
  intros Hx. unfold trunc.
  destruct (Rle_dec 0 x) as [_ | Hneg]; [| contradiction].
  destruct (base_Int_part x) as (Hle & Hgt).
  split; [| lra].
  apply Zlt_succ_le, lt_IZR. rewrite succ_IZR. lra.
Qed.

(** The environment a sleeping turn leaves. *)
Lemma sleep_reaches_schedule (next now : R) : next <= now + Rmax 1 (next - now).
Proof. pose proof (Rmax_r 1 (next - now)). lra. Qed.

Lemma turn_sleeps (strftime : R -> string) (scripts : string -> script)
  (self : updater) (e : env) :
  clock e < _next_run_time self ->
  _updater_loop_turn strftime scripts self e
  = (self,
     Env (clock e + Rmax 1 (_next_run_time self - clock e))
         (chain_files e) (iv_files e),
     []).
Proof.
  intros Hwait. unfold _updater_loop_turn.
  destruct (Rle_dec (_next_run_time self) (clock e)); [lra | reflexivity].
Qed.

Lemma successes_all (log : list (string * bool)) :
  Pipeline.successes log = List.length log -> forallb snd log = true.
Proof.
  unfold Pipeline.successes.
  induction log as [| [name ok] log IH]; simpl; [reflexivity |].
  destruct ok; simpl.
  - intros H. apply IH. lia.
  - intros H. exfalso.
    pose proof (filter_length_le snd log) as Hle. lia.
Qed.

Lemma final_status_success (k n : nat) :
  String.prefix "Success" (final_status k n) = true -> k = n.
Proof.
  unfold final_status.
  destruct (Nat.eqb_spec k n) as [E | _]; [intros _; exact E |].
  simpl. discriminate.
Qed.

Lemma run_step_succeeded (scripts : string -> script) (name path : string)
  (e e' : env) :
  _run_step scripts name path e = (true, e') ->
  (scripts path = NoMain /\ e' = e) \/
  exists main, scripts path = Main main /\ main e = (Ok tt, e').
Proof.
  unfold _run_step.
  destruct (scripts path) as [| | | main]; try discriminate.
  - intros [= <-]. left. split; reflexivity.
  - destruct (main e) as [[[] | ex] e1] eqn:Hmain; [| discriminate].
    intros [= <-]. right. exists main. split; [reflexivity | exact Hmain].
Qed.

End Scheduler.

(** X14.  The countdown of [get_status].  Before any run is scheduled
    ([_next_run_time] not positive) it reports the interval.  Otherwise it
    reports the whole seconds left until the scheduled time, never less
    than zero: zero once that time is reached, and after a pipeline run
    with a non-negative interval never more than the interval. *)
Theorem X14_status_countdown
  (strftime : R -> string) (scripts : string -> DataUpdater.script)
  (self : DataUpdater.updater) (e now : DataUpdater.env) :
  let n := DataUpdater.next_update_in_seconds
             (DataUpdater.get_status self now) in
  let run := DataUpdater._run_pipeline strftime scripts self e in
  let after := DataUpdater.next_update_in_seconds
                 (DataUpdater.get_status (fst (fst run)) now) in
  (DataUpdater._next_run_time self <= 0 -> n = DataUpdater.interval self) /\
  (0 < DataUpdater._next_run_time self ->
   (0 <= n)%Z /\
   (DataUpdater._next_run_time self <= DataUpdater.clock now -> n = 0%Z) /\
   (DataUpdater.clock now <= DataUpdater._next_run_time self ->
    IZR n <= DataUpdater._next_run_time self - DataUpdater.clock now
          < IZR n + 1)) /\
  ((0 <= DataUpdater.interval self)%Z ->
   DataUpdater.clock (snd (fst run)) <= DataUpdater.clock now ->
   (0 <= after <= DataUpdater.interval self)%Z).
Proof.
  intros n run after.
  split; [| split].
  - intros Hnext. subst n. unfold DataUpdater.get_status.
    cbn [DataUpdater.next_update_in_seconds].
    destruct (Rlt_dec 0 (DataUpdater._next_run_time self)); [lra | reflexivity].
  - intros Hnext. subst n. unfold DataUpdater.get_status.
    cbn [DataUpdater.next_update_in_seconds].
    destruct (Rlt_dec 0 (DataUpdater._next_run_time self)); [| lra].
    split; [lia | split].
    + intros Hdue.
      pose proof (Scheduler.trunc_le
                    (DataUpdater._next_run_time self - DataUpdater.clock now)
                    0 ltac:(lia) ltac:(simpl; lra)).
      lia.
    + intros Hwait.
      destruct (Scheduler.trunc_nonneg
                  (DataUpdater._next_run_time self - DataUpdater.clock now)
                  ltac:(lra)) as (H0 & Hb).
      rewrite Z.max_r by exact H0. exact Hb.
  - intros Hint Hlater. subst after run.
    unfold DataUpdater._run_pipeline in *.
    cbn [DataUpdater.steps DataUpdater.interval] in *.
    destruct (DataUpdater.run_steps scripts (DataUpdater.steps self) 0 e)
      as [[k e'] log].
    cbn [fst snd] in *. unfold DataUpdater.get_status.
    cbn [DataUpdater.next_update_in_seconds DataUpdater._next_run_time
         DataUpdater.interval].
    destruct (Rlt_dec 0 (DataUpdater.clock e' + IZR (DataUpdater.interval self)))
      as [Hpos | Hnon].
    + pose proof (Scheduler.trunc_le
                    (DataUpdater.clock e' + IZR (DataUpdater.interval self)
                     - DataUpdater.clock now)
                    (DataUpdater.interval self) Hint ltac:(lra)).
      lia.
    + lia.
Qed.

Lemma X14_status_countdown_witness :
  (0 <= DataUpdater.next_update_in_seconds
          (DataUpdater.get_status
             (fst (fst (DataUpdater._run_pipeline (fun _ => "now")
                          (fun _ => DataUpdater.NoMain) (DataUpdater.init 300)
                          (DataUpdater.Env 100
                             (ChainCalculator.FileSystem None None None None
                                None)
                             (IvCalculator.FileSystem None None None None)))))
             (DataUpdater.Env 160
                (ChainCalculator.FileSystem None None None None None)
                (IvCalculator.FileSystem None None None None)))
   <= 300)%Z.
Proof.
  refine (proj2 (proj2
    (X14_status_countdown (fun _ => "now") (fun _ => DataUpdater.NoMain)
       (DataUpdater.init 300)
       (DataUpdater.Env 100
          (ChainCalculator.FileSystem None None None None None)
          (IvCalculator.FileSystem None None None None))
       (DataUpdater.Env 160
          (ChainCalculator.FileSystem None None None None None)
          (IvCalculator.FileSystem None None None None))))
    _ _).
  - simpl. lia.
  - simpl. lra.
Defined.

(** X15.  A turn of the updater loop taken before the scheduled time runs
    no step, leaves the updater and the files as they are and sleeps at
    least one second; when the sleep is over the scheduled time has been
    reached, so the following turn runs the whole pipeline: the loop never
    sleeps twice in a row. *)
Theorem X15_sleep_then_run
  (strftime : R -> string) (scripts : string -> DataUpdater.script)
  (self : DataUpdater.updater) (e later : DataUpdater.env) :
  DataUpdater.clock e < DataUpdater._next_run_time self ->
  let turn := DataUpdater._updater_loop_turn strftime scripts self e in
  snd turn = [] /\ fst (fst turn) = self /\
  DataUpdater.chain_files (snd (fst turn)) = DataUpdater.chain_files e /\
  DataUpdater.iv_files (snd (fst turn)) = DataUpdater.iv_files e /\
  DataUpdater.clock e + 1 <= DataUpdater.clock (snd (fst turn)) /\
  (DataUpdater.clock (snd (fst turn)) <= DataUpdater.clock later ->
   map fst (snd (DataUpdater._updater_loop_turn strftime scripts self later))
   = map fst (DataUpdater.steps self)).
Proof.
  intros Hwait turn. subst turn.
  rewrite (Scheduler.turn_sleeps strftime scripts self e Hwait).
  cbn [fst snd DataUpdater.clock DataUpdater.chain_files DataUpdater.iv_files].
  repeat (split; [reflexivity |]).
  split; [pose proof (Rmax_l 1 (DataUpdater._next_run_time self
                                - DataUpdater.clock e)); lra |].
  intros Hlater.
  pose proof (Scheduler.sleep_reaches_schedule
                (DataUpdater._next_run_time self) (DataUpdater.clock e)).
  unfold DataUpdater._updater_loop_turn.
  destruct (Rle_dec (DataUpdater._next_run_time self) (DataUpdater.clock later));
    [| lra].
  unfold DataUpdater._run_pipeline. cbn [DataUpdater.steps].
  pose proof (Pipeline.run_steps_log scripts (DataUpdater.steps self) 0 later)
    as Hlog.
  destruct (DataUpdater.run_steps scripts (DataUpdater.steps self) 0 later)
    as [[k e'] log].
  cbn [snd]. apply Hlog.
Qed.

Lemma X15_sleep_then_run_witness :
  map fst
    (snd (DataUpdater._updater_loop_turn (fun _ => "now")
            (fun _ => DataUpdater.NoMain)
            (DataUpdater.Updater 300 true 0 None "Idle" 50
               [("data_fetcher", "Scripts/data_fetcher.py")])
            (DataUpdater.Env 50
               (ChainCalculator.FileSystem None None None None None)
               (IvCalculator.FileSystem None None None None))))
  = ["data_fetcher"].
Proof.
  apply (X15_sleep_then_run (fun _ => "now") (fun _ => DataUpdater.NoMain)
           (DataUpdater.Updater 300 true 0 None "Idle" 50
              [("data_fetcher", "Scripts/data_fetcher.py")])
           (DataUpdater.Env 0
              (ChainCalculator.FileSystem None None None None None)
              (IvCalculator.FileSystem None None None None))
           (DataUpdater.Env 50
              (ChainCalculator.FileSystem None None None None None)
              (IvCalculator.FileSystem None None None None))).
  - simpl. lra.
  - rewrite Scheduler.turn_sleeps by (simpl; lra).
    cbn [fst snd DataUpdater.clock DataUpdater._next_run_time].
    unfold Rmax. destruct (Rle_dec 1 (50 - 0)); lra.
Defined.

Module PipelineBuilders.

Import DataUpdater.

Lemma chain_step_succeeded (data_fetcher date_processor : script)
  (e e' : env) :
  _run_step (repository_scripts data_fetcher date_processor)
    "chain_calculator" "Scripts/chain_calculator.py" e = (true, e') ->
  exists rows,
    ChainCalculator.build_chain (chain_files e) = (Ok rows, chain_files e') /\
    clock e' = clock e /\ iv_files e' = iv_files e.
Proof.
  intros H. apply Scheduler.run_step_succeeded in H.
  change (repository_scripts data_fetcher date_processor
            "Scripts/chain_calculator.py")
    with (Main chain_calculator_main) in H.
  destruct H as [(H & _) | (main & Hmain & Hrun)]; [discriminate |].
  injection Hmain as <-. unfold chain_calculator_main in Hrun.
  destruct (ChainCalculator.build_chain (chain_files e)) as [[rows | ex] fs];
    [| discriminate].
  injection Hrun as <-. exists rows. repeat split.
Qed.

Lemma iv_step_succeeded (data_fetcher date_processor : script)
  (e e' : env) :
  _run_step (repository_scripts data_fetcher date_processor)
    "iv_calculator" "Scripts/iv_calculator.py" e = (true, e') ->
  exists rows,
    IvCalculator.build_iv_history (iv_files e) = (Ok rows, iv_files e') /\
    clock e' = clock e /\ chain_files e' = chain_files e.
Proof.
  intros H. apply Scheduler.run_step_succeeded in H.
  change (repository_scripts data_fetcher date_processor
            "Scripts/iv_calculator.py")
    with (Main iv_calculator_main) in H.
  destruct H as [(H & _) | (main & Hmain & Hrun)]; [discriminate |].
  injection Hmain as <-. unfold iv_calculator_main in Hrun.
  destruct (IvCalculator.build_iv_history (iv_files e)) as [[rows | ex] fs];
    [| discriminate].
  injection Hrun as <-. exists rows. repeat split.
Qed.

Lemma iv_build_inputs (fs fs' : IvCalculator.filesystem)
  (rows : list IvCalculator.iv_record) :
  IvCalculator.build_iv_history fs = (Ok rows, fs') ->
  IvCalculator.fs_live_options fs <> None /\
  IvCalculator.fs_hist_options fs <> None /\
  IvCalculator.fs_hist_underlying fs <> None.
Proof.
  unfold IvCalculator.build_iv_history.
  rewrite IvHistory.should_rebuild_always. cbn [negb].
  unfold IvCalculator.rebuild.
  destruct (IvCalculator.fs_live_options fs); [| discriminate].
  destruct (IvCalculator.fs_hist_options fs); [| discriminate].
  destruct (IvCalculator.fs_hist_underlying fs); [| discriminate].
  intros _. repeat split; discriminate.
Qed.

End PipelineBuilders.

(** X16.  With the scripts of the repository, a pipeline run of the
    updater as constructed ends with a status that begins with "Success"
    only if all four steps succeeded, and then the status is
    "Success (4/4)", both builders returned a table without raising, the
    IV build found its three input workbooks, and the files the run leaves
    are the ones the two builders left. *)
Theorem X16_success_means_tables_built
  (strftime : R -> string)
  (data_fetcher date_processor : DataUpdater.script)
  (interval : Z) (e : DataUpdater.env) :
  let scripts := DataUpdater.repository_scripts data_fetcher date_processor in
  let run := DataUpdater._run_pipeline strftime scripts
               (DataUpdater.init interval) e in
  String.prefix "Success" (DataUpdater.status (fst (fst run))) = true ->
  DataUpdater.status (fst (fst run)) = "Success (4/4)" /\
  snd run = [("data_fetcher", true); ("date_processor", true);
             ("chain_calculator", true); ("iv_calculator", true)] /\
  exists (before : DataUpdater.env)
         (chain_rows : list ChainCalculator.chain_row)
         (iv_rows : list IvCalculator.iv_record),
    ChainCalculator.build_chain (DataUpdater.chain_files before)
    = (Ok chain_rows, DataUpdater.chain_files (snd (fst run))) /\
    IvCalculator.build_iv_history (DataUpdater.iv_files before)
    = (Ok iv_rows, DataUpdater.iv_files (snd (fst run))) /\
    IvCalculator.fs_live_options (DataUpdater.iv_files before) <> None /\
    IvCalculator.fs_hist_options (DataUpdater.iv_files before) <> None /\
    IvCalculator.fs_hist_underlying (DataUpdater.iv_files before) <> None.
Proof.
  intros scripts run. subst run.
  unfold DataUpdater._run_pipeline.
  cbn [DataUpdater.steps DataUpdater.init DataUpdater.interval
       DataUpdater.run_steps List.length].
  destruct (DataUpdater._run_step scripts "data_fetcher"
              "Scripts/data_fetcher.py" e) as [ok1 e1].
  destruct (DataUpdater._run_step scripts "date_processor"
              "Scripts/date_processor.py" e1) as [ok2 e2].
  destruct (DataUpdater._run_step scripts "chain_calculator"
              "Scripts/chain_calculator.py" e2) as [ok3 e3] eqn:H3.
  destruct (DataUpdater._run_step scripts "iv_calculator"
              "Scripts/iv_calculator.py" e3) as [ok4 e4] eqn:H4.
  cbn [fst snd DataUpdater.status].
  intros Hs. apply Scheduler.final_status_success in Hs.
  destruct ok1, ok2, ok3, ok4; try discriminate Hs.
  destruct (PipelineBuilders.chain_step_succeeded _ _ _ _ H3)
    as (chain_rows & Hchain & Hclock3 & Hiv3).
  destruct (PipelineBuilders.iv_step_succeeded _ _ _ _ H4)
    as (iv_rows & Hiv & Hclock4 & Hchain4).
  split; [reflexivity | split; [reflexivity |]].
  exists e2, chain_rows, iv_rows.
  rewrite Hiv3 in Hiv.
  split; [rewrite Hchain4; exact Hchain |].
  split; [exact Hiv |].
  exact (PipelineBuilders.iv_build_inputs _ _ _ Hiv).
Qed.

(** A run on option workbooks without rows: every step succeeds. *)
Definition empty_workbooks : DataUpdater.env :=
  DataUpdater.Env 100
    (ChainCalculator.FileSystem None None None None None)
    (IvCalculator.FileSystem (Some []) (Some []) (Some []) None).

Lemma X16_success_means_tables_built_witness :
  DataUpdater.status
    (fst (fst (DataUpdater._run_pipeline (fun _ => "now")
                 (DataUpdater.repository_scripts DataUpdater.NoMain
                    DataUpdater.NoMain)
                 (DataUpdater.init 300) empty_workbooks)))
  = "Success (4/4)".
Proof.
  exact (proj1 (X16_success_means_tables_built (fun _ => "now")
                  DataUpdater.NoMain DataUpdater.NoMain 300 empty_workbooks
                  eq_refl)).
Defined.

(** ** The rows of a chain build *)

Module ChainRows.

Import ChainCalculator.

Lemma round_half_even_between (y : R) (m n : Z) :
  IZR m <= y <= IZR n -> (m <= round_half_even y <= n)%Z.
Proof.
  intros (Hm & Hn). unfold round_half_even.
  destruct (base_Int_part y) as (Hle & Hgt).
  assert (Hlow : (m <= Int_part y)%Z).
  { apply Zlt_succ_le, lt_IZR. rewrite succ_IZR. lra. }
  assert (Hup : (Int_part y <= n)%Z) by (apply le_IZR; lra).
  assert (Hfrac : 0 < y - IZR (Int_part y) -> (Int_part y + 1 <= n)%Z).
  { intros Hd. apply Zlt_le_succ, lt_IZR. lra. }
  destruct (Rlt_dec (y - IZR (Int_part y)) (1 / 2)); [lia |].
  destruct (Rlt_dec (1 / 2) (y - IZR (Int_part y))).
  - specialize (Hfrac ltac:(lra)). lia.
  - destruct (Z.even (Int_part y)); [lia |].
    specialize (Hfrac ltac:(lra)). lia.
Qed.

(** Rounding to [ndigits] decimals keeps a number between two bounds that
    have at most [ndigits] decimals. *)
Lemma round_between (x : R) (m n : Z) (ndigits : nat) :
  IZR m / 10 ^ ndigits <= x <= IZR n / 10 ^ ndigits ->
  exists v, round (Some x) ndigits = Some v /\
            IZR m / 10 ^ ndigits <= v <= IZR n / 10 ^ ndigits.
Proof.
  intros (Hm & Hn).
  assert (Hp : 0 < 10 ^ ndigits) by (apply pow_lt; lra).
  eexists. split; [reflexivity |].
  assert (Hb : IZR m <= x * 10 ^ ndigits <= IZR n).
  { split.
    - apply Rmult_le_compat_r with (r := 10 ^ ndigits) in Hm; [| lra].
      unfold Rdiv in Hm. rewrite Rmult_assoc, Rinv_l, Rmult_1_r in Hm; lra.
    - apply Rmult_le_compat_r with (r := 10 ^ ndigits) in Hn; [| lra].
      unfold Rdiv in Hn. rewrite Rmult_assoc, Rinv_l, Rmult_1_r in Hn; lra. }
  destruct (round_half_even_between _ _ _ Hb) as (H1 & H2).
  apply IZR_le in H1, H2.
  split; apply Rmult_le_compat_r; try assumption;
    left; apply Rinv_0_lt_compat; exact Hp.
Qed.

Lemma trunc_pos (d : R) : 0 < d -> (0 <= trunc d)%Z.
Proof.
  intros Hd. unfold trunc. destruct (Rle_dec 0 d); [| lra].
  destruct (base_Int_part d) as (_ & Hgt).
  apply Zlt_succ_le, lt_IZR. rewrite succ_IZR. lra.
Qed.

(** A defined implied volatility of the chain module lies in its bracket. *)
Lemma implied_volatility_within (price S K T r : float) (typ : string) (v : R) :
  implied_volatility price S K T r typ = Some v -> 0.01 <= v <= 5.
Proof.
  unfold implied_volatility.
  destruct (_ || _ || _ || _); [discriminate |].
  destruct (Brentq.brentq _ _ _ _ _ _) eqn:Hrun; simpl; try discriminate.
  intros [= <-]. eapply BrentqBracket.brentq_within; [| exact Hrun]. lra.
Qed.

(** What a row that is kept records of the live row it comes from. *)
Lemma process_contract_Some
  (hv_cache : gmap string hv_tuple) (price_map : gmap string float)
  (r : live_row) (row : chain_row) :
  process_contract hv_cache price_map r = Some row ->
  exists (s d : R) (K price sigma : float),
    0 < s /\ 0 < d /\
    lr_remained_day r = Num (Some d) /\
    to_float (lr_strike r) = Ok K /\
    to_float (lr_real_time_price r) = Ok price /\
    (price <=? Some 0)%fl = false /\
    is_nan_or_empty (strip (lr_underlying_isin r)) = false /\
    underlying_isin row = strip (lr_underlying_isin r) /\
    type row = lr_type r /\
    contract_isin row
    = strip (if kind_is (lr_type r) "PUT" then lr_isin_put r
             else lr_isin_call r) /\
    strike row = K /\
    days_to_expiry row = trunc d /\
    market_price row = round price 0 /\
    underlying_price row = round (Some s) 0 /\
    iv row
    = round_if_notna
        (implied_volatility price (Some s) K (Some (d / 365)) RISK_FREE_RATE
           (kind_label (lr_type r))) 4 /\
    let g := calculate_greeks (Some s) K (Some (d / 365)) RISK_FREE_RATE
               sigma (kind_label (lr_type r)) in
    row_delta row = round (delta g) 4 /\ row_gamma row = round (gamma g) 4 /\
    theta_daily row = round (theta g) 4 /\
    vega_per_1pct row = round (vega g) 4 /\
    rho_per_1pct row = round (rho g) 4.
Proof.
  unfold process_contract, contract_row.
  destruct (is_nan_or_empty (strip (lr_underlying_isin r))) eqn:Hu;
    [discriminate |].
  destruct (default (lr_underlying_real_time_price r)
              (price_map !! strip (lr_underlying_isin r))) as [s |] eqn:HS;
    [| discriminate].
  cbn [isna notna negb orb].
  unfold fle at 1. destruct (Rle_dec s 0) as [| Hs]; [discriminate |].
  destruct (to_float (lr_strike r)) as [K | e] eqn:HK; [| discriminate].
  cbn [bind].
  destruct (lr_remained_day r) as [[d |] | txt] eqn:Hd; cbn [to_float bind];
    [ | | discriminate].
  2:{ (* the number of days is NaN: [int] raises *)
      destruct (to_float (lr_real_time_price r)) as [price | e];
        [| discriminate]. cbn [bind].
      destruct (if cell_notna (lr_last r) then to_float (lr_last r)
                else Ok price) as [last | e]; [| discriminate].
      cbn [bind fdiv].
      destruct (_ || _); [discriminate |].
      destruct (default default_hv _) as [[[hv30 hv90] hv252] hv_sel].
      cbn [to_int int_of_float bind try_except]. discriminate. }
  destruct (to_float (lr_real_time_price r)) as [price | e] eqn:Hp;
    [| discriminate]. cbn [bind].
  destruct (if cell_notna (lr_last r) then to_float (lr_last r)
            else Ok price) as [last | e]; [| discriminate].
  cbn [bind].
  rewrite (fdiv_Some d 365) by lra.
  unfold fle at 1. destruct (Rle_dec (d / 365) 0) as [| HT]; [discriminate |].
  cbn [orb].
  destruct (price <=? Some 0)%fl eqn:Hquote; [discriminate |].
  destruct (default default_hv _) as [[[hv30 hv90] hv252] hv_sel].
  cbn [to_int int_of_float bind].
  destruct (int_or_zero (lr_count r)) as [count | e]; [| discriminate].
  destruct (int_or_zero (lr_volume r)) as [vol | e]; [| discriminate].
  destruct (int_or_zero (lr_open_interest r)) as [oi | e]; [| discriminate].
  cbn [bind].
  destruct (lr_contract_size r) as [[size |] | txt']; cbn [to_int int_of_float bind];
    try discriminate.
  cbn [try_except]. intros [= <-].
  cbn [underlying_isin type contract_isin strike days_to_expiry market_price
       underlying_price iv row_delta row_gamma theta_daily vega_per_1pct
       rho_per_1pct].
  exists s, d, K, price.
  eexists.
  split; [lra |].
  split; [apply Rnot_le_lt in HT; unfold Rdiv in HT; nra |].
  repeat (split; [first [reflexivity | exact Hquote] |]).
  cbv zeta. repeat split.
Qed.

End ChainRows.

(** X17.  Every row of a table that [build_chain] builds (rather than
    reads back) has a number of days to expiry that is not negative, an
    underlying identifier other than 'nan' and '', a market price that is
    NaN or not negative, an underlying price that is a number and not
    negative, and an implied volatility that is NaN or lies between 0.01
    and 5. *)
Theorem X17_chain_row_values
  (fs fs' : ChainCalculator.filesystem)
  (rows : list ChainCalculator.chain_row) (row : ChainCalculator.chain_row) :
  ChainCalculator.should_rebuild fs = true ->
  ChainCalculator.build_chain fs = (Ok rows, fs') ->
  In row rows ->
  (0 <= ChainCalculator.days_to_expiry row)%Z /\
  is_nan_or_empty (ChainCalculator.underlying_isin row) = false /\
  (forall m, ChainCalculator.market_price row = Some m -> 0 <= m) /\
  (exists u, ChainCalculator.underlying_price row = Some u /\ 0 <= u) /\
  (ChainCalculator.iv row = nan \/
   exists v, ChainCalculator.iv row = Some v /\ 0.01 <= v <= 5).
Proof.
  intros Hre Hrun Hin.
  destruct (ChainBuild.build_chain_rebuilt fs rows fs' Hre Hrun)
    as [-> | (live & hv_cache & _ & -> & _)]; [destruct Hin |].
  apply (Permutation_in _
           (Permutation_sym (ChainOrder.sort_values_perm _))) in Hin.
  apply list_elem_of_In, list_elem_of_omap in Hin.
  destruct Hin as (r & _ & Hrow).
  destruct (ChainRows.process_contract_Some _ _ _ _ Hrow)
    as (s & d & K & price & sigma & Hs & Hd & _ & _ & _ & Hquote & Hu & Eu
        & _ & _ & _ & Edays & Emarket & Eund & Eiv & _).
  split; [rewrite Edays; apply ChainRows.trunc_pos; exact Hd |].
  split; [rewrite Eu; exact Hu |].
  split; [| split].
  - intros m. rewrite Emarket.
    destruct price as [p |]; [| discriminate].
    assert (Hpos : 0 < p).
    { unfold fle in Hquote. destruct (Rle_dec p 0); [discriminate | lra]. }
    destruct (ChainRows.round_between p 0 (up p) 0) as (v & Ev & Hv).
    { simpl. destruct (archimed p). lra. }
    rewrite Ev. intros [= <-]. simpl in Hv. lra.
  - rewrite Eund.
    destruct (ChainRows.round_between s 0 (up s) 0) as (v & Ev & Hv).
    { simpl. destruct (archimed s). lra. }
    exists v. split; [exact Ev | simpl in Hv; lra].
  - rewrite Eiv. unfold ChainCalculator.round_if_notna.
    destruct (ChainCalculator.implied_volatility _ _ _ _ _ _) as [v |] eqn:Hiv;
      [| left; reflexivity].
    cbn [notna]. right.
    apply ChainRows.implied_volatility_within in Hiv.
    destruct (ChainRows.round_between v 100 50000 4) as (w & Ew & Hw).
    { simpl. lra. }
    exists w. split; [exact Ew | simpl in Hw; lra].
Qed.

Lemma X17_chain_row_values_witness :
  exists p : ChainCalculator.chain_row,
    ChainCalculator.type p = Some "PUT" /\
    (0 <= ChainCalculator.days_to_expiry p)%Z.
Proof.
  destruct call_put_build as (p & c & fs' & Hrun & Htp & _).
  exists p. split; [exact Htp |].
  exact (proj1 (X17_chain_row_values call_put_fs fs' [p; c] p eq_refl Hrun
                  (or_introl eq_refl))).
Defined.

(** ** The order of the history rows *)

Module HVOrder.

Import ChainCalculator.

Definition key_lt (a b : Z * float) : Prop := (fst a < fst b)%Z.

Lemma insert_by_date_perm (x : Z * float) (l : list (Z * float)) :
  Permutation (x :: l) (insert_by_date x l).
Proof.
  induction l as [| y l IH]; simpl; [reflexivity |].
  destruct (fst x <=? fst y)%Z; [reflexivity |].
  rewrite perm_swap. constructor. exact IH.
Qed.

Lemma sort_by_date_perm (l : list (Z * float)) :
  Permutation l (sort_by_date l).
Proof.
  induction l as [| x l IH]; simpl; [constructor |].
  rewrite <- insert_by_date_perm. constructor. exact IH.
Qed.

Lemma insert_by_date_strict (x : Z * float) (l : list (Z * float)) :
  StronglySorted key_lt l -> ~ In (fst x) (map fst l) ->
  StronglySorted key_lt (insert_by_date x l).
Proof.
  induction 1 as [| y l Hs IH Hall]; intros Hnew; simpl.
  - repeat constructor.
  - destruct (Z.leb_spec (fst x) (fst y)) as [Hle | Hgt].
    + assert (Hlt : (fst x < fst y)%Z).
      { destruct (Z.eq_dec (fst x) (fst y)) as [E | Hne]; [| lia].
        exfalso. apply Hnew. left. symmetry. exact E. }
      constructor; [constructor; assumption |].
      constructor; [exact Hlt |].
      eapply Forall_impl; [| exact Hall].
      intros z Hz. unfold key_lt in *. lia.
    + constructor.
      * apply IH. intros Hin. apply Hnew. right. exact Hin.
      * apply (Permutation_Forall (insert_by_date_perm x l)).
        constructor; [exact Hgt | exact Hall].
Qed.

Lemma sort_by_date_strict (l : list (Z * float)) :
  NoDup (map fst l) -> StronglySorted key_lt (sort_by_date l).
Proof.
  induction l as [| x l IH]; simpl; intros Hnd; [constructor |].
  inversion Hnd as [| k ks Hnotin Hnd']; subst.
  apply insert_by_date_strict; [apply IH; exact Hnd' |].
  intros Hin. apply Hnotin.
  apply (Permutation_in _ (Permutation_map fst
                             (Permutation_sym (sort_by_date_perm l)))).
  exact Hin.
Qed.

(** Two strictly sorted lists with the same elements are the same list. *)
Lemma strict_sorted_unique (l : list (Z * float)) :
  forall l', StronglySorted key_lt l -> StronglySorted key_lt l' ->
             Permutation l l' -> l = l'.
Proof.
  induction l as [| x xs IH]; intros l' Hs Hs' Hp.
  - apply Permutation_nil in Hp. subst. reflexivity.
  - destruct l' as [| y ys].
    + apply Permutation_sym, Permutation_nil in Hp. discriminate.
    + inversion Hs as [| ? ? Hsx Hallx]; subst.
      inversion Hs' as [| ? ? Hsy Hally]; subst.
      assert (E : x = y).
      { assert (Hx : In x (y :: ys))
          by (apply (Permutation_in _ Hp); now left).
        assert (Hy : In y (x :: xs))
          by (apply (Permutation_in _ (Permutation_sym Hp)); now left).
        destruct Hx as [-> | Hx]; [reflexivity |].
        destruct Hy as [-> | Hy]; [reflexivity |].
        rewrite Forall_forall in Hallx, Hally.
        specialize (Hallx y Hy). specialize (Hally x Hx).
        unfold key_lt in *. lia. }
      subst y. f_equal. apply IH; try assumption.
      eapply Permutation_cons_inv. exact Hp.
Qed.

Lemma sort_by_date_unique (l l' : list (Z * float)) :
  NoDup (map fst l) -> Permutation l l' -> sort_by_date l' = sort_by_date l.
Proof.
  intros Hnd Hp. symmetry. apply strict_sorted_unique.
  - apply sort_by_date_strict. exact Hnd.
  - apply sort_by_date_strict.
    apply (Permutation_NoDup (Permutation_map fst Hp)). exact Hnd.
  - rewrite <- (sort_by_date_perm l), <- (sort_by_date_perm l'). exact Hp.
Qed.

Lemma filter_perm {A : Type} (f : A -> bool) (l l' : list A) :
  Permutation l l' -> Permutation (filter f l) (filter f l').
Proof.
  induction 1 as [| x l l' Hp IH | x y l | l l' l'' Hp1 IH1 Hp2 IH2]; simpl.
  - constructor.
  - destruct (f x); [constructor |]; exact IH.
  - destruct (f x), (f y); try reflexivity. apply perm_swap.
  - etransitivity; eassumption.
Qed.

(** The date column of a reordered table: the same failure, or the same
    pairs in another order. *)
Lemma dated_perm (hist hist' : list history_row) :
  Permutation hist hist' ->
  match dated hist, dated hist' with
  | Ok l, Ok l' => Permutation l l'
  | Raise e, Raise e' => e = e'
  | _, _ => False
  end.
Proof.
  assert (Hraise : forall h e, dated h = Raise e -> e = ValueError).
  { induction h as [| r h IHh]; intros e; simpl; [discriminate |].
    destruct (hr_date r); [| intros [= <-]; reflexivity].
    destruct (dated h) as [l | e0]; simpl; [discriminate |].
    intros [= <-]. apply IHh. reflexivity. }
  induction 1 as [| x l l' Hp IH | x y l | l l' l'' Hp1 IH1 Hp2 IH2]; simpl.
  - constructor.
  - destruct (hr_date x); [| reflexivity].
    destruct (dated l) as [a | e], (dated l') as [a' | e']; simpl;
      try contradiction; [constructor; exact IH | exact IH].
  - destruct (hr_date x), (hr_date y); try reflexivity.
    destruct (dated l) as [a | e]; simpl; [apply perm_swap | reflexivity].
  - destruct (dated l) as [a | e] eqn:E1, (dated l') as [a' | e'] eqn:E2,
      (dated l'') as [a'' | e''] eqn:E3; try contradiction.
    + etransitivity; eassumption.
    + congruence.
Qed.

Lemma dated_keys (hist : list history_row) (l : list (Z * float)) :
  dated hist = Ok l -> map Some (map fst l) = map hr_date hist.
Proof.
  revert l. induction hist as [| h hist IH]; intros l; simpl.
  - intros [= <-]. reflexivity.
  - destruct (hr_date h) as [d |]; [| discriminate].
    destruct (dated hist) as [l0 |]; simpl; [| discriminate].
    intros [= <-]. simpl. f_equal. apply IH. reflexivity.
Qed.

End HVOrder.

(** X18.  The estimate of [calculate_hv] does not depend on the order of
    the rows of the history table, as long as the rows of the underlying
    carry pairwise different dates: the function sorts them by date before
    it computes the returns. *)
Theorem X18_history_order_irrelevant
  (df_hist df_hist' : ChainCalculator.history_table) (u_isin : string) :
  Permutation df_hist df_hist' ->
  NoDup (map ChainCalculator.hr_date
           (filter (ChainCalculator.same_isin (strip u_isin)) df_hist)) ->
  ChainCalculator.calculate_hv df_hist' u_isin
  = ChainCalculator.calculate_hv df_hist u_isin.
Proof.
  intros Hp Hnd. unfold ChainCalculator.calculate_hv, ChainCalculator.calculate_hv_with. cbv zeta.
  pose proof (HVOrder.filter_perm
                (ChainCalculator.same_isin (strip u_isin)) _ _ Hp) as Hf.
  rewrite <- (Permutation_length Hf).
  destruct (List.length _ <? 2)%nat; [reflexivity |].
  pose proof (HVOrder.dated_perm _ _ Hf) as Hd.
  destruct (ChainCalculator.dated
              (filter (ChainCalculator.same_isin (strip u_isin)) df_hist))
    as [l | e] eqn:El;
    destruct (ChainCalculator.dated
                (filter (ChainCalculator.same_isin (strip u_isin)) df_hist'))
    as [l' | e']; try contradiction; [| congruence].
  cbn [bind].
  assert (Hkeys : NoDup (map fst l)).
  { apply (NoDup_map_inv Some). rewrite (HVOrder.dated_keys _ _ El).
    exact Hnd. }
  rewrite (HVOrder.sort_by_date_unique l l' Hkeys Hd). reflexivity.
Qed.

Lemma X18_history_order_irrelevant_witness :
  ChainCalculator.calculate_hv (rev flat_history) "IRO1FOLD0001"
  = ChainCalculator.calculate_hv flat_history "IRO1FOLD0001".
Proof.
  apply X18_history_order_irrelevant.
  - apply Permutation_rev.
  - simpl. repeat constructor; simpl; intuition discriminate.
Defined.

(** ** The records of the IV history build *)

Module IvRecords.

Import IvCalculator.

Lemma bs_price_nan_strike (S T r sigma : float) (typ : string) :
  bs_price S nan T r sigma typ = Some 0 \/ bs_price S nan T r sigma typ = nan.
Proof.
  unfold bs_price.
  destruct (_ || _ || _ || _); [left; reflexivity | right].
  destruct S as [s |], T as [t |], r as [r' |], sigma as [sg |];
    destruct (String.eqb typ "CALL"); reflexivity.
Qed.

(** A defined implied volatility lies in the bracket, and the contract it
    was solved for has a positive strike. *)
Lemma implied_volatility_defined (p s t : R) (K : float) (typ : string)
  (v : R) :
  0 < p -> 0 < s -> 0 < t ->
  implied_volatility (Some p) (Some s) K (Some t) RISK_FREE_RATE typ = Some v ->
  1e-6 <= v <= 5 /\ exists k, K = Some k /\ 0 < k.
Proof.
  intros Hp Hs Ht. unfold implied_volatility.
  destruct (_ || _ || _ || _) eqn:Hguard; [discriminate |].
  destruct (Brentq.brentq _ _ _ _ _ _) eqn:Hrun; simpl; try discriminate.
  intros [= <-]. split.
  - eapply BrentqBracket.brentq_within; [| exact Hrun]. lra.
  - destruct K as [k |].
    + exists k. split; [reflexivity |].
      apply orb_false_iff in Hguard as (_ & Hk).
      unfold fle in Hk. destruct (Rle_dec k 0); [discriminate | lra].
    + exfalso. unfold Brentq.brentq in Hrun.
      destruct (Rle_dec Brentq.default_xtol 0); [discriminate |].
      destruct (Rlt_dec Brentq.default_rtol (Brentq.default_rtol / 4));
        [discriminate |].
      assert (Hnan : (bs_price (Some s) nan (Some t) RISK_FREE_RATE
                        (Some 1e-6) typ - Some p)%fl = nan).
      { unfold bs_price, RISK_FREE_RATE, half.
        rewrite (fle_pos t Ht), (fle_pos s Hs), (fle_pos 1e-6) by lra.
        cbn [orb fle nan]. cbn [fdiv nan].
        destruct (String.eqb typ "CALL"); reflexivity. }
      unfold nan in Hnan at 1. rewrite Hnan in Hrun. discriminate.
Qed.

(** The record built from a row that is kept. *)
Lemma iv_record_of_fields
  (contract_map : gmap string contract_info)
  (isin_to_underlying : gmap string string)
  (df_hist_und : list hist_underlying_row) (opt : hist_option_row)
  (rec : iv_record) :
  iv_record_of contract_map isin_to_underlying df_hist_und opt = Ok (Some rec) ->
  exists (isin : string) (date_int : Z) (info : contract_info) (p s : R),
    contract_map !! isin = Some info /\
    (date_int < ci_end_int info)%Z /\ 0 < p /\ 0 < s /\
    let T := (of_Z (ci_end_int info - date_int) / Some 365)%fl in
    let iv := implied_volatility (Some p) (Some s) (ci_strike info) T
                RISK_FREE_RATE (ci_type info) in
    let bs := if notna iv
              then bs_price (Some s) (ci_strike info) T RISK_FREE_RATE iv
                     (ci_type info)
              else nan in
    rec = IvRecord isin (ho_date opt) (round (Some p) 2) (round (Some s) 2)
            (ci_strike info) (ci_end_int info - date_int) (ci_type info)
            (if notna iv then round iv 4 else nan)
            (if notna bs then round bs 2 else nan).
Proof.
  unfold iv_record_of.
  destruct (ho_source_isin opt) as [isin |]; [| discriminate].
  destruct (ho_date_int opt) as [date_int |]; [| discriminate].
  destruct (contract_map !! isin) as [info |] eqn:Hinfo; [| discriminate].
  destruct (Z.leb_spec (ci_end_int info) date_int) as [Hle | Hlt];
    [discriminate |].
  destruct (ho_last opt) as [[p |] | txt]; cbn [cell_notna notna to_float bind];
    [| rewrite fle_nonpos by lra; discriminate | discriminate].
  unfold fle at 1. destruct (Rle_dec p 0) as [| Hp]; [discriminate |].
  destruct (isin_to_underlying !! isin) as [u_isin |]; [| discriminate].
  destruct (String.eqb u_isin EmptyString); [discriminate |].
  unfold underlying_price_at.
  destruct (und_lookup df_hist_und date_int u_isin) as [| S_row [| S_row' rest]];
    cbn [try_except]; [discriminate | | discriminate].
  destruct (hu_last S_row) as [[s |] | txt];
    cbn [cell_notna notna to_float bind try_except];
    [| rewrite fle_nonpos by lra; discriminate | discriminate].
  unfold fle at 1. destruct (Rle_dec s 0) as [| Hs]; [discriminate |].
  cbn [try_except]. intros [= <-].
  exists isin, date_int, info, p, s.
  split; [exact Hinfo |]. split; [exact Hlt |].
  split; [lra |]. split; [lra |]. reflexivity.
Qed.

(** Every record of a build comes from the maps of the live table. *)
Lemma rebuild_record_source (fs fs' : filesystem) (rows : list iv_record)
  (rec : iv_record) :
  build_iv_history fs = (Ok rows, fs') -> In rec rows ->
  exists df_live df_hist_und opt,
    fs_live_options fs = Some df_live /\
    iv_record_of (fst (build_contract_map df_live))
      (snd (build_contract_map df_live)) df_hist_und opt = Ok (Some rec).
Proof.
  unfold build_iv_history.
  rewrite IvHistory.should_rebuild_always. cbn [negb].
  unfold rebuild.
  destruct (fs_live_options fs) as [df_live |]; [| discriminate].
  destruct (fs_hist_options fs) as [df_hist_opt |]; [| discriminate].
  destruct (fs_hist_underlying fs) as [df_hist_und |]; [| discriminate].
  cbn [read_excel].
  destruct (build_contract_map df_live) as [contract_map isin_to_underlying]
    eqn:Hmaps.
  destruct (Nat.eqb _ 0); [intros [= <- <-] [] |].
  destruct (Nat.eqb _ 0); [discriminate |].
  destruct (iv_records _ _ _ _) as [recs | e] eqn:Hrecs; [| discriminate].
  intros Hrun Hin.
  assert (Hin' : In rec recs).
  { destruct recs as [| r recs].
    - injection Hrun as <- <-. destruct Hin.
    - injection Hrun as <- <-. apply IvHistory.sort_records_In. exact Hin. }
  destruct (IvHistory.iv_records_In _ _ _ _ recs rec Hrecs Hin')
    as (opt & _ & Hrec).
  exists df_live, df_hist_und, opt. split; [reflexivity |].
  rewrite Hmaps. exact Hrec.
Qed.

End IvRecords.

(** X19.  Every record of a table returned by [build_iv_history] has type
    PUT or CALL, an option identifier other than 'nan', '' and '<NA>', an
    option price and an underlying price that are numbers and not negative,
    and either both the implied volatility and the re-computed price are
    NaN, or both are numbers and the implied volatility lies between 0
    and 5. *)
Theorem X19_iv_record_values
  (fs fs' : IvCalculator.filesystem) (rows : list IvCalculator.iv_record)
  (rec : IvCalculator.iv_record) :
  IvCalculator.build_iv_history fs = (Ok rows, fs') ->
  In rec rows ->
  (IvCalculator.type rec = "PUT" \/ IvCalculator.type rec = "CALL") /\
  IvCalculator.usable_isin (IvCalculator.option_isin rec) = true /\
  (exists p, IvCalculator.option_price rec = Some p /\ 0 <= p) /\
  (exists s, IvCalculator.underlying_price rec = Some s /\ 0 <= s) /\
  ((IvCalculator.rec_implied_volatility rec = nan /\
    IvCalculator.rec_bs_price rec = nan) \/
   (exists v b, IvCalculator.rec_implied_volatility rec = Some v /\
                0 <= v <= 5 /\ IvCalculator.rec_bs_price rec = Some b)).
Proof.
  intros Hrun Hin.
  destruct (IvRecords.rebuild_record_source fs fs' rows rec Hrun Hin)
    as (df_live & df_hist_und & opt & _ & Hrec).
  destruct (IvRecords.iv_record_of_fields _ _ _ _ _ Hrec)
    as (isin & date_int & info & p & s & Hinfo & Hlt & Hp & Hs & Erec).
  cbv zeta in Erec.
  pose proof (IvMaps.fold_paired df_live df_live (∅, ∅) (fun r H => H)
                (fun k => I) isin) as Hpair.
  unfold IvMaps.paired in Hpair.
  change (fold_left IvCalculator.map_live_row df_live (∅, ∅))
    with (IvCalculator.build_contract_map df_live) in Hpair.
  rewrite Hinfo in Hpair.
  destruct (snd (IvCalculator.build_contract_map df_live) !! isin) as [u |];
    [| contradiction].
  destruct Hpair as (row & _ & _ & _ & _ & Husable & Htype).
  assert (HT : 0 < IZR (IvCalculator.ci_end_int info - date_int) / 365).
  { apply Rdiv_lt_0_compat; [apply IZR_lt; lia | lra]. }
  unfold of_Z in Erec. rewrite (fdiv_Some _ 365) in Erec by lra.
  subst rec.
  cbn [IvCalculator.type IvCalculator.option_isin IvCalculator.option_price
       IvCalculator.underlying_price IvCalculator.rec_implied_volatility
       IvCalculator.rec_bs_price].
  split; [destruct Htype as [(E & _) | (E & _)]; [left | right]; exact E |].
  split; [exact Husable |].
  split.
  { destruct (ChainRows.round_between p 0 (up (p * 100)) 2) as (w & Ew & Hw).
    { simpl. destruct (archimed (p * 100)). lra. }
    exists w. split; [exact Ew | simpl in Hw; lra]. }
  split.
  { destruct (ChainRows.round_between s 0 (up (s * 100)) 2) as (w & Ew & Hw).
    { simpl. destruct (archimed (s * 100)). lra. }
    exists w. split; [exact Ew | simpl in Hw; lra]. }
  destruct (IvCalculator.implied_volatility _ _ _ _ _ _) as [v |] eqn:Hiv;
    cbn [notna]; [| left; split; reflexivity].
  right.
  destruct (IvRecords.implied_volatility_defined _ _ _ _ _ _ Hp Hs HT Hiv)
    as (Hv & k & Ek & Hk).
  rewrite Ek. unfold IvCalculator.RISK_FREE_RATE.
  rewrite hist_bs_price_eq, chain_bs_price_reals by lra.
  cbn [notna].
  destruct (ChainRows.round_between v 0 50000 4) as (w & Ew & Hw).
  { simpl. lra. }
  exists w. eexists. split; [exact Ew |].
  split; [simpl in Hw; lra | reflexivity].
Qed.

Lemma X19_iv_record_values_witness :
  IvCalculator.type early_record = "PUT" \/
  IvCalculator.type early_record = "CALL".
Proof.
  exact (proj1 (X19_iv_record_values expiry_fs
                  (IvCalculator.with_output expiry_fs [early_record])
                  [early_record] early_record expiry_build
                  (or_introl eq_refl))).
Defined.

(** ** A history date that does not convert *)

Module HVFailure.

Import ChainCalculator.

Lemma dated_undated (hist : list history_row) (h : history_row) :
  In h hist -> hr_date h = None -> dated hist = Raise ValueError.
Proof.
  induction hist as [| x hist IH]; intros Hin Hnone; [destruct Hin |].
  simpl. destruct Hin as [-> | Hin].
  - rewrite Hnone. reflexivity.
  - destruct (hr_date x); [| reflexivity].
    rewrite (IH Hin Hnone). reflexivity.
Qed.

Lemma dated_raises (hist : list history_row) (e : exn) :
  dated hist = Raise e -> e = ValueError.
Proof.
  revert e. induction hist as [| x hist IH]; intros e; simpl; [discriminate |].
  destruct (hr_date x); [| intros [= <-]; reflexivity].
  destruct (dated hist) as [l | e0]; simpl; [discriminate |].
  intros [= <-]. apply IH. reflexivity.
Qed.

Lemma calculate_hv_raises (df_hist : history_table) (u : string) (e : exn) :
  calculate_hv df_hist u = Raise e -> e = ValueError.
Proof.
  unfold calculate_hv, calculate_hv_with. cbv zeta.
  destruct (List.length _ <? 2)%nat; [discriminate |].
  destruct (dated _) as [l | e0] eqn:Hd; cbn [bind].
  - destruct (List.length _ <? 2)%nat; discriminate.
  - intros [= <-]. eapply dated_raises. exact Hd.
Qed.

Lemma hv_entry_raises (df_hist : history_table) (u : string)
  (hv_cache : gmap string hv_tuple) (e : exn) :
  hv_entry df_hist u hv_cache = Raise e -> e = ValueError.
Proof.
  unfold hv_entry. cbv zeta.
  destruct (is_nan_or_empty (strip u)); [discriminate |].
  destruct (existsb _ df_hist); [| discriminate].
  destruct (calculate_hv df_hist (strip u)) as [hv | e0] eqn:Hhv; cbn [bind];
    [discriminate |].
  intros [= <-]. eapply calculate_hv_raises. exact Hhv.
Qed.

(** The loop over the underlyings stops at the first estimate that raises. *)
Lemma hv_entries_raise (df_hist : history_table) (underlyings : list string)
  (u : string) :
  In u underlyings ->
  (forall hv_cache, hv_entry df_hist u hv_cache = Raise ValueError) ->
  forall hv_cache, hv_entries df_hist underlyings hv_cache = Raise ValueError.
Proof.
  intros Hin Hu.
  induction underlyings as [| x underlyings IH]; intros hv_cache;
    [destruct Hin |].
  simpl. destruct Hin as [-> | Hin].
  - rewrite Hu. reflexivity.
  - destruct (hv_entry df_hist x hv_cache) as [c | e] eqn:Hx; cbn [bind].
    + apply IH. exact Hin.
    + f_equal. eapply hv_entry_raises. exact Hx.
Qed.

End HVFailure.

(** X20.  The volatility estimates are computed outside the [try] of the
    row loop: when the history holds at least two rows for the underlying
    of some live row and the date of one of them does not convert to an
    integer, [calculate_hv] raises, and so does the whole of
    [build_chain], which then writes neither the table nor the digest. *)
Theorem X20_unreadable_history_date
  (fs : ChainCalculator.filesystem) (live : ChainCalculator.live_file)
  (df_hist : ChainCalculator.history_table)
  (r : ChainCalculator.live_row) (h : ChainCalculator.history_row) :
  ChainCalculator.should_rebuild fs = true ->
  ChainCalculator.fs_live fs = Some live ->
  ChainCalculator.fs_history fs = Some df_hist ->
  In r (ChainCalculator.lf_rows live) ->
  let u := strip (ChainCalculator.lr_underlying_isin r) in
  is_nan_or_empty u = false ->
  (2 <= List.length (filter (ChainCalculator.same_isin u) df_hist))%nat ->
  In h df_hist -> ChainCalculator.same_isin u h = true ->
  ChainCalculator.hr_date h = None ->
  ChainCalculator.calculate_hv df_hist u = Raise ValueError /\
  ChainCalculator.build_chain fs = (Raise ValueError, fs).
Proof.
  intros Hre Hlive Hhist Hr u Hu Htwo Hh Hsame Hdate.
  assert (Hcalc : ChainCalculator.calculate_hv df_hist u = Raise ValueError).
  { unfold ChainCalculator.calculate_hv, ChainCalculator.calculate_hv_with. cbv zeta.
    unfold u. rewrite HVSeries.strip_idempotent. fold u.
    destruct (Nat.ltb_spec
                (List.length (filter (ChainCalculator.same_isin u) df_hist)) 2)
      as [Hlt | _]; [lia |].
    rewrite (HVFailure.dated_undated _ h); [reflexivity | | exact Hdate].
    apply filter_In. split; assumption. }
  split; [exact Hcalc |].
  unfold ChainCalculator.build_chain. rewrite Hre, Hlive, Hhist.
  cbn [negb ChainCalculator.read_or_empty].
  assert (Hcache :
    ChainCalculator.build_hv_cache (ChainCalculator.lf_rows live) df_hist
    = Raise ValueError).
  { unfold ChainCalculator.build_hv_cache.
    destruct df_hist as [| h0 df_hist0]; [destruct Hh |].
    apply (HVFailure.hv_entries_raise _ _
             (ChainCalculator.lr_underlying_isin r)).
    - apply in_map. exact Hr.
    - intros hv_cache. unfold ChainCalculator.hv_entry. cbv zeta.
      fold u. rewrite Hu.
      assert (E : existsb (ChainCalculator.same_isin u) (h0 :: df_hist0)
                  = true).
      { apply existsb_exists. exists h. split; assumption. }
      rewrite E, Hcalc. reflexivity. }
  rewrite Hcache. reflexivity.
Qed.

(** Two rows of one underlying, the second with a date cell that is not a
    date, and a live row on that underlying. *)
Definition undated_history : ChainCalculator.history_table :=
  [ ChainCalculator.HistoryRow "IRO1AHRM0001" (Some 14030101%Z) (Some 100);
    ChainCalculator.HistoryRow "IRO1AHRM0001" None (Some 110) ].

Definition undated_fs : ChainCalculator.filesystem :=
  ChainCalculator.FileSystem
    (Some (ChainCalculator.LiveFile "9f2c" call_put_live))
    (Some undated_history) None None None.

Lemma X20_unreadable_history_date_witness :
  ChainCalculator.build_chain undated_fs = (Raise ValueError, undated_fs).
Proof.
  refine (proj2 (X20_unreadable_history_date undated_fs
                   (ChainCalculator.LiveFile "9f2c" call_put_live)
                   undated_history
                   (ChainCalculator.LiveRow "IRO9AHRM2501" "IRO9AHRM2401"
                      (Num (Some 1000)) "IRO1AHRM0001" "ZAHRM1" "call option"
                      (Num (Some 12)) (Num (Some 340)) (Num (Some 50))
                      (Num (Some 75)) (Num (Some 50)) "AHRM" (Some 1000)
                      "14030101" "14030201" (Num (Some 1000)) (Num (Some 30))
                      (Some "CALL"))
                   (ChainCalculator.HistoryRow "IRO1AHRM0001" None (Some 110))
                   eq_refl eq_refl eq_refl (or_introl eq_refl) eq_refl
                   _ (or_intror (or_introl eq_refl)) eq_refl eq_refl)).
  simpl. lia.
Defined.

(** ** Which rows the two loops keep *)

(** X21.  The row loop of [build_chain] keeps a live row exactly when: its
    stripped underlying identifier is neither 'nan' nor ''; the spot price
    (from the live underlying table, else from the row) is a positive
    number; strike, quote, last price, trade count, volume and open
    interest are not text; the number of remaining days is a positive
    number; the quote is not a number at or below zero (a NaN quote is
    kept); and the contract size is a number.  Every other row is
    skipped. *)
Theorem X21_live_row_kept_iff
  (hv_cache : gmap string ChainCalculator.hv_tuple)
  (price_map : gmap string float) (r : ChainCalculator.live_row) :
  (exists row,
     ChainCalculator.process_contract hv_cache price_map r = Some row) <->
  (is_nan_or_empty (strip (ChainCalculator.lr_underlying_isin r)) = false /\
   (exists s,
      default (ChainCalculator.lr_underlying_real_time_price r)
        (price_map !! strip (ChainCalculator.lr_underlying_isin r)) = Some s /\
      0 < s) /\
   (exists K, ChainCalculator.lr_strike r = Num K) /\
   (exists d, ChainCalculator.lr_remained_day r = Num (Some d) /\ 0 < d) /\
   (exists price,
      ChainCalculator.lr_real_time_price r = Num price /\
      (price <=? Some 0)%fl = false) /\
   (exists l, ChainCalculator.lr_last r = Num l) /\
   (exists c, ChainCalculator.lr_count r = Num c) /\
   (exists v, ChainCalculator.lr_volume r = Num v) /\
   (exists o, ChainCalculator.lr_open_interest r = Num o) /\
   (exists z, ChainCalculator.lr_contract_size r = Num (Some z))).
Proof.
  unfold ChainCalculator.process_contract, ChainCalculator.contract_row.
  split.
  - intros (row & Hrow). revert Hrow.
    destruct (is_nan_or_empty _) eqn:Hu; [discriminate |].
    destruct (default _ _) as [s |] eqn:HS; [| discriminate].
    cbn [isna notna negb orb].
    unfold fle at 1. destruct (Rle_dec s 0) as [| Hs]; [discriminate |].
    destruct (ChainCalculator.lr_strike r) as [K | txt];
      cbn [to_float bind]; [| discriminate].
    destruct (ChainCalculator.lr_remained_day r) as [[d |] | txt];
      cbn [to_float bind]; [| | discriminate].
    2:{ destruct (to_float (ChainCalculator.lr_real_time_price r))
          as [price | e]; [| discriminate]. cbn [bind].
        destruct (if cell_notna (ChainCalculator.lr_last r)
                  then to_float (ChainCalculator.lr_last r) else Ok price)
          as [last | e]; [| discriminate].
        cbn [bind fdiv].
        destruct (_ || _); [discriminate |].
        destruct (default ChainCalculator.default_hv _)
          as [[[hv30 hv90] hv252] hv_sel].
        cbn [to_int int_of_float bind try_except]. discriminate. }
    destruct (ChainCalculator.lr_real_time_price r) as [price | txt];
      cbn [to_float bind]; [| discriminate].
    destruct (ChainCalculator.lr_last r) as [l | txt];
      cbn [cell_notna to_float]; [| discriminate].
    assert (Hlast : exists last,
              (if notna l then Ok l else Ok price) = Ok last)
      by (destruct (notna l); eauto).
    destruct Hlast as (last & ->). cbn [bind].
    rewrite (fdiv_Some d 365) by lra.
    unfold fle at 1.
    destruct (Rle_dec (d / 365) 0) as [| HT]; [discriminate |].
    cbn [orb].
    destruct (price <=? Some 0)%fl eqn:Hquote; [discriminate |].
    destruct (default ChainCalculator.default_hv _)
      as [[[hv30 hv90] hv252] hv_sel].
    cbn [to_int int_of_float bind].
    unfold ChainCalculator.int_or_zero.
    destruct (ChainCalculator.lr_count r) as [c | txt];
      [| cbn [cell_notna to_int bind try_except]; discriminate].
    destruct (ChainCalculator.lr_volume r) as [v | txt];
      [| destruct c; cbn [cell_notna notna to_int int_of_float bind try_except];
         discriminate].
    destruct (ChainCalculator.lr_open_interest r) as [o | txt];
      [| destruct c, v;
         cbn [cell_notna notna to_int int_of_float bind try_except];
         discriminate].
    destruct (ChainCalculator.lr_contract_size r) as [[z |] | txt];
      [| destruct c, v, o;
         cbn [cell_notna notna to_int int_of_float bind try_except];
         discriminate
       | destruct c, v, o;
         cbn [cell_notna notna to_int int_of_float bind try_except];
         discriminate].
    intros _.
    split; [reflexivity |].
    split; [exists s; split; [reflexivity | lra] |].
    split; [eauto |].
    split; [exists d; split; [reflexivity |];
            apply Rnot_le_lt in HT; unfold Rdiv in HT; nra |].
    split; [exists price; split; [reflexivity | exact Hquote] |].
    repeat (split; [eauto |]). eauto.
  - intros (Hu & (s & HS & Hs) & (K & HK) & (d & Hd & Hdpos)
            & (price & Hp & Hquote) & (l & Hl) & (c & Hc) & (v & Hv)
            & (o & Ho) & (z & Hz)).
    rewrite Hu, HS. cbn [isna notna negb orb].
    rewrite (fle_pos s Hs). cbn [orb].
    rewrite HK, Hd, Hp, Hl. cbn [to_float bind cell_notna].
    assert (Hlast : exists last,
              (if notna l then Ok l else Ok price) = Ok last)
      by (destruct (notna l); eauto).
    destruct Hlast as (last & ->). cbn [bind].
    rewrite (fdiv_Some d 365) by lra.
    assert (HT : 0 < d / 365) by (apply Rdiv_lt_0_compat; lra).
    rewrite (fle_pos _ HT), Hquote. cbn [orb].
    destruct (default ChainCalculator.default_hv _)
      as [[[hv30 hv90] hv252] hv_sel].
    cbn [to_int int_of_float bind].
    rewrite Hc, Hv, Ho, Hz.
    unfold ChainCalculator.int_or_zero. cbn [cell_notna to_int].
    destruct c, v, o; cbn [notna int_of_float bind try_except];
      eexists; reflexivity.
Qed.

Lemma X21_live_row_kept_iff_witness :
  exists row,
    ChainCalculator.process_contract ∅ ∅
      (ChainCalculator.LiveRow "IRO9AHRM2501" "IRO9AHRM2401" (Num (Some 1000))
         "IRO1AHRM0001" "ZAHRM1" "call option" (Num (Some 12))
         (Num (Some 340)) (Num nan) (Num (Some 75)) (Num nan) "AHRM"
         (Some 1000) "14030101" "14030201" (Num (Some 1000)) (Num (Some 30))
         (Some "CALL"))
    = Some row.
Proof.
  apply (proj2 (X21_live_row_kept_iff ∅ ∅ _)).
  cbn [ChainCalculator.lr_underlying_isin
       ChainCalculator.lr_underlying_real_time_price ChainCalculator.lr_strike
       ChainCalculator.lr_remained_day ChainCalculator.lr_real_time_price
       ChainCalculator.lr_last ChainCalculator.lr_count
       ChainCalculator.lr_volume ChainCalculator.lr_open_interest
       ChainCalculator.lr_contract_size].
  split; [reflexivity |].
  split; [exists 1000; split; [reflexivity | lra] |].
  split; [eexists; reflexivity |].
  split; [exists 30; split; [reflexivity | lra] |].
  split; [exists nan; split; reflexivity |].
  repeat (split; [eexists; reflexivity |]).
  eexists; reflexivity.
Defined.

(** The entries of the index [(date_int, isin)] set on the underlying
    history in step 5: one per row that has both a date and an
    identifier. *)
Definition index_entries (df_hist_und : list IvCalculator.hist_underlying_row)
  : list (Z * string) :=
  omap (fun u => match IvCalculator.hu_date_int u, IvCalculator.hu_isin u with
                 | Some d, Some i => Some (d, strip i)
                 | _, _ => None
                 end) df_hist_und.



(** X23.  Starting an updater that is not running marks it as running and
    makes the first run due at once: whenever the loop takes its first
    turn, it runs the whole pipeline without sleeping.  Starting it again
    changes nothing; in particular it does not reschedule the next run. *)
Theorem X23_start_runs_at_once
  (strftime : R -> string) (scripts : string -> DataUpdater.script)
  (self : DataUpdater.updater) (e later : DataUpdater.env) :
  DataUpdater.running self = false ->
  DataUpdater.clock e <= DataUpdater.clock later ->
  let started := DataUpdater.start self e in
  DataUpdater.running started = true /\
  map fst (snd (DataUpdater._updater_loop_turn strftime scripts started later))
  = map fst (DataUpdater.steps self) /\
  DataUpdater.clock
    (snd (fst (DataUpdater._updater_loop_turn strftime scripts started later)))
  = DataUpdater.clock
      (snd (fst (DataUpdater._run_pipeline strftime scripts started later))) /\
  DataUpdater.start started later = started.
Proof.
  intros Hidle Hlater started. subst started.
  assert (Hstart :
    DataUpdater.start self e
    = DataUpdater.Updater (DataUpdater.interval self) true
        (DataUpdater.last_run_start self) (DataUpdater.last_update self)
        (DataUpdater.status self) (DataUpdater.clock e)
        (DataUpdater.steps self)).
  { unfold DataUpdater.start. rewrite Hidle. reflexivity. }
  rewrite Hstart.
  split; [reflexivity |].
  split; [| split; [| reflexivity]].
  - unfold DataUpdater._updater_loop_turn.
    cbn [DataUpdater._next_run_time].
    destruct (Rle_dec (DataUpdater.clock e) (DataUpdater.clock later));
      [| contradiction].
    unfold DataUpdater._run_pipeline. cbn [DataUpdater.steps].
    pose proof (Pipeline.run_steps_log scripts (DataUpdater.steps self) 0 later)
      as Hlog.
    destruct (DataUpdater.run_steps scripts (DataUpdater.steps self) 0 later)
      as [[k e'] log].
    cbn [snd]. apply Hlog.
  - unfold DataUpdater._updater_loop_turn.
    cbn [DataUpdater._next_run_time].
    destruct (Rle_dec (DataUpdater.clock e) (DataUpdater.clock later));
      [| contradiction].
    destruct (DataUpdater._run_pipeline strftime scripts _ later)
      as [[self' e'] log].
    reflexivity.
Qed.

Lemma X23_start_runs_at_once_witness :
  map fst
    (snd (DataUpdater._updater_loop_turn (fun _ => "now")
            (fun _ => DataUpdater.NoMain)
            (DataUpdater.start (DataUpdater.init 300) empty_workbooks)
            empty_workbooks))
  = ["data_fetcher"; "date_processor"; "chain_calculator"; "iv_calculator"].
Proof.
  exact (proj1 (proj2
    (X23_start_runs_at_once (fun _ => "now") (fun _ => DataUpdater.NoMain)
       (DataUpdater.init 300) empty_workbooks empty_workbooks
       eq_refl (Rle_refl _)))).
Defined.

(* ================================================================== *)
(** * Round trip of the implied volatility *)
(* ================================================================== *)

(** ** What the solver returns *)

Module BrentqRoot.

Import Brentq BrentqBracket.

Section Root.

Variable f : R -> float.
Variables xtol rtol lo hi : R.
Hypothesis xtol_pos : 0 < xtol.
Hypothesis rtol_nonneg : 0 <= rtol.

(** The residuals the solver keeps are the values of [f] at the points it
    keeps; the far end of the bracket only once it has been set. *)
Definition loop_values (s : state) : Prop :=
  f (xpre s) = Some (fpre s) /\ f (xcur s) = Some (fcur s) /\
  (fpre s * fcur s < 0 \/ fcur s = 0 \/ f (xblk s) = Some (fblk s)).

Definition mid_values (s : state) : Prop :=
  f (xpre s) = Some (fpre s) /\ f (xcur s) = Some (fcur s) /\
  (fcur s = 0 \/ f (xblk s) = Some (fblk s)).

(** A point the solver may return: a zero of [f], or one end of a pair
    on which [f] changes sign and which is closer together than the
    tolerance at that point. *)
Definition root_within_tolerance (x : R) : Prop :=
  f x = Some 0 \/
  exists y fx fy : R,
    lo <= y <= hi /\ f x = Some fx /\ f y = Some fy /\ fx * fy < 0 /\
    Rabs (y - x) < xtol + rtol * Rabs x.

Lemma rebracket_swap_values s :
  loop_inv lo hi s -> loop_values s -> mid_values (swap (rebracket s)).
Proof.
  intros (Hfp & _) (Vp & Vc & Vb).
  unfold rebracket.
  destruct (negb (Reqb (fpre s) 0) && negb (Reqb (fcur s) 0)
            && negb (Bool.eqb (signbit (fpre s)) (signbit (fcur s))))
    eqn:Hcond.
  - unfold swap; cbn [fblk fcur fpre xblk xcur xpre].
    destruct (Rltb (Rabs (fpre s)) (Rabs (fcur s)));
      unfold mid_values; cbn [fblk fcur fpre xblk xcur xpre];
      repeat split; try assumption; right; assumption.
  - assert (Hb : fcur s = 0 \/ f (xblk s) = Some (fblk s)).
    { destruct Vb as [Hn | [Hz | Hb]]; [| now left | now right].
      exfalso.
      assert (Hfc : fcur s <> 0) by nra.
      apply Reqb_false in Hfp. apply Reqb_false in Hfc.
      rewrite Hfp, Hfc, (signbit_differ _ _ Hn) in Hcond. discriminate. }
    unfold swap.
    destruct (Rltb (Rabs (fblk s)) (Rabs (fcur s))) eqn:Hsw;
      unfold mid_values; cbn [fblk fcur fpre xblk xcur xpre].
    + apply Rltb_true in Hsw.
      destruct Hb as [Hz | Hb].
      * rewrite Hz, Rabs_R0 in Hsw. pose proof (Rabs_pos (fblk s)). lra.
      * repeat split; try assumption. right; assumption.
    + repeat split; assumption.
Qed.

Lemma iteration_values s :
  loop_inv lo hi s -> loop_values s ->
  match iteration f xtol rtol s with
  | Continue s' => loop_values s'
  | Stop (Converged x) => root_within_tolerance x
  | Stop _ => True
  end.
Proof.
  intros Hinv Hval.
  pose proof (rebracket_swap_values s Hinv Hval) as Hmv.
  apply rebracket_swap_mid in Hinv.
  unfold iteration. set (m := swap (rebracket s)) in *.
  destruct Hmv as (Vp & Vc & Vb).
  destruct (Reqb (fcur m) 0) eqn:Hz; cbn [orb].
  { apply Reqb_true in Hz. left. rewrite Vc, Hz. reflexivity. }
  apply Reqb_false in Hz.
  destruct Vb as [Vb | Vb]; [contradiction |].
  destruct Hinv as (Hxc & [H0 | (Hxb & HM)]); [contradiction |].
  assert (Hbc : fcur m * fblk m < 0).
  { destruct HM as [(_ & _ & H) | (_ & _ & H & _)]; lra. }
  destruct (Rltb (Rabs (sbis_of m)) (delta_of xtol rtol m)) eqn:Hconv.
  { apply Rltb_true in Hconv. right.
    exists (xblk m), (fcur m), (fblk m).
    repeat split; try assumption; try apply Hxb.
    unfold sbis_of, delta_of in Hconv.
    replace ((xblk m - xcur m) / 2) with ((xblk m - xcur m) * / 2) in Hconv
      by reflexivity.
    rewrite Rabs_mult, (Rabs_pos_eq (/ 2)) in Hconv by lra. lra. }
  destruct (f (advance xtol rtol m)) as [fx' |] eqn:Hfx; [| exact I].
  unfold loop_values; cbn [fblk fcur fpre xblk xcur xpre].
  repeat split; try assumption. right; right; assumption.
Qed.

Lemma iterate_root iter : forall s x,
  loop_inv lo hi s -> loop_values s ->
  iterate f xtol rtol iter s = Converged x -> root_within_tolerance x.
Proof.
  induction iter as [| iter IH]; intros s x Hinv Hval Hrun; simpl in Hrun.
  - discriminate.
  - pose proof (iteration_inv f xtol rtol lo hi xtol_pos rtol_nonneg s Hinv)
      as Hstep.
    pose proof (iteration_values s Hinv Hval) as Hstepv.
    destruct (iteration f xtol rtol s) as [s' | o].
    + eapply IH; eassumption.
    + subst o. exact Hstepv.
Qed.

(** A function that is defined everywhere never makes the loop raise. *)
Lemma iterate_outcome iter : forall s,
  (forall x, f x <> None) ->
  (exists x, iterate f xtol rtol iter s = Converged x) \/
  iterate f xtol rtol iter s = ConvError.
Proof.
  induction iter as [| iter IH]; intros s Hf; simpl.
  - right; reflexivity.
  - unfold iteration.
    destruct (_ || _); [left; eauto |].
    destruct (f (advance xtol rtol (swap (rebracket s)))) eqn:Hfx;
      [apply IH; exact Hf | exfalso; exact (Hf _ Hfx)].
Qed.

End Root.

(** A point returned by [brentq] is a zero of [f] or lies within the
    tolerance of a sign change of [f] between the end points. *)
Lemma brentq_root (f : R -> float) (xtol rtol a b : R) (maxiter : nat) (x : R) :
  a <= b -> brentq f xtol rtol a b maxiter = Converged x ->
  root_within_tolerance f xtol rtol a b x.
Proof.
  intros Hab. unfold brentq.
  destruct (Rle_dec xtol 0) as [| Hxtol]; [discriminate |].
  destruct (Rlt_dec rtol (default_rtol / 4)) as [| Hrtol]; [discriminate |].
  destruct (f a) as [fa |] eqn:Hfa; [| discriminate].
  destruct (f b) as [fb |] eqn:Hfb; [| discriminate].
  destruct (Reqb fa 0) eqn:Ha.
  { intros [= <-]. apply Reqb_true in Ha. left. rewrite Hfa, Ha. reflexivity. }
  destruct (Reqb fb 0) eqn:Hb.
  { intros [= <-]. apply Reqb_true in Hb. left. rewrite Hfb, Hb. reflexivity. }
  destruct (Bool.eqb (signbit fa) (signbit fb)) eqn:Hs; [discriminate |].
  apply Reqb_false in Ha. apply Reqb_false in Hb.
  intros Hrun.
  assert (Hr : 0 <= rtol).
  { unfold default_rtol in Hrtol.
    assert (0 < 4 / 2 ^ 52 / 4)
      by (apply Rdiv_lt_0_compat;
          [apply Rdiv_lt_0_compat; [lra | apply pow_lt; lra] | lra]).
    lra. }
  assert (Hsign : fa * fb < 0) by (apply signbit_differ_inv; assumption).
  refine (iterate_root f xtol rtol a b ltac:(lra) Hr maxiter _ x _ _ Hrun).
  - unfold loop_inv, within; cbn [fblk fcur fpre xblk xcur xpre].
    split; [exact Ha | split; [lra | split; [lra | left; exact Hsign]]].
  - unfold loop_values; cbn [fblk fcur fpre xblk xcur xpre].
    split; [exact Hfa | split; [exact Hfb | left; exact Hsign]].
Qed.

(** With accepted tolerances, a function that is defined everywhere and
    changes sign between the end points, [brentq] returns a point or
    gives up after [maxiter] iterations. *)
Lemma brentq_outcome (f : R -> float) (xtol rtol a b fa fb : R) (maxiter : nat) :
  0 < xtol -> default_rtol / 4 <= rtol ->
  (forall x, f x <> None) ->
  f a = Some fa -> f b = Some fb -> fa * fb < 0 ->
  (exists x, brentq f xtol rtol a b maxiter = Converged x) \/
  brentq f xtol rtol a b maxiter = ConvError.
Proof.
  intros Hxtol Hrtol Hf Hfa Hfb Hsign. unfold brentq.
  destruct (Rle_dec xtol 0); [lra |].
  destruct (Rlt_dec rtol (default_rtol / 4)); [lra |].
  rewrite Hfa, Hfb.
  destruct (Reqb fa 0); [left; eauto |].
  destruct (Reqb fb 0); [left; eauto |].
  rewrite (signbit_differ _ _ Hsign).
  apply iterate_outcome. exact Hf.
Qed.

End BrentqRoot.

(** ** The fair value as a function of the volatility *)

Module PriceMonotone.

(** Two functions that agree around a point have the same derivative
    there. *)
Lemma derivable_pt_lim_local (f g : R -> R) (x l d : R) :
  0 < d -> (forall y, Rabs (y - x) < d -> f y = g y) ->
  derivable_pt_lim g x l -> derivable_pt_lim f x l.
Proof.
  intros Hd Hloc Hg eps Heps.
  destruct (Hg eps Heps) as [delta Hdelta].
  assert (Hm : 0 < Rmin delta d).
  { apply Rmin_pos; [apply cond_pos | exact Hd]. }
  exists (mkposreal _ Hm). intros h Hh Hlt. cbn in Hlt.
  rewrite (Hloc (x + h)), (Hloc x).
  - apply Hdelta; [exact Hh |].
    eapply Rlt_le_trans; [exact Hlt | apply Rmin_l].
  - replace (x - x) with 0 by lra. rewrite Rabs_R0. exact Hd.
  - replace (x + h - x) with h by lra.
    eapply Rlt_le_trans; [exact Hlt | apply Rmin_r].
Qed.

(** The density is the derivative of the distribution function. *)
Lemma cdf_R_derivative (x : R) : derivable_pt_lim cdf_R x (pdf_R x).
Proof.
  set (M := Rabs x + 1).
  assert (HM : 0 <= M) by (unfold M; pose proof (Rabs_pos x); lra).
  assert (Hx : - (M - 1) <= x <= M - 1).
  { unfold M. destruct (Rle_dec 0 x);
      [rewrite Rabs_pos_eq by lra | rewrite Rabs_left by lra]; lra. }
  set (m := NormSymmetry.mass_from_left M HM).
  apply (derivable_pt_lim_local cdf_R (fun y => 1 / 2 + (m y - m 0)) x
           (pdf_R x) 1); [lra | |].
  - intros y Hy. unfold cdf_R, m.
    rewrite (NormSymmetry.mass_from_zero M HM y); [reflexivity |].
    apply Rabs_def2 in Hy. lra.
  - assert (Hm : derivable_pt_lim m x (pdf_R x)).
    { unfold m, NormSymmetry.mass_from_left. apply RiemannInt_P28. lra. }
    change (fun y => 1 / 2 + (m y - m 0))
      with (fct_cte (1 / 2) + (m - fct_cte (m 0)))%F.
    replace (pdf_R x) with (0 + (pdf_R x - 0)) by lra.
    apply derivable_pt_lim_plus; [apply derivable_pt_lim_const |].
    apply derivable_pt_lim_minus; [exact Hm | apply derivable_pt_lim_const].
Qed.

Section Sigma.

Variables S K T r : R.
Hypothesis S_pos : 0 < S.
Hypothesis K_pos : 0 < K.
Hypothesis T_pos : 0 < T.

(** [d1 = level / sigma + half_root * sigma] and
    [d2 = level / sigma - half_root * sigma]. *)
Definition level : R := (ln (S / K) + r * T) / sqrt T.
Definition half_root : R := sqrt T / 2.

Definition upper (sigma : R) : R := level / sigma + half_root * sigma.
Definition lower (sigma : R) : R := level / sigma - half_root * sigma.

(** The value of the call, and its derivative before simplification. *)
Definition call_value (sigma : R) : R :=
  S * cdf_R (upper sigma) - K * exp (- r * T) * cdf_R (lower sigma).

Definition call_slope (sigma : R) : R :=
  S * (pdf_R (upper sigma) * (- level / (sigma * sigma) + half_root))
  - K * exp (- r * T)
    * (pdf_R (lower sigma) * (- level / (sigma * sigma) - half_root)).

Lemma root_T : 0 < sqrt T /\ sqrt T * sqrt T = T.
Proof. split; [apply sqrt_lt_R0; exact T_pos | apply sqrt_sqrt; lra]. Qed.

Lemma d1_upper (sigma : R) :
  0 < sigma -> BlackScholes.d1 S K T r sigma = upper sigma.
Proof.
  intros Hs. destruct root_T as (Hq & HqT).
  unfold BlackScholes.d1, upper, level, half_root.
  remember (sqrt T) as q. remember (ln (S / K)) as L.
  rewrite <- HqT. field. lra.
Qed.

Lemma d2_lower (sigma : R) :
  0 < sigma -> BlackScholes.d2 S K T r sigma = lower sigma.
Proof.
  intros Hs. unfold BlackScholes.d2. rewrite (d1_upper sigma Hs).
  unfold upper, lower, half_root. lra.
Qed.

Lemma upper_derivative (c : R) :
  0 < c -> derivable_pt_lim upper c (- level / (c * c) + half_root).
Proof.
  intros Hc.
  change upper with (fct_cte level / id + fct_cte half_root * id)%F.
  replace (- level / (c * c) + half_root)
    with ((0 * id c - 1 * fct_cte level c) / Rsqr (id c)
          + (0 * id c + fct_cte half_root c * 1))
    by (unfold Rsqr, id, fct_cte; field; lra).
  apply derivable_pt_lim_plus.
  - apply derivable_pt_lim_div;
      [apply derivable_pt_lim_const | apply derivable_pt_lim_id
      | unfold id; lra].
  - apply derivable_pt_lim_mult;
      [apply derivable_pt_lim_const | apply derivable_pt_lim_id].
Qed.

Lemma lower_derivative (c : R) :
  0 < c -> derivable_pt_lim lower c (- level / (c * c) - half_root).
Proof.
  intros Hc.
  change lower with (fct_cte level / id - fct_cte half_root * id)%F.
  replace (- level / (c * c) - half_root)
    with ((0 * id c - 1 * fct_cte level c) / Rsqr (id c)
          - (0 * id c + fct_cte half_root c * 1))
    by (unfold Rsqr, id, fct_cte; field; lra).
  apply derivable_pt_lim_minus.
  - apply derivable_pt_lim_div;
      [apply derivable_pt_lim_const | apply derivable_pt_lim_id
      | unfold id; lra].
  - apply derivable_pt_lim_mult;
      [apply derivable_pt_lim_const | apply derivable_pt_lim_id].
Qed.

Lemma call_value_derivative (c : R) :
  0 < c -> derivable_pt_lim call_value c (call_slope c).
Proof.
  intros Hc.
  change call_value
    with (mult_real_fct S (comp cdf_R upper)
          - mult_real_fct (K * exp (- r * T)) (comp cdf_R lower))%F.
  unfold call_slope.
  apply derivable_pt_lim_minus; apply derivable_pt_lim_scal;
    apply derivable_pt_lim_comp;
    first [apply upper_derivative; exact Hc
          | apply lower_derivative; exact Hc
          | apply cdf_R_derivative].
Qed.

(** [S * pdf (d1) = K * exp (- r * T) * pdf (d2)]. *)
Lemma pdf_balance (c : R) :
  0 < c -> S * pdf_R (upper c) = K * exp (- r * T) * pdf_R (lower c).
Proof.
  intros Hc. destruct root_T as (Hq & HqT).
  assert (HSK : 0 < S / K) by (apply Rdiv_lt_0_compat; assumption).
  assert (Hs2 : sqrt (2 * PI) <> 0).
  { apply Rgt_not_eq, sqrt_lt_R0. pose proof PI_RGT_0. lra. }
  unfold pdf_R.
  replace S with (K * exp (ln (S / K))) at 1
    by (rewrite exp_ln by exact HSK; field; lra).
  unfold Rdiv. rewrite <- !Rmult_assoc.
  f_equal. rewrite !Rmult_assoc, <- !exp_plus. do 2 f_equal.
  unfold upper, lower, level, half_root, Rdiv.
  remember (sqrt T) as q. remember (ln (S * / K)) as L.
  rewrite <- HqT. field. lra.
Qed.

Lemma call_slope_pos (c : R) : 0 < c -> 0 < call_slope c.
Proof.
  intros Hc. destruct root_T as (Hq & _).
  pose proof (pdf_R_pos (upper c)) as Hp.
  assert (E : call_slope c = S * pdf_R (upper c) * (2 * half_root)).
  { unfold call_slope.
    transitivity
      (S * pdf_R (upper c) * (- level / (c * c) + half_root)
       - K * exp (- r * T) * pdf_R (lower c)
         * (- level / (c * c) - half_root)); [ring |].
    rewrite <- (pdf_balance c Hc). ring. }
  rewrite E. unfold half_root.
  apply Rmult_lt_0_compat; [apply Rmult_lt_0_compat; assumption | lra].
Qed.

Lemma call_value_increasing (x y : R) :
  0 < x -> x < y -> call_value x < call_value y.
Proof.
  intros Hx Hxy.
  destruct (MVT_cor2 call_value call_slope x y Hxy) as (c & Hc & Hin).
  { intros c Hc. apply call_value_derivative. lra. }
  pose proof (call_slope_pos c ltac:(lra)). nra.
Qed.

(** The put is worth the call plus an amount that does not depend on the
    volatility. *)
Lemma price_call_value (sigma : R) (option_type : string) :
  0 < sigma ->
  BlackScholesPrice.price S K T r sigma option_type
  = if BlackScholes.is_call option_type then call_value sigma
    else call_value sigma + (K * exp (- r * T) - S).
Proof.
  intros Hs. unfold BlackScholesPrice.price, call_value.
  rewrite (d1_upper sigma Hs), (d2_lower sigma Hs).
  destruct (BlackScholes.is_call option_type); [reflexivity |].
  rewrite !NormSymmetry.cdf_R_mirror. ring.
Qed.

(** The fair value is strictly increasing in the volatility. *)
Lemma price_increasing (x y : R) (option_type : string) :
  0 < x -> x < y ->
  BlackScholesPrice.price S K T r x option_type
  < BlackScholesPrice.price S K T r y option_type.
Proof.
  intros Hx Hxy.
  rewrite !price_call_value by lra.
  pose proof (call_value_increasing x y Hx Hxy).
  destruct (BlackScholes.is_call option_type); lra.
Qed.

End Sigma.

End PriceMonotone.

(** X24.  In exact arithmetic the fair value is strictly increasing in the
    volatility: for positive spot, strike and maturity and two positive
    volatilities [x < y], [bs_price] of either module returns two numbers,
    the one at [x] below the one at [y], for a call as for a put. *)
Theorem X24_price_increasing_in_volatility
  (S K T r x y : R) (option_type : string) :
  0 < S -> 0 < K -> 0 < T -> 0 < x -> x < y ->
  exists px py : R,
    ChainCalculator.bs_price (Some S) (Some K) (Some T) (Some r) (Some x)
      option_type = Some px /\
    ChainCalculator.bs_price (Some S) (Some K) (Some T) (Some r) (Some y)
      option_type = Some py /\
    IvCalculator.bs_price (Some S) (Some K) (Some T) (Some r) (Some x)
      option_type = Some px /\
    IvCalculator.bs_price (Some S) (Some K) (Some T) (Some r) (Some y)
      option_type = Some py /\
    px < py.
Proof.
  intros HS HK HT Hx Hxy.
  exists (BlackScholesPrice.price S K T r x option_type),
         (BlackScholesPrice.price S K T r y option_type).
  split; [apply chain_bs_price_reals; lra |].
  split; [apply chain_bs_price_reals; lra |].
  split; [rewrite hist_bs_price_eq; apply chain_bs_price_reals; lra |].
  split; [rewrite hist_bs_price_eq; apply chain_bs_price_reals; lra |].
  apply PriceMonotone.price_increasing; assumption.
Qed.

Lemma X24_price_increasing_in_volatility_witness :
  exists px py : R,
    ChainCalculator.bs_price (Some 100) (Some 90) (Some 1) (Some 0.36)
      (Some 0.2) "PUT" = Some px /\
    ChainCalculator.bs_price (Some 100) (Some 90) (Some 1) (Some 0.36)
      (Some 0.5) "PUT" = Some py /\
    IvCalculator.bs_price (Some 100) (Some 90) (Some 1) (Some 0.36)
      (Some 0.2) "PUT" = Some px /\
    IvCalculator.bs_price (Some 100) (Some 90) (Some 1) (Some 0.36)
      (Some 0.5) "PUT" = Some py /\
    px < py.
Proof.
  apply (X24_price_increasing_in_volatility 100 90 1 0.36 0.2 0.5 "PUT"); lra.
Defined.

(** ** Solving on a fair value *)

Module RoundTrip.

Import Brentq BrentqRoot.

Section Solve.

Variables S K T r sigma : R.
Variable option_type : string.
Hypothesis S_pos : 0 < S.
Hypothesis K_pos : 0 < K.
Hypothesis T_pos : 0 < T.

Variables lo hi : R.
Hypothesis lo_pos : 0 < lo.
Hypothesis sigma_inside : lo < sigma < hi.

(** The fair value at [sigma], and the function handed to the solver. *)
Definition quoted : float :=
  ChainCalculator.bs_price (Some S) (Some K) (Some T) (Some r) (Some sigma)
    option_type.

Definition residual (x : R) : float :=
  (ChainCalculator.bs_price (Some S) (Some K) (Some T) (Some r) (Some x)
     option_type - quoted)%fl.

Definition fair (x : R) : R := BlackScholesPrice.price S K T r x option_type.

Lemma quoted_fair : quoted = Some (fair sigma).
Proof. apply chain_bs_price_reals; lra. Qed.

Lemma residual_fair (x : R) : 0 < x -> residual x = Some (fair x - fair sigma).
Proof.
  intros Hx. unfold residual. rewrite quoted_fair.
  rewrite chain_bs_price_reals by lra. reflexivity.
Qed.

Lemma residual_defined (x : R) : residual x <> None.
Proof.
  destruct (Rlt_dec 0 x) as [Hx | Hx].
  - rewrite (residual_fair x Hx). discriminate.
  - unfold residual. rewrite quoted_fair. unfold ChainCalculator.bs_price.
    rewrite (fle_true x 0) by lra.
    rewrite orb_true_r. discriminate.
Qed.

Lemma fair_order (x y : R) : 0 < x -> 0 < y -> fair x < fair y -> x < y.
Proof.
  intros Hx Hy Hlt.
  destruct (Rtotal_order x y) as [H | [H | H]]; [exact H | subst; lra |].
  pose proof (PriceMonotone.price_increasing S K T r S_pos K_pos T_pos y x
                option_type Hy H).
  unfold fair in Hlt. lra.
Qed.

Lemma fair_injective (x y : R) : 0 < x -> 0 < y -> fair x = fair y -> x = y.
Proof.
  intros Hx Hy E.
  destruct (Rtotal_order x y) as [H | [H | H]]; [| exact H |].
  - pose proof (PriceMonotone.price_increasing S K T r S_pos K_pos T_pos x y
                  option_type Hx H). unfold fair in E. lra.
  - pose proof (PriceMonotone.price_increasing S K T r S_pos K_pos T_pos y x
                  option_type Hy H). unfold fair in E. lra.
Qed.

(** A point the solver may return is within the tolerance of [sigma]. *)
Lemma root_near (xtol rtol x : R) :
  0 < xtol -> 0 <= rtol -> lo <= x <= hi ->
  root_within_tolerance residual xtol rtol lo hi x ->
  Rabs (x - sigma) < xtol + rtol * Rabs x.
Proof.
  intros Hxtol Hrtol Hx [Hzero | (y & fx & fy & Hy & Efx & Efy & Hsign & Hnear)].
  - rewrite residual_fair in Hzero by lra. injection Hzero as Hzero.
    assert (E : x = sigma) by (apply fair_injective; lra).
    rewrite E. replace (sigma - sigma) with 0 by lra. rewrite Rabs_R0.
    pose proof (Rabs_pos sigma).
    assert (0 <= rtol * Rabs sigma) by (apply Rmult_le_pos; assumption).
    lra.
  - rewrite residual_fair in Efx, Efy by lra.
    injection Efx as Efx. injection Efy as Efy.
    eapply Rle_lt_trans; [| exact Hnear].
    destruct (Rlt_dec fx 0) as [Hn | Hp].
    + assert (0 < fy) by nra.
      assert (x < sigma) by (apply fair_order; lra).
      assert (sigma < y) by (apply fair_order; lra).
      rewrite Rabs_left, Rabs_pos_eq by lra. lra.
    + assert (0 < fx).
      { destruct (Rtotal_order fx 0) as [H | [H | H]];
          [lra | rewrite H in Hsign; lra | lra]. }
      assert (fy < 0) by nra.
      assert (sigma < x) by (apply fair_order; lra).
      assert (y < sigma) by (apply fair_order; lra).
      rewrite Rabs_pos_eq, Rabs_left by lra. lra.
Qed.

(** The solver on the fair value at [sigma]: a returned point is within
    the tolerance of [sigma], and the call ends with a point or with the
    iterations used up. *)
Lemma solve_round_trip (maxiter : nat) :
  let out := brentq residual default_xtol default_rtol lo hi maxiter in
  (forall x, out = Converged x ->
             Rabs (x - sigma) < default_xtol + default_rtol * Rabs x) /\
  ((exists x, out = Converged x) \/ out = ConvError).
Proof.
  intros out. subst out.
  destruct default_tolerances_accepted as (Hxtol & Hrtol).
  assert (Hr : 0 <= default_rtol).
  { unfold default_rtol.
    assert (0 < 2 ^ 52) by (apply pow_lt; lra).
    left. apply Rdiv_lt_0_compat; lra. }
  split.
  - intros x Hrun.
    apply root_near; [lra | exact Hr | |].
    + eapply BrentqBracket.brentq_within; [| exact Hrun]. lra.
    + eapply brentq_root; [| exact Hrun]. lra.
  - apply (brentq_outcome residual default_xtol default_rtol lo hi
             (fair lo - fair sigma) (fair hi - fair sigma) maxiter).
    + lra.
    + lra.
    + exact residual_defined.
    + apply residual_fair. lra.
    + apply residual_fair. lra.
    + pose proof (PriceMonotone.price_increasing S K T r S_pos K_pos T_pos
                    lo sigma option_type ltac:(lra) ltac:(lra)).
      pose proof (PriceMonotone.price_increasing S K T r S_pos K_pos T_pos
                    sigma hi option_type ltac:(lra) ltac:(lra)).
      unfold fair. nra.
Qed.

End Solve.

End RoundTrip.




